(** * The oEmbed resolver: a shallow embedding and its properties

    The development follows the resolver class [OEmbed] and the helper
    [findUrlWithProvider].  Third-party collaborators ([URL], the
    injected HTTP client, [hasProvider]/[extract] of the oEmbed parser,
    cheerio, metascraper, charset and iconv) are fields of a [World];
    every call the properties speak about is recorded in a trace.

    The in-memory milestone repository is embedded in the module
    [InMemoryMilestoneRepository]: its two private fields are the
    fields of a record that [save] maps to a new record. *)

From Stdlib Require Import Ascii String ZArith Lia.
From stdpp Require Import base option list strings gmap fin_maps sorting.

Local Open Scope string_scope.
Local Open Scope list_scope.

(** ** JavaScript values

    What a response body, a scraper result or an oEmbed payload can
    hold.  Numbers are the integers (the sizes of a payload), [VBuf]
    is a [Buffer] with its bytes, an object maps its keys to values. *)

#[warnings="-register-all"]
Inductive value : Type :=
| VUndefined
| VNull
| VBool (b : bool)
| VNum (n : Z)
| VStr (s : string)
| VBuf (bytes : string)
| VArr (items : list value)
| VObj (fields : gmap string value).

(** [ToBoolean]: what [if (v)] and [!v] look at. *)
Definition truthy (v : value) : bool :=
  match v with
  | VUndefined | VNull => false
  | VBool b => b
  | VNum n => negb (n =? 0)%Z
  | VStr s => negb (String.eqb s "")
  | VBuf _ | VArr _ | VObj _ => true
  end.

(** [o.k] on an object literal or a parsed JSON object. *)
Definition field (o : gmap string value) (k : string) : value :=
  default VUndefined (o !! k).

(** ** Regular expressions

    The fragment of the JavaScript regular expressions the source uses:
    anchors, characters, character ranges, sequence, ordered
    alternation, the greedy [?] and the counted repetition [{n}].
    [rmatch] is a backtracking matcher: from a position it lists the
    positions a match can end at, in the order the engine tries them. *)
Module Regex.

Inductive regex : Type :=
| Eps
| Bol
| Eol
| Chr (c : ascii)
| Range (lo hi : ascii)
| Seq (r1 r2 : regex)
| Alt (r1 r2 : regex)
| Opt (r : regex)
| Times (n : nat) (r : regex).

Fixpoint lit (s : string) : regex :=
  match s with
  | EmptyString => Eps
  | String c s' => Seq (Chr c) (lit s')
  end.

(** Case folding of the [i] flag, on ASCII letters. *)
Definition fold_case (c : ascii) : ascii :=
  let n := nat_of_ascii c in
  if (65 <=? n)%nat && (n <=? 90)%nat then ascii_of_nat (n + 32) else c.

Definition chr_eq (ci : bool) (c a : ascii) : bool :=
  if ci then Ascii.eqb (fold_case c) (fold_case a) else Ascii.eqb c a.

Definition in_range (lo hi a : ascii) : bool :=
  (nat_of_ascii lo <=? nat_of_ascii a)%nat && (nat_of_ascii a <=? nat_of_ascii hi)%nat.

(** A matcher state: the index reached and the input still to read. *)
Definition pos : Type := nat * list ascii.

Fixpoint rmatch (ci : bool) (r : regex) (st : pos) : list pos :=
  match r with
  | Eps => [st]
  | Bol => if (st.1 =? 0)%nat then [st] else []
  | Eol => match st.2 with [] => [st] | _ :: _ => [] end
  | Chr c =>
      match st.2 with
      | a :: rest => if chr_eq ci c a then [(S st.1, rest)] else []
      | [] => []
      end
  | Range lo hi =>
      match st.2 with
      | a :: rest => if in_range lo hi a then [(S st.1, rest)] else []
      | [] => []
      end
  | Seq r1 r2 => List.concat (map (rmatch ci r2) (rmatch ci r1 st))
  | Alt r1 r2 => rmatch ci r1 st ++ rmatch ci r2 st
  | Opt r' => rmatch ci r' st ++ [st]
  | Times n r' => Nat.iter n (fun acc => List.concat (map (rmatch ci r') acc)) [st]
  end.

(** [RegExp.prototype.exec] without the [g] flag, started at index
    [i]: the leftmost start that matches, with the end the engine finds
    first.  The answer is the text skipped before the match and the
    text left after it. *)
Fixpoint exec_from (ci : bool) (r : regex) (i : nat) (s : list ascii)
  : option (list ascii * list ascii) :=
  match rmatch ci r (i, s) with
  | (_, after) :: _ => Some ([], after)
  | [] =>
      match s with
      | [] => None
      | c :: s' =>
          match exec_from ci r (S i) s' with
          | Some (before, after) => Some (c :: before, after)
          | None => None
          end
      end
  end.

Definition exec (ci : bool) (r : regex) (s : string)
  : option (list ascii * list ascii) :=
  exec_from ci r 0 (list_ascii_of_string s).

(** [re.test(s)], and the truthiness of [s.match(re)]. *)
Definition test (ci : bool) (r : regex) (s : string) : bool :=
  match exec ci r s with
  | Some _ => true
  | None => false
  end.

(** [s.replace(re, '')] for a regular expression without the [g] flag. *)
Definition remove_first (ci : bool) (r : regex) (s : string) : string :=
  match exec ci r s with
  | None => s
  | Some (before, after) => string_of_list_ascii (before ++ after)
  end.

End Regex.
Import Regex.

(** ** Errors, events and the effect monad *)

(** An exception that is not one of Ghost's error classes: a [TypeError]
    of the platform, or whatever a third-party library throws. *)
Record js_error : Type := JsError { err_name : string; err_message : string }.

#[warnings="-register-all"]
Inductive error : Type :=
| ValidationError (message context : string)
| InternalServerError (message : string) (err : option error)
| Foreign (e : js_error).

Definition error_message (e : error) : string :=
  match e with
  | ValidationError m _ => m
  | InternalServerError m _ => m
  | Foreign e => err_message e
  end.

(** [errors.utils.isGhostError(err) && err.errorType === 'ValidationError'] *)
Definition isValidationError (e : error) : bool :=
  match e with
  | ValidationError _ _ => true
  | _ => false
  end.

(** The configuration object handed to the HTTP client. *)
Abbreviation request_config := (gmap string value).

Record response : Type := Response {
  resp_url : string;
  resp_headers : value;
  resp_body : value
}.

Inductive event : Type :=
| ERequest (url : string) (cfg : request_config)
| EHasProvider (url : string)
| EExtract (url : string)
| ECheerio (html : string)
| EMetascraper (html url : string)
| ELog (e : error).

Abbreviation trace := (list event).

Inductive outcome (A : Type) : Type :=
| Return (a : A)
| Throw (e : error).
Arguments Return {A} a.
Arguments Throw {A} e.

(** A computation reads the trace so far and extends it. *)
Definition M (A : Type) : Type := trace -> outcome A * trace.

Definition ret {A} (a : A) : M A := fun t => (Return a, t).
Definition throw {A} (e : error) : M A := fun t => (Throw e, t).
Definition bind {A B} (m : M A) (k : A -> M B) : M B :=
  fun t =>
    match m t with
    | (Return a, t') => k a t'
    | (Throw e, t') => (Throw e, t')
    end.
Definition try_catch {A} (m : M A) (h : error -> M A) : M A :=
  fun t =>
    match m t with
    | (Return a, t') => (Return a, t')
    | (Throw e, t') => h e t'
    end.
Definition emit (ev : event) : M unit := fun t => (Return tt, t ++ [ev]).

(** A call of a third-party function: its answer or its exception. *)
Definition call {A} (r : js_error + A) : M A :=
  match r with
  | inl e => throw (Foreign e)
  | inr a => ret a
  end.

(** An async function that executes [return p] for a promise [p]
    hands [p] over: [p] is settled after the function body, outside
    any [try] of the body.  [return v] for a plain value and
    [return await p] stay inside. *)
Definition settle {A} (m : M (M A)) : M A := bind m (fun p => p).

Declare Scope eff_scope.
Delimit Scope eff_scope with eff.
Notation "x <- c1 ;; c2" := (bind c1 (fun x => c2))
  (at level 100, c1 at next level, right associativity) : eff_scope.
Notation "c1 ;; c2" := (bind c1 (fun _ => c2))
  (at level 100, right associativity) : eff_scope.
Local Open Scope eff_scope.

(** ** Collaborators *)

(** The three getters of a parsed [URL] the source reads. *)
Record URL : Type := MkURL {
  protocol : string;
  hostname : string;
  host : string
}.

(** Platform and third-party functions, outside this repository. *)
Record World : Type := MkWorld {
  (** [new URL(s)]; [None] when the constructor throws. *)
  URL_parse : string -> option URL;
  (** [s.trim()] *)
  String_trim : string -> string;
  (** [hasProvider] and [extract] of the oEmbed parser package. *)
  hasProvider : string -> bool;
  extract : string -> js_error + value;
  (** [cheerio('link[type="application/json+oembed"]', html).attr('href')] *)
  cheerio_href : string -> js_error + option string;
  (** [metascraper({html, url})] with the eight rule bundles loaded. *)
  metascraper : string -> string -> js_error + gmap string value;
  (** [charset(headers, body)]; [None] is [null]. *)
  charset : value -> value -> js_error + option string;
  (** [iconv.decode(Buffer.from(body, 'binary'), encoding)] *)
  iconv_decode : value -> string -> js_error + string;
  (** [body.toString()] *)
  toString : value -> js_error + string
}.

Definition invalid_url : error :=
  Foreign (JsError "TypeError" "Invalid URL").

Module messages.
Definition noUrlProvided : string := "No url provided.".
Definition insufficientMetadata : string := "URL contains insufficient metadata.".
Definition unknownProvider : string := "No provider found for supplied URL.".
End messages.

(** ** [findUrlWithProvider] *)

(** [/^\/\/|^https?:\/\/(?:www\.)?/] *)
Definition SCHEME_REGEX : regex :=
  Alt (Seq Bol (lit "//"))
      (Seq Bol (Seq (lit "http") (Seq (Opt (lit "s"))
                 (Seq (lit "://") (Opt (lit "www.")))))).

Definition baseUrl (url : string) : string :=
  remove_first false SCHEME_REGEX url.

Definition testUrls (url : string) : list string :=
  let baseUrl := baseUrl url in
  [ "http://" +:+ baseUrl;
    "https://" +:+ baseUrl;
    "http://www." +:+ baseUrl;
    "https://www." +:+ baseUrl ].

(** The result object [{url, provider}]. *)
Record provider_match : Type := ProviderMatch {
  pm_url : string;
  pm_provider : bool
}.

(** The [for ... of] loop; [provider] carries the last answer of
    [hasProvider] ([false] stands for the initial [undefined]). *)
Fixpoint for_testUrls (W : World) (tests : list string)
    (url : string) (provider : bool) : M provider_match :=
  match tests with
  | [] => ret (ProviderMatch url provider)
  | testUrl :: rest =>
      emit (EHasProvider testUrl) ;;
      let provider := hasProvider W testUrl in
      if provider then ret (ProviderMatch testUrl provider)
      else for_testUrls W rest url provider
  end.

Definition findUrlWithProvider (W : World) (url : string) : M provider_match :=
  for_testUrls W (testUrls url) url false.

(** ** The class [OEmbed] *)

Definition guarded_fetcher : Type := string -> request_config -> M response.

(** [ICustomProvider] *)
Record CustomProvider : Type := MkProvider {
  canSupportRequest : URL -> M bool;
  getOEmbedData : URL -> guarded_fetcher -> M value
}.

(** An instance: the two constructor dependencies and the provider list. *)
Record OEmbed : Type := MkOEmbed {
  config_get : string -> string;
  injectedRequest : string -> request_config -> js_error + response;
  customProviders : list CustomProvider
}.

Definition registerProvider (this : OEmbed) (provider : CustomProvider) : OEmbed :=
  {| config_get := config_get this;
     injectedRequest := injectedRequest this;
     customProviders := customProviders this ++ [provider] |}.

Definition unknownProvider {A} (url : string) : M A :=
  throw (ValidationError messages.unknownProvider url).

Definition knownProvider (W : World) (url : string) : M value :=
  try_catch
    (emit (EExtract url) ;; call (extract W url))
    (fun err => throw (InternalServerError (error_message err) None)).

(** *** The guard *)

(** [/^(?:(?:25[0-5]|2[0-4][0-9]|[01]?[0-9][0-9]?)\.){3}(?:25[0-5]|2[0-4][0-9]|[01]?[0-9][0-9]?)$/] *)
Definition OCTET : regex :=
  Alt (Seq (lit "25") (Range "0" "5"))
      (Alt (Seq (Chr "2") (Seq (Range "0" "4") (Range "0" "9")))
           (Seq (Opt (Range "0" "1")) (Seq (Range "0" "9") (Opt (Range "0" "9"))))).
Definition IPV4_REGEX : regex :=
  Seq Bol (Seq (Times 3 (Seq OCTET (Chr "."))) (Seq OCTET Eol)).
(** [/:/] *)
Definition IPV6_REGEX : regex := Chr ":".
(** [/^https?:/i] *)
Definition HTTP_REGEX : regex :=
  Seq Bol (Seq (lit "http") (Seq (Opt (lit "s")) (lit ":"))).

Definition isIpOrLocalhost (W : World) (this : OEmbed) (url : string) : bool :=
  match URL_parse W (config_get this "url") with
  | None => true
  | Some siteUrl =>
      match URL_parse W url with
      | None => true
      | Some u =>
          if String.eqb (host siteUrl) (host u) then false
          else if negb (test true HTTP_REGEX (protocol u))
                  || String.eqb (hostname u) "localhost"
                  || test false IPV4_REGEX (hostname u)
                  || test false IPV6_REGEX (hostname u)
          then true
          else false
      end
  end.

(** *** The guarded fetcher, [this.externalRequest] *)

Definition externalRequest (W : World) (this : OEmbed) : guarded_fetcher :=
  fun url requestConfig =>
    if isIpOrLocalhost W this url then unknownProvider url
    else
      emit (ERequest url requestConfig) ;;
      response <- call (injectedRequest this url requestConfig) ;;
      if isIpOrLocalhost W this (resp_url response) then unknownProvider url
      else ret response.

Definition fetchPage (W : World) (this : OEmbed) (url : string)
    (options : request_config) : M response :=
  let cookieJar := VObj ∅ in
  externalRequest W this url
    (options ∪ {[ "cookieJar" := cookieJar;
                  "method" := VStr "GET";
                  "timeout" := VNum (2 * 1000);
                  "followRedirect" := VBool true ]}).

Record html_page : Type := HtmlPage { html_body : string; html_url : string }.
Record json_page : Type := JsonPage { json_body : value; json_url : string }.

Definition fetchPageHtml (W : World) (this : OEmbed) (url : string) : M html_page :=
  r <- fetchPage W this url
         {[ "encoding" := VStr "binary"; "responseType" := VStr "buffer" ]} ;;
  let headers := resp_headers r in
  let body := resp_body r in
  let responseUrl := resp_url r in
  try_catch
    (encoding <- call (charset W headers body) ;;
     match encoding with
     | None =>
         raw <- call (toString W body) ;;
         ret (HtmlPage raw responseUrl)
     | Some encoding =>
         decodedBody <- call (iconv_decode W body encoding) ;;
         ret (HtmlPage decodedBody responseUrl)
     end)
    (fun err =>
       emit (ELog err) ;;
       raw <- call (toString W body) ;;
       ret (HtmlPage raw responseUrl)).

Definition fetchPageJson (W : World) (this : OEmbed) (url : string) : M json_page :=
  r <- fetchPage W this url {[ "json" := VBool true ]} ;;
  ret (JsonPage (resp_body r) (resp_url r)).

(** *** Bookmark extraction *)

(** [Object.assign({}, scraperResponse, {thumbnail, icon})] followed by
    the two [delete]s. *)
Definition bookmark_metadata (scraperResponse : gmap string value)
  : gmap string value :=
  let metadata :=
    <[ "icon" := field scraperResponse "logo" ]>
      (<[ "thumbnail" := field scraperResponse "image" ]> scraperResponse) in
  delete "logo" (delete "image" metadata).

Definition fetchBookmarkData (W : World) (url html : string) : M value :=
  scraperResponse <-
    try_catch
      (emit (EMetascraper html url) ;; call (metascraper W html url))
      (fun err => emit (ELog err) ;; unknownProvider url) ;;
  let metadata := bookmark_metadata scraperResponse in
  if negb (truthy (field metadata "title")) then
    throw (ValidationError messages.insufficientMetadata url)
  else
    ret (VObj {[ "version" := VStr "1.0";
                 "type" := VStr "bookmark";
                 "url" := VStr url;
                 "metadata" := VObj metadata ]}).

(** *** oEmbed discovery *)

(** [/wp-json\/oembed/] *)
Definition WP_REGEX : regex := lit "wp-json/oembed".

Definition knownFields : list string :=
  [ "type"; "version"; "html"; "url"; "title"; "width"; "height";
    "author_name"; "author_url"; "provider_name"; "provider_url";
    "thumbnail_url"; "thumbnail_width"; "thumbnail_height" ].

(** [v.k] for the keys read off a response body: a [TypeError] on
    [undefined] and [null], the field of an object, [undefined] on
    the other values (none of them has a property of these names). *)
Definition get_prop (v : value) (k : string) : M value :=
  match v with
  | VUndefined =>
      throw (Foreign (JsError "TypeError"
        ("Cannot read properties of undefined (reading '" +:+ k +:+ "')")))
  | VNull =>
      throw (Foreign (JsError "TypeError"
        ("Cannot read properties of null (reading '" +:+ k +:+ "')")))
  | VObj o => ret (field o k)
  | _ => ret VUndefined
  end.

(** [_.pick(body, keys)] *)
Definition pick (body : value) (keys : list string) : gmap string value :=
  match body with
  | VObj o => filter (fun kv => kv.1 ∈ keys) o
  | _ => ∅
  end.

(** [v === s] for a string literal [s]. *)
Definition is_str (v : value) (s : string) : bool :=
  match v with
  | VStr s' => String.eqb s' s
  | _ => false
  end.

(** An optional string argument or attribute as a value. *)
Definition of_opt (o : option string) : value :=
  match o with
  | None => VUndefined
  | Some s => VStr s
  end.

Definition fetchOembedData (W : World) (this : OEmbed) (url html : string)
    (cardType : option string) : M value :=
  oembedUrl <-
    try_catch
      (emit (ECheerio html) ;; call (cheerio_href W html))
      (fun e => unknownProvider url) ;;
  match oembedUrl with
  | Some oembedUrl =>
      if negb (truthy (VStr oembedUrl)) then ret VUndefined
      else if negb (truthy (of_opt cardType)) && test false WP_REGEX oembedUrl
      then ret VUndefined
      else
        oembedResponse <- fetchPageJson W this oembedUrl ;;
        let body := json_body oembedResponse in
        hasRequiredFields <-
          (ty <- get_prop body "type" ;;
           if truthy ty then get_prop body "version" else ret ty) ;;
        hasValidType <-
          (ty <- get_prop body "type" ;;
           ret (existsb (is_str ty) ["photo"; "video"; "link"; "rich"])) ;;
        if truthy hasRequiredFields && hasValidType then
          let oembed := pick body knownFields in
          if is_str (field oembed "type") "photo"
             && negb (truthy (field oembed "url"))
          then ret VUndefined
          else if (is_str (field oembed "type") "video"
                   || is_str (field oembed "type") "rich")
                  && (negb (truthy (field oembed "html"))
                      || negb (truthy (field oembed "width"))
                      || negb (truthy (field oembed "height")))
          then ret VUndefined
          else ret (VObj oembed)
        else ret VUndefined
  | None => ret VUndefined
  end.

(** *** The orchestrator *)

(** [result !== null] *)
Definition is_null (v : value) : bool :=
  match v with
  | VNull => true
  | _ => false
  end.

(** The loop over [this.customProviders]: [Some result] when a provider
    makes the function return, [None] when the loop runs out. *)
Fixpoint for_customProviders (W : World) (this : OEmbed)
    (providers : list CustomProvider) (urlObject : URL) : M (option value) :=
  match providers with
  | [] => ret None
  | provider :: rest =>
      supported <- canSupportRequest provider urlObject ;;
      if supported then
        result <- getOEmbedData provider urlObject (externalRequest W this) ;;
        if negb (is_null result) then ret (Some result)
        else for_customProviders W this rest urlObject
      else for_customProviders W this rest urlObject
  end.

Definition is_bookmark (type : option string) : bool :=
  bool_decide (type = Some "bookmark").

(** The body of the [try] block after [url = url.trim()]: the loop
    over the providers ([resolve_steps]) and the statements after it
    ([later_stages]).  The result is the promise the function returns:
    [ret v] for [return v], the call itself for [return this.f(...)],
    which is not awaited. *)
Definition later_stages (W : World) (this : OEmbed)
    (url : string) (type : option string) : M (M value) :=
  known <-
    (if negb (is_bookmark type) then findUrlWithProvider W url
     else ret (ProviderMatch url false)) ;;
  if pm_provider known then ret (knownProvider W (pm_url known))
  else
    page <- fetchPageHtml W this url ;;
    let pageUrl := html_url page in
    let body := html_body page in
    if is_bookmark type then ret (fetchBookmarkData W url body)
    else
      redirected <-
        (if negb (String.eqb pageUrl url) then findUrlWithProvider W pageUrl
         else ret (ProviderMatch url false)) ;;
      if pm_provider redirected then ret (knownProvider W (pm_url redirected))
      else
        data <- fetchOembedData W this url body None ;;
        data <-
          (if negb (truthy data) && negb (truthy (of_opt type))
           then fetchBookmarkData W url body
           else ret data) ;;
        if negb (truthy data) then ret (unknownProvider url)
        else ret (ret data).

Definition resolve_steps (W : World) (this : OEmbed) (urlObject : URL)
    (url : string) (type : option string) : M (M value) :=
  found <- for_customProviders W this (customProviders this) urlObject ;;
  match found with
  | Some result => ret (ret result)
  | None => later_stages W this url type
  end.

(** The [catch] clause. *)
Definition on_error (url : string) (err : error) : M (M value) :=
  if isValidationError err then throw err
  else
    emit (ELog (InternalServerError
                  "Encountered error when fetching oembed" (Some err))) ;;
    ret (unknownProvider url).

(** [new URL(url)] is the first statement of the [try] block: when it
    throws, [url] has not been trimmed yet. *)
Definition fetchOembedDataFromUrl (W : World) (this : OEmbed)
    (url : string) (type : option string) : M value :=
  match URL_parse W url with
  | None => settle (on_error url invalid_url)
  | Some urlObject =>
      let url := String_trim W url in
      settle (try_catch (resolve_steps W this urlObject url type) (on_error url))
  end.

(** ** A concrete world

    A small site, used to run the resolver on concrete requests.  The
    blog is configured at [https://blog.example.org/]. *)
Module Demo.

Definition is_space (c : ascii) : bool :=
  existsb (Ascii.eqb c) [" "; "009"; "010"; "011"; "012"; "013"]%char.

Fixpoint drop_spaces (cs : list ascii) : list ascii :=
  match cs with
  | c :: cs' => if is_space c then drop_spaces cs' else cs
  | [] => []
  end.

Definition trim (s : string) : string :=
  string_of_list_ascii
    (rev (drop_spaces (rev (drop_spaces (list_ascii_of_string s))))).

(** The input up to the first character of [stops], and the rest. *)
Fixpoint span_until (stops : list ascii) (cs : list ascii)
  : list ascii * list ascii :=
  match cs with
  | [] => ([], [])
  | c :: cs' =>
      if existsb (Ascii.eqb c) stops then ([], cs)
      else let (a, b) := span_until stops cs' in (c :: a, b)
  end.

(** Addresses of the shape [scheme://host[:port]/path], lower case,
    without credentials and without a default port: on these the parts
    below are the ones the [URL] constructor gives. *)
Definition parse (s : string) : option URL :=
  let cs := list_ascii_of_string (trim s) in
  let (scheme, rest) := span_until [":"]%char cs in
  match scheme, rest with
  | _ :: _, ":"%char :: "/"%char :: "/"%char :: rest =>
      let (authority, _) := span_until ["/"; "?"; "#"]%char rest in
      let (name, _) := span_until [":"]%char authority in
      match authority with
      | [] => None
      | _ =>
          Some {| protocol := string_of_list_ascii (scheme ++ [":"%char]);
                  hostname := string_of_list_ascii name;
                  host := string_of_list_ascii authority |}
      end
  | _, _ => None
  end.

Definition page_plain : string :=
  "<html><head><meta property='og:title' content='Example'><meta property='og:image' content='http://x/img.png'></head></html>".
Definition page_untitled : string := "<html><head></head></html>".
Definition page_photo : string :=
  "<html><head><link type='application/json+oembed' href='https://media.example.net/oembed?id=7'></head></html>".
Definition page_inward : string :=
  "<html><head><link type='application/json+oembed' href='http://127.0.0.1/oembed'></head></html>".

Definition ok (url : string) (body : value) : js_error + response :=
  inr (Response url (VObj ∅) body).

Definition request (url : string) (cfg : request_config) : js_error + response :=
  if String.eqb url "https://example.com/" then ok url (VBuf page_plain)
  else if String.eqb url "https://example.com/untitled" then ok url (VBuf page_untitled)
  else if String.eqb url "https://example.com/photo" then ok url (VBuf page_photo)
  else if String.eqb url "https://example.com/inward" then ok url (VBuf page_inward)
  else if String.eqb url "https://example.com/moved" then
    ok "http://10.0.0.8/admin" (VBuf page_plain)
  else if String.eqb url "https://media.example.net/oembed?id=7" then
    ok url (VObj {[ "type" := VStr "photo"; "version" := VStr "1.0" ]})
  else inl (JsError "RequestError" "getaddrinfo ENOTFOUND").

Definition links (html : string) : js_error + option string :=
  if String.eqb html page_photo then inr (Some "https://media.example.net/oembed?id=7")
  else if String.eqb html page_inward then inr (Some "http://127.0.0.1/oembed")
  else inr None.

Definition scrape (html url : string) : js_error + gmap string value :=
  if String.eqb html page_untitled then
    inr {[ "url" := VStr url ]}
  else
    inr {[ "url" := VStr url;
           "title" := VStr "Example";
           "image" := VStr "http://x/img.png";
           "logo" := VStr "http://x/favicon.ico" ]}.

Definition directory (url : string) : bool :=
  String.prefix "https://www.youtube.com/" url
  || String.prefix "https://vimeo.com/" url.

Definition extractor (url : string) : js_error + value :=
  if String.prefix "https://www.youtube.com/" url then
    inr (VObj {[ "type" := VStr "video"; "version" := VStr "1.0" ]})
  else inl (JsError "Error" "Request failed with error code 404").

Definition to_string (body : value) : js_error + string :=
  match body with
  | VBuf b => inr b
  | VStr s => inr s
  | _ => inl (JsError "TypeError" "Cannot read properties of undefined (reading 'toString')")
  end.

Definition world : World :=
  {| URL_parse := parse;
     String_trim := trim;
     hasProvider := directory;
     extract := extractor;
     cheerio_href := links;
     metascraper := scrape;
     charset := fun _ _ => inr None;
     iconv_decode := fun body _ => to_string body;
     toString := to_string |}.

Definition settings (site : string) (key : string) : string :=
  if String.eqb key "url" then site else "".

(** The resolver of the blog, without custom providers. *)
Definition blog : OEmbed :=
  {| config_get := settings "https://blog.example.org/";
     injectedRequest := request;
     customProviders := [] |}.

(** The same resolver with a site address that is not a URL. *)
Definition misconfigured : OEmbed :=
  {| config_get := settings "blog.example.org";
     injectedRequest := request;
     customProviders := [] |}.

(** A provider for one host, answering with a fixed card. *)
Definition card : value :=
  VObj {[ "type" := VStr "rich"; "version" := VStr "1.0";
          "html" := VStr "<p>card</p>" ]}.
Definition fixed_provider : CustomProvider :=
  {| canSupportRequest := fun u => ret (String.eqb (hostname u) "example.com");
     getOEmbedData := fun _ _ => ret card |}.
Definition refusing_provider : CustomProvider :=
  {| canSupportRequest := fun _ => ret false;
     getOEmbedData := fun _ _ => ret VNull |}.

(** The blog's resolver after registering both, in this order. *)
Definition blog_with_providers : OEmbed :=
  registerProvider (registerProvider blog refusing_provider) fixed_provider.

(** A provider for members-only posts: it answers with a
    [ValidationError] of its own. *)
Definition members_provider : CustomProvider :=
  {| canSupportRequest := fun u => ret (String.eqb (hostname u) "example.com");
     getOEmbedData := fun _ _ =>
       throw (ValidationError "URL contains a private resource." "members") |}.
Definition blog_with_members : OEmbed :=
  registerProvider blog members_provider.

End Demo.


(** ** Specification vocabulary *)

(** Run from any trace, [m] only appends events, each satisfying [Q];
    a value it returns satisfies [P] and an error it throws [E]. *)
Definition triple {A} (m : M A) (Q : event -> Prop)
    (P : A -> Prop) (E : error -> Prop) : Prop :=
  forall t, exists evs,
    (m t).2 = t ++ evs /\ Forall Q evs /\
    match (m t).1 with
    | Return a => P a
    | Throw e => E e
    end.

Definition is_request (ev : event) : bool :=
  match ev with ERequest _ _ => true | _ => false end.
Definition is_lookup (ev : event) : bool :=
  match ev with EHasProvider _ => true | _ => false end.
Definition is_discovery (ev : event) : bool :=
  match ev with ECheerio _ => true | _ => false end.
Definition is_log (ev : event) : bool :=
  match ev with ELog _ => true | _ => false end.

(** The unknown-provider outcome for [url]. *)
Definition unknown_provider_outcome (url : string) : error :=
  ValidationError messages.unknownProvider url.

(** ** The guard's rules, in the words of the specification *)

(** The hostname contains a colon. *)
Definition has_colon (h : string) : Prop :=
  In ":"%char (list_ascii_of_string h).

(** A decimal digit, and the number a string of digits denotes. *)
Definition is_digit (a : ascii) : Prop :=
  (48 <= nat_of_ascii a <= 57)%nat.
Definition decimal_value (o : list ascii) : nat :=
  fold_left (fun acc a => 10 * acc + (nat_of_ascii a - 48))%nat o 0%nat.

(** One part of a dotted quad: one to three digits, at most 255. *)
Definition octet (o : list ascii) : Prop :=
  (1 <= length o <= 3)%nat /\ Forall is_digit o /\ (decimal_value o <= 255)%nat.

(** The hostname is a literal dotted quad. *)
Definition dotted_quad (h : string) : Prop :=
  exists o1 o2 o3 o4,
    list_ascii_of_string h
    = o1 ++ "."%char :: o2 ++ "."%char :: o3 ++ "."%char :: o4
    /\ octet o1 /\ octet o2 /\ octet o3 /\ octet o4.

(** [s] without its prefix [p], compared without regard to letter case. *)
Fixpoint strip_prefix_ci (p : string) (s : list ascii) : option (list ascii) :=
  match p with
  | EmptyString => Some s
  | String c p' =>
      match s with
      | a :: s' => if chr_eq true c a then strip_prefix_ci p' s' else None
      | [] => None
      end
  end.

(** The protocol is that of the http or https scheme: it begins with
    [http:] or [https:], in any letter case. *)
Definition http_scheme (p : string) : Prop :=
  is_Some (strip_prefix_ci "http:" (list_ascii_of_string p))
  \/ is_Some (strip_prefix_ci "https:" (list_ascii_of_string p)).

(** The URL's host is the host of the configured site URL. *)
Definition own_host (W : World) (this : OEmbed) (url : string) : Prop :=
  exists siteUrl u,
    URL_parse W (config_get this "url") = Some siteUrl
    /\ URL_parse W url = Some u
    /\ host siteUrl = host u.

(** One of the four rules on a parsed URL applies. *)
Definition unsafe_parts (u : URL) : Prop :=
  ~ http_scheme (protocol u)
  \/ hostname u = "localhost"
  \/ dotted_quad (hostname u)
  \/ has_colon (hostname u).

(** The guard answers [true] exactly when the URL does not parse or one
    of the rules applies, unless the host is the site's own. *)
Definition guard_follows_rules (W : World) (this : OEmbed) : Prop :=
  forall url,
    isIpOrLocalhost W this url = true <->
    ~ own_host W this url
    /\ (URL_parse W url = None
        \/ exists u, URL_parse W url = Some u /\ unsafe_parts u).

(** ** The matcher's normalization

    [strip_scheme_www] is what the expression of the source removes
    ([baseUrl_strip] below proves it equal to the regex replacement);
    [strip_any_scheme_www], further down, is the normalization as the
    specification words it. *)

(** [s] without its prefix [p], when it has that prefix. *)
Fixpoint strip_prefix (p : string) (s : list ascii) : option (list ascii) :=
  match p with
  | EmptyString => Some s
  | String c p' =>
      match s with
      | a :: s' => if Ascii.eqb c a then strip_prefix p' s' else None
      | [] => None
      end
  end.

(** What the source removes from the front of a URL: a leading [//],
    or a leading [http://] or [https://] (in lower case) together
    with a [www.] right behind it.  Everything else stays: a scheme
    in upper case, another scheme such as [ftp://], and a [www.] that
    is first or follows [//]. *)
Definition strip_scheme_www (url : string) : string :=
  let cs := list_ascii_of_string url in
  match strip_prefix "//" cs with
  | Some rest => string_of_list_ascii rest
  | None =>
      match union (strip_prefix "http://" cs) (strip_prefix "https://" cs) with
      | Some rest =>
          string_of_list_ascii (default rest (strip_prefix "www." rest))
      | None => url
      end
  end.

(** The four variants of a base host, in the order they are tested. *)
Definition variants (base : string) : list string :=
  [ "http://" +:+ base; "https://" +:+ base;
    "http://www." +:+ base; "https://www." +:+ base ].

(** The elements of [l] up to and including the first that satisfies [p]. *)
Fixpoint take_through {A} (p : A -> bool) (l : list A) : list A :=
  match l with
  | [] => []
  | x :: l' => if p x then [x] else x :: take_through p l'
  end.

(** *** The normalization in the words of the specification

    "Stripping any existing scheme/www first": any scheme, in any
    letter case, and a [www.] whether or not a scheme precedes it. *)

(** A character of a scheme name: a letter, a digit, [+], [-] or [.]. *)
Definition is_scheme_char (c : ascii) : bool :=
  let n := nat_of_ascii c in
  (Nat.leb 65 n && Nat.leb n 90)
  || (Nat.leb 97 n && Nat.leb n 122)
  || (Nat.leb 48 n && Nat.leb n 57)
  || existsb (Ascii.eqb c) ["+"; "-"; "."]%char.

(** [cs] behind its scheme name and the [://] that ends it. *)
Fixpoint after_scheme_name (cs : list ascii) : option (list ascii) :=
  match cs with
  | c :: cs' =>
      if is_scheme_char c then after_scheme_name cs'
      else strip_prefix "://" cs
  | [] => None
  end.
Definition after_scheme (cs : list ascii) : option (list ascii) :=
  match cs with
  | c :: _ => if is_scheme_char c then after_scheme_name cs else None
  | [] => None
  end.

Definition strip_any_scheme_www (url : string) : string :=
  let cs := list_ascii_of_string url in
  let rest := default cs (union (strip_prefix "//" cs) (after_scheme cs)) in
  string_of_list_ascii (default rest (strip_prefix "www." rest)).

(** The matcher as the specification words it: for every input it
    tests the four variants of the input without any scheme and
    [www.] prefix. *)
Definition strips_any_scheme_and_www (W : World) : Prop :=
  forall url t,
    let tests := variants (strip_any_scheme_www url) in
    findUrlWithProvider W url t
    = (Return match List.find (hasProvider W) tests with
              | Some testUrl => ProviderMatch testUrl true
              | None => ProviderMatch url false
              end,
       t ++ map EHasProvider (take_through (hasProvider W) tests)).

(** ** Families of errors *)

Definition foreign (e : error) : Prop := exists je, e = Foreign je.

(** What a guarded fetch of [url] can throw. *)
Definition fetch_failure (url : string) (e : error) : Prop :=
  e = unknown_provider_outcome url \/ foreign e.

(** What bookmark extraction for [url] can throw. *)
Definition bookmark_failure (url : string) (e : error) : Prop :=
  e = unknown_provider_outcome url
  \/ e = ValidationError messages.insufficientMetadata url.

(** The options [fetchPage] hands to the guarded fetcher for
    [options]. *)
Definition fetchPage_config (options : request_config) : request_config :=
  options ∪ {[ "cookieJar" := VObj ∅;
               "method" := VStr "GET";
               "timeout" := VNum (2 * 1000);
               "followRedirect" := VBool true ]}.

(** The guard rejects the fetch of [url] with the options [cfg]: it
    rejects [url] itself, or the final URL of the response to the
    request. *)
Definition guard_rejects (W : World) (this : OEmbed)
    (url : string) (cfg : request_config) : Prop :=
  isIpOrLocalhost W this url = true
  \/ exists response,
       injectedRequest this url cfg = inr response
       /\ isIpOrLocalhost W this (resp_url response) = true.

(** The unknown-provider error for the oEmbed endpoint the page [html]
    links to, thrown because the guard rejects the JSON fetch of that
    endpoint. *)
Definition endpoint_rejected (W : World) (this : OEmbed)
    (html : string) (e : error) : Prop :=
  exists oembedUrl,
    cheerio_href W html = inr (Some oembedUrl)
    /\ guard_rejects W this oembedUrl (fetchPage_config {[ "json" := VBool true ]})
    /\ e = unknown_provider_outcome oembedUrl.

(** The error [knownProvider] makes of a failure of [extract]. *)
Definition extract_failure (W : World) (e : error) : Prop :=
  exists providerUrl je,
    extract W providerUrl = inl je
    /\ e = InternalServerError (err_message je) None.

(** The shape of a bookmark payload for [url]. *)
Definition bookmark_payload (url : string) (metadata : gmap string value) : value :=
  VObj {[ "version" := VStr "1.0";
          "type" := VStr "bookmark";
          "url" := VStr url;
          "metadata" := VObj metadata ]}.

(** ** Stages of a resolution *)

(** The resolution from the statement after the provider loop on,
    for the trimmed [url]. *)
Definition resolve_later (W : World) (this : OEmbed)
    (url : string) (type : option string) : M value :=
  settle (try_catch (later_stages W this url type) (on_error url)).

(** The last statements of the [try] block, from the call of
    [fetchOembedData] on. *)
Definition discover_or_bookmark (W : World) (this : OEmbed)
    (url body : string) (type : option string) : M (M value) :=
  data <- fetchOembedData W this url body None ;;
  data <-
    (if negb (truthy data) && negb (truthy (of_opt type))
     then fetchBookmarkData W url body
     else ret data) ;;
  if negb (truthy data) then ret (unknownProvider url)
  else ret (ret data).

(** The custom providers decline [url]: the loop runs from [t] to
    [t1] without a result. *)
Definition providers_decline (W : World) (this : OEmbed)
    (url : string) (t t1 : trace) : Prop :=
  exists urlObject,
    URL_parse W url = Some urlObject
    /\ for_customProviders W this (customProviders this) urlObject t
       = (Return None, t1).

(** The providers of the list, asked one after the other from trace
    [t] on, each decline [urlObject] by their own answers: a provider
    refuses the URL ([canSupportRequest] answers [false]) or accepts it
    and answers [null]; [t1] is the trace the last of them leaves. *)
Fixpoint decline_in_turn (W : World) (this : OEmbed)
    (providers : list CustomProvider) (urlObject : URL)
    (t t1 : trace) : Prop :=
  match providers with
  | [] => t1 = t
  | provider :: rest =>
      exists t',
        (canSupportRequest provider urlObject t = (Return false, t')
         \/ exists t0,
              canSupportRequest provider urlObject t = (Return true, t0)
              /\ getOEmbedData provider urlObject (externalRequest W this) t0
                 = (Return VNull, t'))
        /\ decline_in_turn W this rest urlObject t' t1
  end.

(** The resolution of [url] gets to the call of [fetchOembedData] with
    the page [page], at trace [t4]: the providers decline, the request
    is not for a bookmark, the directory knows neither the URL nor, after
    a redirect, the final URL, and the page fetch succeeds. *)
Definition reaches_discovery (W : World) (this : OEmbed)
    (url : string) (type : option string)
    (t : trace) (page : html_page) (t4 : trace) : Prop :=
  exists t1 t2 t3 known,
    providers_decline W this url t t1
    /\ is_bookmark type = false
    /\ findUrlWithProvider W (String_trim W url) t1 = (Return known, t2)
    /\ pm_provider known = false
    /\ fetchPageHtml W this (String_trim W url) t2 = (Return page, t3)
    /\ (if String.eqb (html_url page) (String_trim W url) then t4 = t3
        else exists redirected,
               findUrlWithProvider W (html_url page) t3 = (Return redirected, t4)
               /\ pm_provider redirected = false).

(** The errors a resolution of the trimmed [url] can end with once the
    providers have declined. *)
Definition resolution_failure (W : World) (this : OEmbed)
    (url : string) (e : error) : Prop :=
  e = unknown_provider_outcome url
  \/ e = ValidationError messages.insufficientMetadata url
  \/ (exists page t2 t3,
        fetchPageHtml W this url t2 = (Return page, t3)
        /\ endpoint_rejected W this (html_body page) e)
  \/ extract_failure W e.

Definition is_extract (ev : event) : bool :=
  match ev with EExtract _ => true | _ => false end.

(** An event of a bookmark request for [url]: no directory lookup, no
    extraction by a known provider, no link discovery, and scraping
    only with [url]. *)
Definition bookmark_event (url : string) (ev : event) : Prop :=
  is_lookup ev = false
  /\ is_extract ev = false
  /\ is_discovery ev = false
  /\ (forall html u, ev = EMetascraper html u -> u = url).

(** ** Incomplete oEmbed responses *)

(** A response body of type [photo] without a [url], or of type
    [video] or [rich] without one of [html], [width] and [height]. *)
Definition incomplete (o : gmap string value) : Prop :=
  (field o "type" = VStr "photo" /\ truthy (field o "url") = false)
  \/ ((field o "type" = VStr "video" \/ field o "type" = VStr "rich")
      /\ (truthy (field o "html") = false
          \/ truthy (field o "width") = false
          \/ truthy (field o "height") = false)).

(** ** The failure surface, as the specification words it *)

(** Every failure of a resolution reaches the caller as the
    unknown-provider error or as the insufficient-metadata error. *)
Definition failures_normalized (W : World) (this : OEmbed) : Prop :=
  forall url type t e t',
    fetchOembedDataFromUrl W this url type t = (Throw e, t') ->
    exists context,
      e = ValidationError messages.unknownProvider context
      \/ e = ValidationError messages.insufficientMetadata context.

(** Every [ValidationError] of a resolution has the requested URL, as
    given or trimmed, as its context. *)
Definition context_is_requested_url (W : World) (this : OEmbed) : Prop :=
  forall url type t m c t',
    fetchOembedDataFromUrl W this url type t = (Throw (ValidationError m c), t') ->
    c = url \/ c = String_trim W url.

(** The directory knows none of the variants of [url], or the request
    is for a bookmark and the directory is not asked. *)
Definition not_known (W : World) (url : string) (type : option string) : Prop :=
  is_bookmark type = true
  \/ List.find (hasProvider W) (variants (strip_scheme_www url)) = None.

(** The lookups a request makes before it fetches the page. *)
Definition first_lookups (url : string) (type : option string) : trace :=
  if is_bookmark type then []
  else map EHasProvider (variants (strip_scheme_www url)).

Definition catch_all_message : string := "Encountered error when fetching oembed".

(** ** Requests and results of a resolution *)

(** The options every fetch of the class carries. *)
Definition fetch_options (cfg : request_config) : Prop :=
  cfg !! "method" = Some (VStr "GET")
  /\ cfg !! "timeout" = Some (VNum 2000)
  /\ cfg !! "followRedirect" = Some (VBool true)
  /\ cfg !! "cookieJar" = Some (VObj ∅).

(** A request for the HTML of [url]. *)
Definition page_request (url : string) (ev : event) : Prop :=
  exists cfg,
    ev = ERequest url cfg
    /\ fetch_options cfg
    /\ cfg !! "encoding" = Some (VStr "binary")
    /\ cfg !! "responseType" = Some (VStr "buffer").

(** A request for the JSON of [url]. *)
Definition json_request (url : string) (ev : event) : Prop :=
  exists cfg,
    ev = ERequest url cfg
    /\ fetch_options cfg
    /\ cfg !! "json" = Some (VBool true).

(** An event of a resolution of [url] after the provider loop: a
    request is for the page at [url] or for an endpoint a page links
    to, carries the fixed options, and goes to an address the guard
    accepts. *)
Definition resolution_event (W : World) (this : OEmbed)
    (url : string) (ev : event) : Prop :=
  forall u cfg,
    ev = ERequest u cfg ->
    isIpOrLocalhost W this u = false
    /\ (page_request url ev
        \/ (json_request u ev
            /\ exists html, cheerio_href W html = inr (Some u))).

Definition oembed_types : list string := ["photo"; "video"; "link"; "rich"].

(** An oEmbed payload as the discoverer lets it out. *)
Definition well_formed_oembed (o : gmap string value) : Prop :=
  (forall k, is_Some (o !! k) -> k ∈ knownFields)
  /\ (exists ty, ty ∈ oembed_types /\ field o "type" = VStr ty)
  /\ truthy (field o "version") = true
  /\ (field o "type" = VStr "photo" -> truthy (field o "url") = true)
  /\ (field o "type" = VStr "video" \/ field o "type" = VStr "rich" ->
      truthy (field o "html") = true
      /\ truthy (field o "width") = true
      /\ truthy (field o "height") = true).

(** What a resolution of the trimmed [url] can return once the
    providers have declined. *)
Definition resolution_result (W : World) (url : string) (v : value) : Prop :=
  (exists metadata,
      v = bookmark_payload url metadata
      /\ truthy (field metadata "title") = true)
  \/ (exists o, v = VObj o /\ well_formed_oembed o)
  \/ (exists providerUrl, extract W providerUrl = inr v).

(** [body.k] when it does not throw. *)
Definition prop_of (body : value) (k : string) : value :=
  match body with
  | VObj o => field o k
  | _ => VUndefined
  end.

(** The outcome of [knownProvider] for [providerUrl]. *)
Definition known_provider_outcome (W : World) (providerUrl : string)
  : outcome value :=
  match extract W providerUrl with
  | inr v => Return v
  | inl je => Throw (InternalServerError (err_message je) None)
  end.

(** The lookups of [findUrlWithProvider] for [url]. *)
Definition lookups (W : World) (url : string) : trace :=
  map EHasProvider
    (take_through (hasProvider W) (variants (strip_scheme_www url))).

(** ** The in-memory milestone repository *)
Module InMemoryMilestoneRepository.

(** The fields of a [Milestone] the repository reads.  [id] is the
    object id, given by the hexadecimal string that [toHexString()]
    returns and [equals()] compares; [value] is an integer; a date is
    its [valueOf()], an integer too; [None] is [null]. *)
Record Milestone : Type := MkMilestone {
  id : string;
  type : string;
  value : Z;
  currency : option string;
  createdAt : Z;
  emailSentAt : option Z
}.

(** The private fields [#store] and [#ids]. *)
Record repository : Type := MkRepository {
  store : list Milestone;
  ids : gset string
}.

(** A new instance. *)
Definition empty : repository := {| store := []; ids := ∅ |}.

(** [l.findIndex(p)]: the index of the first element that satisfies
    [p], or [-1]. *)
Fixpoint findIndex_from {A} (p : A -> bool) (l : list A) (i : Z) : Z :=
  match l with
  | [] => (-1)%Z
  | x :: l' => if p x then i else findIndex_from p l' (i + 1)%Z
  end.
Definition findIndex {A} (p : A -> bool) (l : list A) : Z :=
  findIndex_from p l 0%Z.

(** [l.splice(start, deleteCount, item)], as the array it leaves. *)
Definition splice {A} (start deleteCount : Z) (item : A) (l : list A) : list A :=
  let len := Z.of_nat (length l) in
  let actualStart :=
    if (start <? 0)%Z then Z.max (len + start) 0 else Z.min start len in
  let actualDeleteCount := Z.min (Z.max deleteCount 0) (len - actualStart) in
  take (Z.to_nat actualStart) l
    ++ item :: drop (Z.to_nat (actualStart + actualDeleteCount)) l.

Definition save (this : repository) (milestone : Milestone) : repository :=
  if decide (id milestone ∈ ids this) then
    let existingIndex :=
      findIndex (fun item => String.eqb (id item) (id milestone)) (store this) in
    {| store := splice existingIndex 1 milestone (store this);
       ids := ids this |}
  else
    {| store := store this ++ [milestone];
       ids := {[ id milestone ]} ∪ ids this |}.

(** [l.sort((a, b) => key(b) - key(a))]: the stable sort, largest key
    first. *)
Fixpoint insert_desc (key : Milestone -> Z) (x : Milestone)
    (sorted : list Milestone) : list Milestone :=
  match sorted with
  | [] => [x]
  | y :: rest =>
      if (key x <? key y)%Z then y :: insert_desc key x rest
      else x :: y :: rest
  end.
Definition sort_desc (key : Milestone -> Z) (l : list Milestone)
  : list Milestone :=
  foldr (insert_desc key) [] l.

(** [emailSentAt.valueOf()] of an item that has the date. *)
Definition sentAt (item : Milestone) : Z := default 0%Z (emailSentAt item).

(** The filter of [getLatestByType]: for [arr] the currency counts
    too. *)
Definition of_type (type_ : string) (currency_ : option string)
    (item : Milestone) : bool :=
  if String.eqb type_ "arr" then
    String.eqb (type item) type_ && bool_decide (currency item = currency_)
  else String.eqb (type item) type_.

(** The [currency] argument is [None] when it is left out. *)
Definition getLatestByType (this : repository) (type_ : string)
    (currency_ : option (option string)) : option Milestone :=
  let currency_ := default (Some "usd") currency_ in
  if String.eqb type_ "arr" then
    head (sort_desc value (sort_desc createdAt
      (List.filter
         (fun item => String.eqb (type item) type_
                      && bool_decide (currency item = currency_))
         (store this))))
  else
    head (sort_desc value (sort_desc createdAt
      (List.filter (fun item => String.eqb (type item) type_) (store this)))).

Definition getLastEmailSent (this : repository) : option Milestone :=
  head (sort_desc value (sort_desc sentAt
    (List.filter (fun item => bool_decide (is_Some (emailSentAt item)))
       (store this)))).

Definition getByARR (this : repository) (value_ : Z)
    (currency_ : option (option string)) : option Milestone :=
  let currency_ := default (Some "usd") currency_ in
  List.find
    (fun item => (value item =? value_)%Z
                 && String.eqb (type item) "arr"
                 && bool_decide (currency item = currency_))
    (store this).

Definition getByCount (this : repository) (value_ : Z) : option Milestone :=
  List.find
    (fun item => (value item =? value_)%Z && String.eqb (type item) "members")
    (store this).

(** The two private fields agree: the keys of [#ids] are the ids of
    the stored milestones, and no two stored milestones share an id. *)
Definition consistent (this : repository) : Prop :=
  ids this = list_to_set (id <$> store this)
  /\ NoDup (id <$> store this).

End InMemoryMilestoneRepository.

(** ** More concrete cases

    The site of [Demo] with a few more pages: one that links to a
    WordPress oEmbed endpoint, one whose endpoint answers with a
    complete video payload, a short link that redirects to a video the
    directory knows, a page in an encoding the decoder does not know,
    and one the scraper fails on. *)
Module Cases.

Definition page_wordpress : string :=
  "<html><head><link type='application/json+oembed' href='https://wp.example.net/wp-json/oembed/1.0/embed?url=post'></head></html>".
Definition page_clip : string :=
  "<html><head><link type='application/json+oembed' href='https://clips.example.net/oembed?id=1'></head></html>".
Definition page_legacy : string :=
  "<html><head><meta charset='x-legacy'><title>Legacy</title></head></html>".
Definition page_unscrapable : string := "<html><head><title>".
Definition page_feed : string :=
  "<html><head><link type='application/json+oembed' href='https://example.com/feed.json'></head></html>".
Definition page_empty : string :=
  "<html><head><link type='application/json+oembed' href='https://example.com/empty.json'></head></html>".

(** A JSON document that is not an oEmbed payload. *)
Definition feed : value :=
  VObj {[ "type" := VStr "rich"; "title" := VStr "Feed";
          "html" := VStr "<script src='https://example.com/feed.js'></script>" ]}.

Definition clip : value :=
  VObj {[ "type" := VStr "video"; "version" := VStr "1.0";
          "html" := VStr "<iframe src='https://clips.example.net/embed/1'></iframe>";
          "width" := VNum 480; "height" := VNum 270;
          "cache_age" := VNum 3600 ]}.

Definition request (url : string) (cfg : request_config) : js_error + response :=
  if String.eqb url "https://wp.example.net/post" then
    Demo.ok url (VBuf page_wordpress)
  else if String.eqb url "https://clips.example.net/1" then
    Demo.ok url (VBuf page_clip)
  else if String.eqb url "https://clips.example.net/oembed?id=1" then
    Demo.ok url clip
  else if String.eqb url "https://short.example.net/y1" then
    Demo.ok "https://www.youtube.com/watch?v=1" (VBuf Demo.page_plain)
  else if String.eqb url "https://legacy.example.net/" then
    Demo.ok url (VBuf page_legacy)
  else if String.eqb url "https://example.com/feed" then
    Demo.ok url (VBuf page_feed)
  else if String.eqb url "https://example.com/feed.json" then
    Demo.ok url feed
  else if String.eqb url "https://example.com/empty" then
    Demo.ok url (VBuf page_empty)
  else if String.eqb url "https://example.com/empty.json" then
    Demo.ok url VNull
  else Demo.request url cfg.

Definition links (html : string) : js_error + option string :=
  if String.eqb html page_wordpress then
    inr (Some "https://wp.example.net/wp-json/oembed/1.0/embed?url=post")
  else if String.eqb html page_clip then
    inr (Some "https://clips.example.net/oembed?id=1")
  else if String.eqb html page_feed then
    inr (Some "https://example.com/feed.json")
  else if String.eqb html page_empty then
    inr (Some "https://example.com/empty.json")
  else Demo.links html.

Definition scrape (html url : string) : js_error + gmap string value :=
  if String.eqb html page_unscrapable then
    inl (JsError "Error" "Parse error")
  else Demo.scrape html url.

Definition detect (headers body : value) : js_error + option string :=
  match body with
  | VBuf b => if String.eqb b page_legacy then inr (Some "x-legacy") else inr None
  | _ => inr None
  end.

Definition decode (body : value) (encoding : string) : js_error + string :=
  if String.eqb encoding "x-legacy" then
    inl (JsError "Error" "Encoding not recognized: 'x-legacy'")
  else Demo.to_string body.

Definition world : World :=
  {| URL_parse := Demo.parse;
     String_trim := Demo.trim;
     hasProvider := Demo.directory;
     extract := Demo.extractor;
     cheerio_href := links;
     metascraper := scrape;
     charset := detect;
     iconv_decode := decode;
     toString := Demo.to_string |}.

Definition site : OEmbed :=
  {| config_get := Demo.settings "https://blog.example.org/";
     injectedRequest := request;
     customProviders := [] |}.

(** A provider that fails while it builds its answer. *)
Definition broken_provider : CustomProvider :=
  {| canSupportRequest := fun u => ret (String.eqb (hostname u) "example.com");
     getOEmbedData := fun _ _ =>
       throw (Foreign (JsError "TypeError"
         "Cannot read properties of undefined (reading 'html')")) |}.

(** A provider that accepts every URL and has no answer for it. *)
Definition silent_provider : CustomProvider :=
  {| canSupportRequest := fun _ => ret true;
     getOEmbedData := fun _ _ => ret VNull |}.

(** The providers of a site, in the order they are registered. *)
Definition registered : list CustomProvider :=
  [Demo.refusing_provider; silent_provider; Demo.fixed_provider;
   broken_provider].

(** The site after registering three providers, in this order. *)
Definition site_with_broken : OEmbed :=
  registerProvider
    (registerProvider (registerProvider site Demo.refusing_provider)
       broken_provider)
    Demo.fixed_provider.

(** The options of a page fetch, as [fetchPage] builds them. *)
Definition page_options : request_config :=
  {[ "encoding" := VStr "binary"; "responseType" := VStr "buffer" ]}
  ∪ {[ "cookieJar" := VObj ∅;
       "method" := VStr "GET";
       "timeout" := VNum (2 * 1000);
       "followRedirect" := VBool true ]}.

(** The options of a JSON fetch. *)
Definition json_options : request_config :=
  {[ "json" := VBool true ]}
  ∪ {[ "cookieJar" := VObj ∅;
       "method" := VStr "GET";
       "timeout" := VNum (2 * 1000);
       "followRedirect" := VBool true ]}.

End Cases.

(** ** Milestones of a concrete site *)
Module MilestoneCases.
Import InMemoryMilestoneRepository.

Definition hundred_members : Milestone :=
  {| id := "64b7f1a2c3d4e5f60718293a"; type := "members"; value := 100;
     currency := None; createdAt := 1689768000000;
     emailSentAt := None |}.

(** The same milestone after its email went out. *)
Definition hundred_members_sent : Milestone :=
  {| id := "64b7f1a2c3d4e5f60718293a"; type := "members"; value := 100;
     currency := None; createdAt := 1689768000000;
     emailSentAt := Some 1689768060000%Z |}.

Definition thousand_usd : Milestone :=
  {| id := "64b7f1a2c3d4e5f60718293b"; type := "arr"; value := 1000;
     currency := Some "usd"; createdAt := 1689854400000;
     emailSentAt := None |}.

Definition thousand_eur : Milestone :=
  {| id := "64b7f1a2c3d4e5f60718293c"; type := "arr"; value := 1000;
     currency := Some "eur"; createdAt := 1689940800000;
     emailSentAt := None |}.

Definition saved : repository :=
  foldl save empty [hundred_members; thousand_usd].

End MilestoneCases.

(** * Properties *)

(** ** The effect monad *)
Section Effects.
Context {A B : Type}.
Implicit Types (Q : event -> Prop) (E : error -> Prop).

Lemma triple_ret (a : A) Q (P : A -> Prop) E :
  P a -> triple (ret a) Q P E.
Proof. intros Ha t. exists []. rewrite app_nil_r. by repeat split. Qed.

Lemma triple_throw (e : error) Q (P : A -> Prop) E :
  E e -> triple (throw e) Q P E.
Proof. intros He t. exists []. rewrite app_nil_r. by repeat split. Qed.

Lemma triple_call (r : js_error + A) Q (P : A -> Prop) E :
  (forall a, r = inr a -> P a) ->
  (forall e, r = inl e -> E (Foreign e)) ->
  triple (call r) Q P E.
Proof.
  intros Hok Herr. destruct r as [e|a]; simpl.
  - apply triple_throw; auto.
  - apply triple_ret; auto.
Qed.

Lemma triple_bind (m : M A) (k : A -> M B) Q (P1 : A -> Prop)
    (P : B -> Prop) E :
  triple m Q P1 E ->
  (forall a, P1 a -> triple (k a) Q P E) ->
  triple (bind m k) Q P E.
Proof.
  intros Hm Hk t. destruct (Hm t) as (evs & Ht & HQ & Hr).
  unfold bind. destruct (m t) as [[a|e] t1]; simpl in *; subst t1.
  - destruct (Hk a Hr (t ++ evs)) as (evs' & Ht' & HQ' & Hr').
    exists (evs ++ evs'). rewrite Ht', app_assoc.
    split; [done|]. split; [by apply Forall_app|done].
  - by exists evs.
Qed.

Lemma triple_try_catch (m : M A) (h : error -> M A) Q
    (P : A -> Prop) (E1 E : error -> Prop) :
  triple m Q P E1 ->
  (forall e, E1 e -> triple (h e) Q P E) ->
  triple (try_catch m h) Q P E.
Proof.
  intros Hm Hh t. destruct (Hm t) as (evs & Ht & HQ & Hr).
  unfold try_catch. destruct (m t) as [[a|e] t1]; simpl in *; subst t1.
  - by exists evs.
  - destruct (Hh e Hr (t ++ evs)) as (evs' & Ht' & HQ' & Hr').
    exists (evs ++ evs'). rewrite Ht', app_assoc.
    split; [done|]. split; [by apply Forall_app|done].
Qed.

Lemma triple_weaken (m : M A) (Q Q' : event -> Prop)
    (P P' : A -> Prop) (E E' : error -> Prop) :
  triple m Q P E ->
  (forall ev, Q ev -> Q' ev) ->
  (forall a, P a -> P' a) ->
  (forall e, E e -> E' e) ->
  triple m Q' P' E'.
Proof.
  intros Hm HQ HP HE t. destruct (Hm t) as (evs & Ht & HQs & Hr).
  exists evs. split; [done|]. split.
  - eapply Forall_impl; eauto.
  - destruct (m t).1; auto.
Qed.
End Effects.

Lemma triple_emit (ev : event) (Q : event -> Prop) (P : unit -> Prop)
    (E : error -> Prop) :
  Q ev -> P tt -> triple (emit ev) Q P E.
Proof. intros Hev Hp t. exists [ev]. repeat split; auto. Qed.

Lemma triple_settle {A} (m : M (M A)) (Q : event -> Prop)
    (P : A -> Prop) (E : error -> Prop) :
  triple m Q (fun p => triple p Q P E) E ->
  triple (settle m) Q P E.
Proof. intros Hm. unfold settle. eapply triple_bind; eauto. Qed.

(** What a triple says about one run. *)
Lemma triple_run {A} (m : M A) Q (P : A -> Prop) E t r t' :
  triple m Q P E -> m t = (r, t') ->
  exists evs, t' = t ++ evs /\ Forall Q evs /\
    match r with Return a => P a | Throw e => E e end.
Proof. intros Hm Hrun. specialize (Hm t). by rewrite Hrun in Hm. Qed.

(** A triple together with what one knows of the runs that throw, or
    that return. *)
Lemma triple_and_throw {A} (m : M A) Q (P : A -> Prop) (E E' : error -> Prop) :
  triple m Q P E ->
  (forall t e t', m t = (Throw e, t') -> E' e) ->
  triple m Q P (fun e => E e /\ E' e).
Proof.
  intros Hm Hthrow t. destruct (Hm t) as (evs & Ht & HQ & Hr).
  exists evs. split; [done|]. split; [done|].
  destruct (m t) as [[a|e] t'] eqn:Hrun; simpl in *; [done|].
  split; [done|]. by eapply Hthrow.
Qed.

Lemma triple_and_returned {A} (m : M A) Q (P P' : A -> Prop) E :
  triple m Q P E ->
  (forall t a t', m t = (Return a, t') -> P' a) ->
  triple m Q (fun a => P a /\ P' a) E.
Proof.
  intros Hm Hret t. destruct (Hm t) as (evs & Ht & HQ & Hr).
  exists evs. split; [done|]. split; [done|].
  destruct (m t) as [[a|e] t'] eqn:Hrun; simpl in *; [|done].
  split; [done|]. by eapply Hret.
Qed.

(** Running [bind] and [try_catch] through a known step. *)
Lemma bind_return {A B} (m : M A) (k : A -> M B) t a t' :
  m t = (Return a, t') -> bind m k t = k a t'.
Proof. intros H. unfold bind. by rewrite H. Qed.

Lemma bind_throw {A B} (m : M A) (k : A -> M B) t e t' :
  m t = (Throw e, t') -> bind m k t = (Throw e, t').
Proof. intros H. unfold bind. by rewrite H. Qed.

Lemma try_catch_return {A} (m : M A) (h : error -> M A) t a t' :
  m t = (Return a, t') -> try_catch m h t = (Return a, t').
Proof. intros H. unfold try_catch. by rewrite H. Qed.

Lemma try_catch_throw {A} (m : M A) (h : error -> M A) t e t' :
  m t = (Throw e, t') -> try_catch m h t = h e t'.
Proof. intros H. unfold try_catch. by rewrite H. Qed.

(** ** Regular expressions *)
Section RegexSemantics.
Variable ci : bool.
Implicit Types (r : regex) (st x : pos).

Lemma in_rmatch_Eps st x : In x (rmatch ci Eps st) <-> x = st.
Proof. simpl. split; [by intros [->|[]]|by left]. Qed.

Lemma in_rmatch_Bol st x : In x (rmatch ci Bol st) <-> st.1 = 0 /\ x = st.
Proof.
  simpl. destruct (Nat.eqb_spec st.1 0) as [H0|H0]; simpl.
  - split; [by intros [->|[]]|]. intros [_ ->]. by left.
  - split; [done|]. by intros [? _].
Qed.

Lemma in_rmatch_Eol st x : In x (rmatch ci Eol st) <-> st.2 = [] /\ x = st.
Proof.
  simpl. destruct st.2; simpl.
  - split; [by intros [->|[]]|]. intros [_ ->]. by left.
  - split; [done|]. by intros [? _].
Qed.

Lemma in_rmatch_Chr c st x :
  In x (rmatch ci (Chr c) st)
  <-> exists a, st.2 = a :: x.2 /\ chr_eq ci c a = true /\ x.1 = S st.1.
Proof.
  simpl. destruct st.2 as [|a rest]; simpl.
  - split; [done|]. by intros (a & ? & _).
  - destruct (chr_eq ci c a) eqn:Hc; simpl.
    + split.
      * intros [<-|[]]. by exists a.
      * intros (a' & [= <- ->] & _ & Hi). left. destruct x; simpl in *. by subst.
    + split; [done|]. intros (a' & [= <- _] & Hc' & _). congruence.
Qed.

Lemma in_rmatch_Range lo hi st x :
  In x (rmatch ci (Range lo hi) st)
  <-> exists a, st.2 = a :: x.2 /\ in_range lo hi a = true /\ x.1 = S st.1.
Proof.
  simpl. destruct st.2 as [|a rest]; simpl.
  - split; [done|]. by intros (a & ? & _).
  - destruct (in_range lo hi a) eqn:Hc; simpl.
    + split.
      * intros [<-|[]]. by exists a.
      * intros (a' & [= <- ->] & _ & Hi). left. destruct x; simpl in *. by subst.
    + split; [done|]. intros (a' & [= <- _] & Hc' & _). congruence.
Qed.

Lemma in_rmatch_Seq r1 r2 st x :
  In x (rmatch ci (Seq r1 r2) st)
  <-> exists mid, In mid (rmatch ci r1 st) /\ In x (rmatch ci r2 mid).
Proof.
  cbn [rmatch]. rewrite in_concat. split.
  - intros (l & Hl & Hx). apply in_map_iff in Hl as (mid & <- & Hmid). eauto.
  - intros (mid & Hmid & Hx). exists (rmatch ci r2 mid). split; [|done].
    apply in_map_iff. eauto.
Qed.

Lemma in_rmatch_Alt r1 r2 st x :
  In x (rmatch ci (Alt r1 r2) st)
  <-> In x (rmatch ci r1 st) \/ In x (rmatch ci r2 st).
Proof. cbn [rmatch]. apply in_app_iff. Qed.

Lemma in_rmatch_Opt r st x :
  In x (rmatch ci (Opt r) st) <-> In x (rmatch ci r st) \/ x = st.
Proof.
  cbn [rmatch]. rewrite in_app_iff. simpl. split.
  - intros [H|[H|[]]]; auto.
  - intros [H| ->]; auto.
Qed.

Lemma in_rmatch_Times_0 r st x : In x (rmatch ci (Times 0 r) st) <-> x = st.
Proof. simpl. split; [by intros [->|[]]|by left]. Qed.

Lemma in_rmatch_Times_S n r st x :
  In x (rmatch ci (Times (S n) r) st)
  <-> exists mid, In mid (rmatch ci (Times n r) st) /\ In x (rmatch ci r mid).
Proof.
  cbn [rmatch Nat.iter nat_rect]. rewrite in_concat. split.
  - intros (l & Hl & Hx). apply in_map_iff in Hl as (mid & <- & Hmid). eauto.
  - intros (mid & Hmid & Hx). exists (rmatch ci r mid). split; [|done].
    apply in_map_iff. eauto.
Qed.

(** A regular expression that only matches at the start of the input
    is tried once. *)
Lemma exec_from_anchored r (s : list ascii) :
  (forall i s', rmatch ci r (S i, s') = []) ->
  exec_from ci r 0 s
  = match rmatch ci r (0, s) with
    | (_, after) :: _ => Some ([], after)
    | [] => None
    end.
Proof.
  intros Hlater.
  assert (Hnone : forall s' i, exec_from ci r (S i) s' = None).
  { induction s' as [|c s' IH]; intros i; simpl; rewrite Hlater; [done|].
    by rewrite IH. }
  destruct s as [|c s]; [done|]. cbn [exec_from]. by rewrite Hnone.
Qed.

Lemma test_anchored r (s : string) :
  (forall i s', rmatch ci r (S i, s') = []) ->
  test ci r s = true
  <-> exists x, In x (rmatch ci r (0, list_ascii_of_string s)).
Proof.
  intros Hlater. unfold test, exec. rewrite (exec_from_anchored _ _ Hlater).
  destruct (rmatch ci r (0, list_ascii_of_string s)) as [|[j after] l].
  - split; [done|]. by intros (x & []).
  - split; [|done]. intros _. exists (j, after). by left.
Qed.
End RegexSemantics.

Lemma in_range_nat (lo hi a : ascii) :
  in_range lo hi a = true
  <-> (nat_of_ascii lo <= nat_of_ascii a <= nat_of_ascii hi)%nat.
Proof. unfold in_range. by rewrite andb_true_iff, !Nat.leb_le. Qed.

Lemma chr_eq_exact (c a : ascii) : chr_eq false c a = true <-> a = c.
Proof. unfold chr_eq. rewrite Ascii.eqb_eq. by split. Qed.

Ltac rx_unpack :=
  repeat match goal with
    | H : In _ (rmatch _ (Times 0 _) _) |- _ => apply in_rmatch_Times_0 in H
    | H : In _ (rmatch _ (Times (S _) _) _) |- _ =>
        apply in_rmatch_Times_S in H; destruct H as (? & ? & ?)
    | H : In _ (rmatch _ (lit _) _) |- _ => cbn [lit] in H
    | H : In _ (rmatch _ (Seq _ _) _) |- _ =>
        apply in_rmatch_Seq in H; destruct H as (? & ? & ?)
    | H : In _ (rmatch _ (Alt _ _) _) |- _ =>
        apply in_rmatch_Alt in H; destruct H as [?|?]
    | H : In _ (rmatch _ (Opt _) _) |- _ =>
        apply in_rmatch_Opt in H; destruct H as [?|?]
    | H : In _ (rmatch _ Eps _) |- _ => apply in_rmatch_Eps in H
    | H : In _ (rmatch _ Bol _) |- _ =>
        apply in_rmatch_Bol in H; destruct H as (? & ?)
    | H : In _ (rmatch _ Eol _) |- _ =>
        apply in_rmatch_Eol in H; destruct H as (? & ?)
    | H : In _ (rmatch _ (Chr _) _) |- _ =>
        apply in_rmatch_Chr in H; destruct H as (? & ? & ? & ?)
    | H : In _ (rmatch _ (Range _ _) _) |- _ =>
        apply in_rmatch_Range in H; destruct H as (? & ? & ? & ?)
    end.

Ltac rx_facts :=
  repeat match goal with
    | x : pos |- _ => destruct x
    end;
  cbn [fst snd] in *; simplify_eq;
  repeat match goal with
    | H : in_range _ _ _ = true |- _ => apply in_range_nat in H
    | H : chr_eq false _ _ = true |- _ => apply chr_eq_exact in H
    end;
  simplify_eq.

Ltac ascii_codes :=
  change (nat_of_ascii "0") with 48%nat in *;
  change (nat_of_ascii "1") with 49%nat in *;
  change (nat_of_ascii "2") with 50%nat in *;
  change (nat_of_ascii "4") with 52%nat in *;
  change (nat_of_ascii "5") with 53%nat in *;
  change (nat_of_ascii "9") with 57%nat in *.

Ltac octet_holds :=
  unfold octet, decimal_value, is_digit; cbn [length fold_left];
  ascii_codes;
  split; [lia|]; split;
  [repeat (apply Forall_cons_2; [cbv beta; ascii_codes; lia|]); apply Forall_nil_2
  |lia].

Lemma code_inj (a c : ascii) : nat_of_ascii a = nat_of_ascii c -> a = c.
Proof.
  intros H. rewrite <- (ascii_nat_embedding a), <- (ascii_nat_embedding c).
  by rewrite H.
Qed.

Ltac step_range a :=
  apply in_rmatch_Range; exists a; cbn [fst snd];
  split; [reflexivity|]; split; [apply in_range_nat; ascii_codes; lia|reflexivity].

Ltac step_chr :=
  apply in_rmatch_Chr; eexists; cbn [fst snd];
  split; [reflexivity|]; split; [reflexivity|reflexivity].

Lemma in_rmatch_OCTET (st x : pos) :
  In x (rmatch false OCTET st)
  <-> exists o, st.2 = o ++ x.2 /\ octet o /\ x.1 = (st.1 + length o)%nat.
Proof.
  split.
  - intros H. unfold OCTET in H. rx_unpack; rx_facts.
    all: match goal with
         | |- exists o, ?a :: ?b :: ?c :: ?r = o ++ ?r /\ _ => exists [a; b; c]
         | |- exists o, ?a :: ?b :: ?r = o ++ ?r /\ _ => exists [a; b]
         | |- exists o, ?a :: ?r = o ++ ?r /\ _ => exists [a]
         end.
    all: split; [reflexivity|]; split; [octet_holds|cbn [length]; lia].
  - intros (o & Hs & Ho & Hi). destruct st as [i s], x as [j r].
    cbn [fst snd] in *. subst s j.
    destruct Ho as ((Hlen1 & Hlen3) & Hdigits & Hvalue).
    destruct o as [|a [|b [|c [|d o]]]]; cbn [length] in *; try lia.
    all: repeat match goal with
           | H : Forall _ (_ :: _) |- _ =>
               apply Forall_cons in H; destruct H as [? H]
           end.
    all: unfold is_digit, decimal_value in *; cbn [fold_left app] in *.
    + replace (i + 1)%nat with (S i) by lia.
      apply in_rmatch_Alt; right. apply in_rmatch_Alt; right.
      apply in_rmatch_Seq. exists (i, a :: r). split; [by (apply in_rmatch_Opt; right)|].
      apply in_rmatch_Seq. exists (S i, r). split; [by step_range a|].
      apply in_rmatch_Opt. by right.
    + replace (i + 2)%nat with (S (S i)) by lia.
      apply in_rmatch_Alt; right. apply in_rmatch_Alt; right.
      apply in_rmatch_Seq. exists (i, a :: b :: r). split; [by (apply in_rmatch_Opt; right)|].
      apply in_rmatch_Seq. exists (S i, b :: r). split; [by step_range a|].
      apply in_rmatch_Opt. left. by step_range b.
    + replace (i + 3)%nat with (S (S (S i))) by lia.
      assert (Hcases : (nat_of_ascii a <= 49)
                       \/ (nat_of_ascii a = 50 /\ nat_of_ascii b <= 52)
                       \/ (nat_of_ascii a = 50 /\ nat_of_ascii b = 53
                           /\ nat_of_ascii c <= 53)) by lia.
      destruct Hcases as [Ha|[[Ha Hb]|(Ha & Hb & Hc)]].
      * apply in_rmatch_Alt; right. apply in_rmatch_Alt; right.
        apply in_rmatch_Seq. exists (S i, b :: c :: r).
        split; [by (apply in_rmatch_Opt; left; step_range a)|].
        apply in_rmatch_Seq. exists (S (S i), c :: r). split; [by step_range b|].
        apply in_rmatch_Opt. left. by step_range c.
      * assert (a = "2"%char) as -> by (by apply code_inj).
        apply in_rmatch_Alt; right. apply in_rmatch_Alt; left.
        apply in_rmatch_Seq. exists (S i, b :: c :: r). split; [by step_chr|].
        apply in_rmatch_Seq. exists (S (S i), c :: r). split; [by step_range b|].
        by step_range c.
      * assert (a = "2"%char) as -> by (by apply code_inj).
        assert (b = "5"%char) as -> by (by apply code_inj).
        apply in_rmatch_Alt; left.
        apply in_rmatch_Seq. exists (S (S i), c :: r). split.
        { cbn [lit]. apply in_rmatch_Seq. exists (S i, "5"%char :: c :: r).
          split; [by step_chr|].
          apply in_rmatch_Seq. exists (S (S i), c :: r). split; [by step_chr|].
          by apply in_rmatch_Eps. }
        by step_range c.
Qed.

(** The dotted-quad expression accepts exactly the dotted quads. *)
Lemma IPV4_REGEX_dotted_quad (h : string) :
  test false IPV4_REGEX h = true <-> dotted_quad h.
Proof.
  rewrite test_anchored by reflexivity. unfold dotted_quad.
  generalize (list_ascii_of_string h). intros cs. split.
  - intros (x & Hx). unfold IPV4_REGEX in Hx. rx_unpack.
    repeat match goal with
           | H : In _ (rmatch false OCTET _) |- _ =>
               apply in_rmatch_OCTET in H; destruct H as (? & ? & ? & ?)
           end.
    rx_facts.
    match goal with
    | H1 : octet ?o1, H2 : octet ?o2, H3 : octet ?o3, H4 : octet ?o4
      |- exists _ _ _ _, ?a1 ++ _ :: ?a2 ++ _ :: ?a3 ++ _ :: ?a4 ++ [] = _ /\ _ =>
        exists a1, a2, a3, a4
    end.
    rewrite app_nil_r. by split_and!.
  - intros (o1 & o2 & o3 & o4 & -> & H1 & H2 & H3 & H4).
    set (n1 := length o1). set (n2 := S (n1 + length o2)).
    set (n3 := S (n2 + length o3)).
    exists ((S n3 + length o4)%nat, []). unfold IPV4_REGEX.
    apply in_rmatch_Seq. exists (0, o1 ++ "."%char :: o2 ++ "."%char :: o3 ++ "."%char :: o4).
    split; [by apply in_rmatch_Bol|].
    apply in_rmatch_Seq. exists (S n3, o4). split.
    + apply in_rmatch_Times_S. exists (S n2, o3 ++ "."%char :: o4). split.
      * apply in_rmatch_Times_S. exists (S n1, o2 ++ "."%char :: o3 ++ "."%char :: o4). split.
        -- apply in_rmatch_Times_S.
           exists (0, o1 ++ "."%char :: o2 ++ "."%char :: o3 ++ "."%char :: o4).
           split; [by apply in_rmatch_Times_0|].
           apply in_rmatch_Seq.
           exists (n1, "."%char :: o2 ++ "."%char :: o3 ++ "."%char :: o4).
           split; [apply in_rmatch_OCTET; by exists o1|by step_chr].
        -- apply in_rmatch_Seq. exists (S n1 + length o2, "."%char :: o3 ++ "."%char :: o4)%nat.
           split; [apply in_rmatch_OCTET; by exists o2|by step_chr].
      * apply in_rmatch_Seq. exists (S n2 + length o3, "."%char :: o4)%nat.
        split; [apply in_rmatch_OCTET; by exists o3|by step_chr].
    + apply in_rmatch_Seq. exists ((S n3 + length o4)%nat, []).
      split; [|by apply in_rmatch_Eol].
      apply in_rmatch_OCTET. exists o4. cbn [fst snd]. by rewrite app_nil_r.
Qed.

Lemma in_rmatch_lit_ci (p : string) (st x : pos) :
  In x (rmatch true (lit p) st)
  <-> exists rest,
        strip_prefix_ci p st.2 = Some rest
        /\ x = ((st.1 + String.length p)%nat, rest).
Proof.
  revert st. induction p as [|c p IH]; intros [i s]; cbn [lit fst snd].
  - rewrite in_rmatch_Eps. cbn [strip_prefix_ci String.length].
    rewrite Nat.add_0_r. split.
    + intros ->. by exists s.
    + by intros (rest & [= <-] & ->).
  - rewrite in_rmatch_Seq. cbn [strip_prefix_ci String.length]. split.
    + intros ([j r] & Hc & Hx). apply in_rmatch_Chr in Hc as (a & Hs & Ha & Hj).
      cbn [fst snd] in *. subst s j. rewrite Ha.
      apply IH in Hx as (rest & Hrest & ->). exists rest. split; [done|].
      cbn [fst snd]. f_equal. lia.
    + intros (rest & Hrest & ->). destruct s as [|a s]; [done|].
      destruct (chr_eq true c a) eqn:Ha; [|done].
      exists (S i, s). split.
      * apply in_rmatch_Chr. by exists a.
      * apply IH. exists rest. split; [done|]. cbn [fst snd]. f_equal. lia.
Qed.

Lemma strip_prefix_ci_app (p q : string) (s : list ascii) :
  strip_prefix_ci (p +:+ q) s = strip_prefix_ci p s ≫= strip_prefix_ci q.
Proof.
  revert s. induction p as [|c p IH]; intros s; [done|].
  change (String c p +:+ q) with (String c (p +:+ q)).
  cbn [strip_prefix_ci]. destruct s as [|a s]; [done|].
  destruct (chr_eq true c a); [apply IH|done].
Qed.

(** The scheme expression accepts exactly the http and https protocols. *)
Lemma HTTP_REGEX_scheme (p : string) :
  test true HTTP_REGEX p = true <-> http_scheme p.
Proof.
  rewrite test_anchored by reflexivity. unfold http_scheme.
  generalize (list_ascii_of_string p). intros cs.
  change "http:" with ("http" +:+ ":").
  change "https:" with ("http" +:+ "s" +:+ ":").
  rewrite !strip_prefix_ci_app. split.
  - intros (x & Hx). unfold HTTP_REGEX in Hx.
    apply in_rmatch_Seq in Hx as (m0 & H0 & Hx).
    apply in_rmatch_Bol in H0 as (_ & ->).
    apply in_rmatch_Seq in Hx as (m1 & H1 & Hx).
    apply in_rmatch_lit_ci in H1 as (r1 & Hr1 & ->).
    apply in_rmatch_Seq in Hx as (m2 & H2 & Hx).
    apply in_rmatch_lit_ci in Hx as (r3 & Hr3 & ->).
    cbn [fst snd] in *. rewrite Hr1. cbn [mbind option_bind].
    rewrite strip_prefix_ci_app.
    apply in_rmatch_Opt in H2 as [H2| ->].
    + apply in_rmatch_lit_ci in H2 as (r2 & Hr2 & ->). cbn [fst snd] in *.
      right. rewrite Hr2. cbn [mbind option_bind]. by rewrite Hr3.
    + left. cbn [snd] in Hr3. by rewrite Hr3.
  - intros Hscheme.
    destruct (strip_prefix_ci "http" cs) as [r1|] eqn:Hr1;
      [|by destruct Hscheme as [[? H]|[? H]]].
    cbn [mbind option_bind] in Hscheme.
    rewrite strip_prefix_ci_app in Hscheme.
    assert (Hm1 : In ((0 + 4)%nat, r1) (rmatch true (lit "http") (0, cs)))
      by (apply in_rmatch_lit_ci; by exists r1).
    destruct Hscheme as [[r3 Hr3]|Hs].
    + exists ((4 + 1)%nat, r3). unfold HTTP_REGEX.
      apply in_rmatch_Seq. exists (0, cs). split; [by apply in_rmatch_Bol|].
      apply in_rmatch_Seq. exists ((0 + 4)%nat, r1). split; [done|].
      apply in_rmatch_Seq. exists ((0 + 4)%nat, r1).
      split; [by (apply in_rmatch_Opt; right)|].
      apply in_rmatch_lit_ci. by exists r3.
    + destruct (strip_prefix_ci "s" r1) as [r2|] eqn:Hr2; [|by destruct Hs].
      cbn [mbind option_bind] in Hs. destruct Hs as [r3 Hr3].
      exists ((4 + 1 + 1)%nat, r3). unfold HTTP_REGEX.
      apply in_rmatch_Seq. exists (0, cs). split; [by apply in_rmatch_Bol|].
      apply in_rmatch_Seq. exists ((0 + 4)%nat, r1). split; [done|].
      apply in_rmatch_Seq. exists ((4 + 1)%nat, r2). split.
      * apply in_rmatch_Opt. left. apply in_rmatch_lit_ci. by exists r2.
      * apply in_rmatch_lit_ci. by exists r3.
Qed.

(** ** The guarded fetcher *)
Section Guard.
Variables (W : World) (this : OEmbed).

Lemma externalRequest_unsafe_url url cfg t :
  isIpOrLocalhost W this url = true ->
  externalRequest W this url cfg t = (Throw (unknown_provider_outcome url), t).
Proof. intros H. unfold externalRequest. by rewrite H. Qed.

Lemma externalRequest_unsafe_final url cfg t r :
  isIpOrLocalhost W this url = false ->
  injectedRequest this url cfg = inr r ->
  isIpOrLocalhost W this (resp_url r) = true ->
  externalRequest W this url cfg t
  = (Throw (unknown_provider_outcome url), t ++ [ERequest url cfg]).
Proof.
  intros H1 H2 H3. unfold externalRequest, bind, emit. rewrite H1, H2. simpl.
  by rewrite H3.
Qed.

Lemma externalRequest_returns url cfg t r t' :
  externalRequest W this url cfg t = (Return r, t') ->
  isIpOrLocalhost W this url = false
  /\ injectedRequest this url cfg = inr r
  /\ isIpOrLocalhost W this (resp_url r) = false
  /\ t' = t ++ [ERequest url cfg].
Proof.
  unfold externalRequest, bind, emit.
  destruct (isIpOrLocalhost W this url); [discriminate|].
  destruct (injectedRequest this url cfg) as [e|r']; simpl; [discriminate|].
  destruct (isIpOrLocalhost W this (resp_url r')) eqn:Hfinal; simpl; [discriminate|].
  intros [= -> <-]. auto.
Qed.
End Guard.

(** ** The guard *)

Lemma exec_from_chr_None (c : ascii) (s : list ascii) (i : nat) :
  exec_from false (Chr c) i s = None <-> ~ In c s.
Proof.
  revert i. induction s as [|a s IH]; intros i; simpl.
  - split; [intros _ []|done].
  - unfold chr_eq. destruct (Ascii.eqb_spec c a) as [->|Hne].
    + split; [discriminate|]. intros H. destruct H. by left.
    + specialize (IH (S i)).
      destruct (exec_from false (Chr c) (S i) s) as [[b r]|].
      * split; [discriminate|]. intros H. exfalso.
        assert (HNone : (None : option (list ascii * list ascii)) = None) by done.
        destruct IH as [IH1 IH2].
        assert (Hin : ~ In c s) by (intros Hin; apply H; by right).
        specialize (IH2 Hin). discriminate.
      * split; [|done]. intros _ [Heq|Hin]; [by subst|].
        by apply IH.
  Qed.

Lemma IPV6_REGEX_colon (h : string) :
  test false IPV6_REGEX h = true <-> has_colon h.
Proof.
  unfold test, exec, IPV6_REGEX, has_colon.
  pose proof (exec_from_chr_None ":"%char (list_ascii_of_string h) 0) as H.
  destruct (exec_from false (Chr ":") 0 (list_ascii_of_string h)).
  - split; [|done]. intros _.
    destruct (In_dec Ascii.ascii_dec ":"%char (list_ascii_of_string h)) as [|Hn]; [done|].
    apply H in Hn. discriminate.
  - split; [discriminate|]. intros Hin. exfalso. by apply H.
Qed.

Section GuardRules.
Variables (W : World) (this : OEmbed).

Lemma isIpOrLocalhost_bad_config url :
  URL_parse W (config_get this "url") = None ->
  isIpOrLocalhost W this url = true.
Proof. intros H. unfold isIpOrLocalhost. by rewrite H. Qed.

(** C2, amended: when the configured site URL parses, the guard
    answers [true] exactly when the URL does not parse, its scheme is
    not http or https, its hostname is [localhost], is a dotted quad
    or contains a colon, and it answers [false] whenever the URL's
    host is the site's own host, whatever the rules say. *)
Theorem isIpOrLocalhost_rules siteUrl :
  URL_parse W (config_get this "url") = Some siteUrl ->
  guard_follows_rules W this.
Proof.
  intros Hsite url. unfold isIpOrLocalhost, own_host. rewrite Hsite.
  destruct (URL_parse W url) as [u|] eqn:Hu.
  - destruct (String.eqb_spec (host siteUrl) (host u)) as [Hhost|Hhost].
    + split; [discriminate|]. intros [Hown _]. exfalso. apply Hown. eauto.
    + assert (Hown : ~ (exists s u0, Some siteUrl = Some s /\ Some u = Some u0 /\ host s = host u0)).
      { intros (s & u0 & [= <-] & [= <-] & Heq). done. }
      split.
      * intros Hrules. split; [done|]. right. exists u. split; [done|].
        unfold unsafe_parts.
        destruct (test true HTTP_REGEX (protocol u)) eqn:Hhttp.
        2: { left. rewrite <- HTTP_REGEX_scheme. by rewrite Hhttp. }
        destruct (String.eqb_spec (hostname u) "localhost"); [by right; left|].
        destruct (test false IPV4_REGEX (hostname u)) eqn:H4.
        { right; right; left. by apply IPV4_REGEX_dotted_quad. }
        destruct (test false IPV6_REGEX (hostname u)) eqn:H6; [|done].
        right; right; right. by apply IPV6_REGEX_colon.
      * intros [_ [Hnone|(u0 & [= <-] & Hrules)]]; [done|].
        destruct Hrules as [Hr|[Hr|[Hr|Hr]]].
        -- rewrite <- HTTP_REGEX_scheme in Hr.
           by destruct (test true HTTP_REGEX (protocol u)).
        -- rewrite Hr. simpl. by rewrite orb_true_r.
        -- apply IPV4_REGEX_dotted_quad in Hr. rewrite Hr.
           by rewrite !orb_true_r.
        -- apply IPV6_REGEX_colon in Hr. rewrite Hr.
           by rewrite !orb_true_r.
  - split; [|done]. intros _. split; [|by left].
    intros (s & u0 & _ & [=] & _).
Qed.
End GuardRules.

(** ** The known-provider matcher *)

Lemma rmatch_lit (p : string) (i : nat) (s : list ascii) :
  rmatch false (lit p) (i, s)
  = match strip_prefix p s with
    | Some rest => [(i + String.length p, rest)]
    | None => []
    end.
Proof.
  revert i s. induction p as [|c p IH]; intros i s.
  - simpl. by rewrite Nat.add_0_r.
  - cbn [lit rmatch strip_prefix String.length fst snd].
    destruct s as [|a s]; [done|]. unfold chr_eq.
    destruct (Ascii.eqb c a); [|done].
    cbn [map List.concat]. rewrite app_nil_r, IH.
    destruct (strip_prefix p s); [|done].
    by rewrite Nat.add_succ_r.
Qed.

Lemma strip_prefix_app (p q : string) (s : list ascii) :
  strip_prefix (p +:+ q) s = strip_prefix p s ≫= strip_prefix q.
Proof.
  revert s. induction p as [|c p IH]; intros s; [done|].
  simpl. destruct s as [|a s]; [done|].
  destruct (Ascii.eqb c a); [apply IH|done].
Qed.

Lemma strip_prefix_distinct (c d : ascii) (p q : string) (s : list ascii) :
  c <> d ->
  is_Some (strip_prefix (String c p) s) ->
  strip_prefix (String d q) s = None.
Proof.
  intros Hne [r Hr]. destruct s as [|a s]; [done|].
  cbn [strip_prefix] in *.
  destruct (Ascii.eqb_spec c a) as [->|]; [|done].
  by destruct (Ascii.eqb_spec d a) as [->|].
Qed.

Lemma baseUrl_strip (url : string) : baseUrl url = strip_scheme_www url.
Proof.
  unfold baseUrl, strip_scheme_www, remove_first, exec.
  rewrite exec_from_anchored by reflexivity.
  generalize (list_ascii_of_string url) as cs. intros cs.
  unfold SCHEME_REGEX.
  cbn [rmatch fst snd Nat.eqb map List.concat].
  rewrite !app_nil_r, !rmatch_lit.
  change "http://" with ("http" +:+ "://").
  change "https://" with ("http" +:+ "s" +:+ "://").
  rewrite !strip_prefix_app.
  destruct (strip_prefix "//" cs) as [r0|] eqn:H0; [done|].
  destruct (strip_prefix "http" cs) as [r1|] eqn:H1; [|reflexivity].
  cbn [map List.concat mbind option_bind app].
  rewrite !app_nil_r, !rmatch_lit.
  rewrite ?strip_prefix_app.
  destruct (strip_prefix "s" r1) as [r2|] eqn:H2.
  - assert (H3 : strip_prefix "://" r1 = None).
    { eapply (strip_prefix_distinct "s" ":"); [done|]. by rewrite H2. }
    cbn [map List.concat mbind option_bind app].
    rewrite !app_nil_r, !rmatch_lit, !H3.
    cbn [map List.concat mbind option_bind app union option_union union_with option_union_with].
    destruct (strip_prefix "://" r2) as [r4|] eqn:H4; [|done].
    cbn [map List.concat app]. rewrite !app_nil_r, !rmatch_lit.
    change (None ∪ Some r4) with (Some r4). cbv beta iota.
    by destruct (strip_prefix "www." r4).
  - cbn [map List.concat mbind option_bind app].
    rewrite !app_nil_r, !rmatch_lit.
    destruct (strip_prefix "://" r1) as [r4|] eqn:H4; [|done].
    cbn [map List.concat app]. rewrite !app_nil_r, !rmatch_lit.
    change (Some r4 ∪ None) with (Some r4). cbv beta iota.
    by destruct (strip_prefix "www." r4).
Qed.

Section Matcher.
Variable W : World.

Lemma for_testUrls_run (tests : list string) (url : string) (t : trace) :
  for_testUrls W tests url false t
  = (Return match List.find (hasProvider W) tests with
            | Some testUrl => ProviderMatch testUrl true
            | None => ProviderMatch url false
            end,
     t ++ map EHasProvider (take_through (hasProvider W) tests)).
Proof.
  revert t. induction tests as [|testUrl rest IH]; intros t.
  - simpl. by rewrite app_nil_r.
  - cbn [for_testUrls List.find take_through]. unfold bind, emit.
    destruct (hasProvider W testUrl) eqn:Hp.
    + reflexivity.
    + rewrite IH. cbn [map]. by rewrite <- app_assoc.
Qed.

Lemma testUrls_variants (url : string) :
  testUrls url = variants (strip_scheme_www url).
Proof. unfold testUrls, variants. by rewrite baseUrl_strip. Qed.

(** C9, amended: the matcher removes from the front of the URL a
    leading [//], or a leading [http://] or [https://] in lower case
    together with a [www.] right behind it, and nothing else (a
    scheme in upper case, another scheme, and a [www.] that is first
    or follows [//] stay); it tests the four variants [http://],
    [https://], [http://www.] and [https://www.] of what is left
    against the directory in that order, stops at the first that
    matches and returns it with the flag set; when none matches it
    returns the URL it was given with the flag unset. *)
Theorem findUrlWithProvider_variants (url : string) (t : trace) :
  let tests := variants (strip_scheme_www url) in
  findUrlWithProvider W url t
  = (Return match List.find (hasProvider W) tests with
            | Some testUrl => ProviderMatch testUrl true
            | None => ProviderMatch url false
            end,
     t ++ map EHasProvider (take_through (hasProvider W) tests)).
Proof.
  intros tests. unfold findUrlWithProvider.
  rewrite testUrls_variants. apply for_testUrls_run.
Qed.

Lemma findUrlWithProvider_triple (url : string) :
  triple (findUrlWithProvider W url) (fun ev => is_lookup ev = true)
    (fun _ => True) (fun _ => False).
Proof.
  intros t. unfold findUrlWithProvider. rewrite for_testUrls_run.
  eexists. split; [reflexivity|]. split; [|done].
  apply List.Forall_forall. intros ev Hin. apply in_map_iff in Hin.
  by destruct Hin as (u & <- & _).
Qed.
End Matcher.

(** ** Bookmark extraction *)
Section Bookmark.
Variable W : World.

Lemma bookmark_metadata_thumbnail (scraped : gmap string value) :
  field (bookmark_metadata scraped) "thumbnail" = field scraped "image".
Proof.
  unfold bookmark_metadata, field.
  rewrite !lookup_delete_ne by done.
  rewrite lookup_insert_ne by done. by rewrite lookup_insert_eq.
Qed.

Lemma bookmark_metadata_icon (scraped : gmap string value) :
  field (bookmark_metadata scraped) "icon" = field scraped "logo".
Proof.
  unfold bookmark_metadata, field.
  rewrite !lookup_delete_ne by done. by rewrite lookup_insert_eq.
Qed.

Lemma bookmark_metadata_image (scraped : gmap string value) :
  bookmark_metadata scraped !! "image" = None.
Proof.
  unfold bookmark_metadata.
  rewrite lookup_delete_ne by done. by rewrite lookup_delete_eq.
Qed.

Lemma bookmark_metadata_logo (scraped : gmap string value) :
  bookmark_metadata scraped !! "logo" = None.
Proof. unfold bookmark_metadata. by rewrite lookup_delete_eq. Qed.

Lemma bookmark_metadata_other (scraped : gmap string value) (k : string) :
  k <> "image" -> k <> "logo" -> k <> "thumbnail" -> k <> "icon" ->
  bookmark_metadata scraped !! k = scraped !! k.
Proof.
  intros. unfold bookmark_metadata.
  rewrite !lookup_delete_ne by done. by rewrite !lookup_insert_ne by done.
Qed.

Lemma fetchBookmarkData_run (url html : string) (t : trace) :
  fetchBookmarkData W url html t
  = match metascraper W html url with
    | inl je =>
        (Throw (unknown_provider_outcome url),
         t ++ [EMetascraper html url; ELog (Foreign je)])
    | inr scraped =>
        (if truthy (field scraped "title")
         then Return (bookmark_payload url (bookmark_metadata scraped))
         else Throw (ValidationError messages.insufficientMetadata url),
         t ++ [EMetascraper html url])
    end.
Proof.
  unfold fetchBookmarkData, bind, try_catch, emit, call.
  destruct (metascraper W html url) as [je|scraped]; simpl.
  - by rewrite <- app_assoc.
  - unfold field at 1. rewrite bookmark_metadata_other by done.
    fold (field scraped "title").
    by destruct (truthy (field scraped "title")).
Qed.

(** C8: a bookmark extraction that succeeds returns the payload with
    version 1.0, type bookmark, the URL and the metadata, where
    [thumbnail] holds the scraper's [image], [icon] holds the
    scraper's [logo], the keys [image] and [logo] are absent and every
    other field is the scraper's. *)
Theorem fetchBookmarkData_payload (url html : string) (t t' : trace)
    (payload : value) :
  fetchBookmarkData W url html t = (Return payload, t') ->
  exists scraped metadata,
    metascraper W html url = inr scraped
    /\ payload = VObj {[ "version" := VStr "1.0";
                         "type" := VStr "bookmark";
                         "url" := VStr url;
                         "metadata" := VObj metadata ]}
    /\ field metadata "thumbnail" = field scraped "image"
    /\ field metadata "icon" = field scraped "logo"
    /\ metadata !! "image" = None
    /\ metadata !! "logo" = None
    /\ (forall k, k <> "image" -> k <> "logo" ->
                  k <> "thumbnail" -> k <> "icon" ->
                  metadata !! k = scraped !! k).
Proof.
  rewrite fetchBookmarkData_run.
  destruct (metascraper W html url) as [je|scraped]; [discriminate|].
  destruct (truthy (field scraped "title")); [|discriminate].
  intros [= <- <-]. exists scraped, (bookmark_metadata scraped).
  split; [done|]. split; [done|].
  split; [apply bookmark_metadata_thumbnail|].
  split; [apply bookmark_metadata_icon|].
  split; [apply bookmark_metadata_image|].
  split; [apply bookmark_metadata_logo|].
  apply bookmark_metadata_other.
Qed.

Lemma fetchBookmarkData_triple (url html : string) :
  triple (fetchBookmarkData W url html)
    (fun ev => ev = EMetascraper html url \/ is_log ev = true)
    (fun payload => exists metadata, payload = bookmark_payload url metadata)
    (bookmark_failure url).
Proof.
  intros t. rewrite fetchBookmarkData_run.
  destruct (metascraper W html url) as [je|scraped].
  - eexists. split; [reflexivity|]. split; [|by left].
    apply Forall_cons; split; [by left|].
    apply Forall_cons; split; [by right|]. apply Forall_nil_2.
  - eexists. split; [reflexivity|].
    split; [apply Forall_cons; split; [by left|apply Forall_nil_2]|].
    simpl. destruct (truthy (field scraped "title")); [eauto|by right].
Qed.
End Bookmark.

(** ** What each method appends and throws *)
Section Methods.
Variables (W : World) (this : OEmbed).

Lemma externalRequest_triple (url : string) (cfg : request_config) :
  triple (externalRequest W this url cfg)
    (fun ev => ev = ERequest url cfg)
    (fun r => isIpOrLocalhost W this url = false
              /\ isIpOrLocalhost W this (resp_url r) = false)
    (fetch_failure url).
Proof.
  unfold externalRequest.
  destruct (isIpOrLocalhost W this url) eqn:Hurl.
  { apply triple_throw. by left. }
  eapply (triple_bind _ _ _ (fun _ => True)).
  { apply (triple_emit _ _ (fun _ => True)); done. }
  intros _ _. eapply (triple_bind _ _ _ (fun _ => True)).
  { apply (triple_call _ _ (fun _ => True)); [done|].
    intros je _. right. by exists je. }
  intros r _. destruct (isIpOrLocalhost W this (resp_url r)) eqn:Hfinal.
  - apply triple_throw. by left.
  - by apply triple_ret.
Qed.

(** The guarded fetcher throws the unknown-provider error only when
    the guard rejects the fetch. *)
Lemma externalRequest_throws url cfg t e t' :
  externalRequest W this url cfg t = (Throw e, t') ->
  (e = unknown_provider_outcome url /\ guard_rejects W this url cfg)
  \/ foreign e.
Proof.
  unfold externalRequest, guard_rejects.
  destruct (isIpOrLocalhost W this url) eqn:Hurl.
  { intros [= <- _]. left. split; [done|by left]. }
  unfold bind, emit, call.
  destruct (injectedRequest this url cfg) as [je|r] eqn:Hreq.
  { intros [= <- _]. right. by exists je. }
  cbn [ret]. destruct (isIpOrLocalhost W this (resp_url r)) eqn:Hfinal;
    [|discriminate].
  intros [= <- _]. left. split; [done|]. right. by exists r.
Qed.

Lemma fetchPageJson_throws url t e t' :
  fetchPageJson W this url t = (Throw e, t') ->
  (e = unknown_provider_outcome url
   /\ guard_rejects W this url (fetchPage_config {[ "json" := VBool true ]}))
  \/ foreign e.
Proof.
  unfold fetchPageJson, fetchPage. unfold bind.
  destruct (externalRequest W this url _ t) as [[r|e'] t0] eqn:Hrun;
    [discriminate|].
  intros [= <- _]. by apply (externalRequest_throws _ _ _ _ _ Hrun).
Qed.

Lemma fetchPage_triple (url : string) (options : request_config) :
  triple (fetchPage W this url options)
    (fun ev => is_request ev = true)
    (fun r => isIpOrLocalhost W this url = false
              /\ isIpOrLocalhost W this (resp_url r) = false)
    (fetch_failure url).
Proof.
  unfold fetchPage. eapply triple_weaken.
  - apply externalRequest_triple.
  - by intros ev ->.
  - done.
  - done.
Qed.

Lemma fetchPageHtml_triple (url : string) :
  triple (fetchPageHtml W this url)
    (fun ev => is_request ev = true \/ is_log ev = true)
    (fun _ => True)
    (fetch_failure url).
Proof.
  unfold fetchPageHtml. eapply (triple_bind _ _ _ (fun _ => True)).
  { eapply triple_weaken; [apply fetchPage_triple|auto..]. }
  intros r _. cbv zeta.
  eapply (triple_try_catch _ _ _ _ foreign).
  - eapply (triple_bind _ _ _ (fun _ => True)).
    { apply (triple_call _ _ (fun _ => True)); [done|].
      intros je _. by exists je. }
    intros [encoding|] _.
    + eapply (triple_bind _ _ _ (fun _ => True)).
      { apply (triple_call _ _ (fun _ => True)); [done|].
        intros je _. by exists je. }
      intros decodedBody _. by apply triple_ret.
    + eapply (triple_bind _ _ _ (fun _ => True)).
      { apply (triple_call _ _ (fun _ => True)); [done|].
        intros je _. by exists je. }
      intros raw _. by apply triple_ret.
  - intros e _. eapply (triple_bind _ _ _ (fun _ => True)).
    { apply (triple_emit _ _ (fun _ => True)); [by right|done]. }
    intros _ _. eapply (triple_bind _ _ _ (fun _ => True)).
    { apply (triple_call _ _ (fun _ => True)); [done|].
      intros je _. right. by exists je. }
    intros raw _. by apply triple_ret.
Qed.

Lemma fetchPageJson_triple (url : string) :
  triple (fetchPageJson W this url)
    (fun ev => is_request ev = true)
    (fun _ => True)
    (fetch_failure url).
Proof.
  unfold fetchPageJson. eapply (triple_bind _ _ _ (fun _ => True)).
  { eapply triple_weaken; [apply fetchPage_triple|auto..]. }
  intros r _. by apply triple_ret.
Qed.

Lemma get_prop_triple (v : value) (k : string) (Q : event -> Prop) :
  triple (get_prop v k) Q (fun _ => True) foreign.
Proof.
  destruct v; simpl;
    first [ by apply triple_ret | apply triple_throw; by eexists ].
Qed.

Lemma knownProvider_triple (url : string) :
  triple (knownProvider W url)
    (fun ev => ev = EExtract url)
    (fun _ => True)
    (extract_failure W).
Proof.
  unfold knownProvider.
  eapply (triple_try_catch _ _ _ _
            (fun e => exists je, extract W url = inl je /\ e = Foreign je)).
  - eapply (triple_bind _ _ _ (fun _ => True)).
    { apply (triple_emit _ _ (fun _ => True)); done. }
    intros _ _. apply triple_call; [done|]. intros je Hje. by exists je.
  - intros e (je & Hje & ->). apply triple_throw. by exists url, je.
Qed.

(** What discovery for [url] on [html] can throw. *)
Lemma fetchOembedData_triple (url html : string) (cardType : option string) :
  triple (fetchOembedData W this url html cardType)
    (fun ev => ev = ECheerio html \/ is_request ev = true)
    (fun _ => True)
    (fun e => e = unknown_provider_outcome url
              \/ endpoint_rejected W this html e \/ foreign e).
Proof.
  unfold fetchOembedData.
  eapply (triple_bind _ _ _ (fun o => cheerio_href W html = inr o)).
  { eapply (triple_try_catch _ _ _
              (fun o => cheerio_href W html = inr o) (fun _ => True)).
    - eapply (triple_bind _ _ _ (fun _ => True)).
      { apply (triple_emit _ _ (fun _ => True)); [by left|done]. }
      intros _ _. by apply triple_call.
    - intros e _. apply triple_throw. by left. }
  intros [oembedUrl|] Hlink; [|by apply triple_ret].
  destruct (negb (truthy (VStr oembedUrl))); [by apply triple_ret|].
  destruct (negb (truthy (of_opt cardType)) && test false WP_REGEX oembedUrl);
    [by apply triple_ret|].
  eapply (triple_bind _ _ _ (fun _ => True)).
  { eapply triple_weaken;
      [apply (triple_and_throw _ _ _ _ _ (fetchPageJson_triple oembedUrl)
                (fetchPageJson_throws oembedUrl))|auto..].
    intros e [_ [[-> Hguard]|Hf]]; [|by right; right].
    right; left. by exists oembedUrl. }
  intros oembedResponse _. cbv zeta.
  eapply (triple_bind _ _ _ (fun _ => True)).
  { eapply (triple_bind _ _ _ (fun _ => True)).
    { eapply triple_weaken; [apply (get_prop_triple _ _ (fun _ => False))|done|done|by right; right]. }
    intros ty _. destruct (truthy ty); [|by apply (triple_ret _ _ (fun _ => True))].
    eapply triple_weaken; [apply (get_prop_triple _ _ (fun _ => False))|done|done|by right; right]. }
  intros hasRequiredFields _. eapply (triple_bind _ _ _ (fun _ => True)).
  { eapply (triple_bind _ _ _ (fun _ => True)).
    { eapply triple_weaken; [apply (get_prop_triple _ _ (fun _ => False))|done|done|by right; right]. }
    intros ty _. by apply (triple_ret _ _ (fun _ => True)). }
  intros hasValidType _.
  repeat match goal with
         | |- triple (if ?b then _ else _) _ _ _ => destruct b
         end; by apply triple_ret.
Qed.
End Methods.

(** ** The orchestrator *)
Section Orchestrator.
Variables (W : World) (this : OEmbed).

Lemma resolve_after_providers url type t t1 :
  providers_decline W this url t t1 ->
  fetchOembedDataFromUrl W this url type t
  = resolve_later W this (String_trim W url) type t1.
Proof.
  intros (u & Hu & Hloop).
  unfold fetchOembedDataFromUrl, resolve_later, resolve_steps.
  rewrite Hu. unfold settle, try_catch, bind. by rewrite Hloop.
Qed.

Lemma later_stages_discovery url type t1 t2 t3 t4 known page :
  is_bookmark type = false ->
  findUrlWithProvider W url t1 = (Return known, t2) ->
  pm_provider known = false ->
  fetchPageHtml W this url t2 = (Return page, t3) ->
  (if String.eqb (html_url page) url then t4 = t3
   else exists redirected,
          findUrlWithProvider W (html_url page) t3 = (Return redirected, t4)
          /\ pm_provider redirected = false) ->
  later_stages W this url type t1
  = discover_or_bookmark W this url (html_body page) type t4.
Proof.
  intros Hty Hknown Hnone Hpage Hredirect.
  unfold later_stages. rewrite Hty. cbn [negb].
  unfold bind at 1. rewrite Hknown, Hnone.
  unfold bind at 1. rewrite Hpage. cbv zeta.
  destruct (String.eqb (html_url page) url).
  - subst t4. reflexivity.
  - destruct Hredirect as (redirected & Hr & Hflag).
    cbn [negb]. unfold bind at 1. by rewrite Hr, Hflag.
Qed.

Lemma resolve_at_discovery url type t page t4 :
  reaches_discovery W this url type t page t4 ->
  fetchOembedDataFromUrl W this url type t
  = settle (try_catch
              (discover_or_bookmark W this (String_trim W url) (html_body page) type)
              (on_error (String_trim W url))) t4.
Proof.
  intros (t1 & t2 & t3 & known & Hdecline & Hty & Hknown & Hnone & Hpage & Hredirect).
  rewrite (resolve_after_providers _ _ _ _ Hdecline).
  unfold resolve_later, settle, try_catch, bind.
  by rewrite (later_stages_discovery _ _ _ _ _ _ _ _ Hty Hknown Hnone Hpage Hredirect).
Qed.

(** The [catch] clause lets a [ValidationError] through and replaces
    anything else by the unknown-provider error for [url]. *)
Lemma on_error_passes url e (E : error -> Prop) :
  (isValidationError e = true -> E e) ->
  E (unknown_provider_outcome url) ->
  triple (on_error url e) (fun _ => True)
    (fun p => triple p (fun _ => True) (fun _ => True) E) E.
Proof.
  intros He Hunknown. unfold on_error. destruct (isValidationError e).
  - apply triple_throw. auto.
  - eapply (triple_bind _ _ _ (fun _ => True)).
    { by apply triple_emit. }
    intros _ _. apply triple_ret. by apply triple_throw.
Qed.

Lemma on_error_triple url e :
  (isValidationError e = true -> resolution_failure W this url e) ->
  triple (on_error url e) (fun _ => True)
    (fun p => triple p (fun _ => True) (fun _ => True)
                (resolution_failure W this url))
    (resolution_failure W this url).
Proof. intros He. apply on_error_passes; [done|by left]. Qed.

Lemma knownProvider_resolution url providerUrl :
  triple (knownProvider W providerUrl) (fun _ => True) (fun _ => True)
    (resolution_failure W this url).
Proof.
  eapply triple_weaken; [apply knownProvider_triple|done|done|].
  intros e He. by right; right; right.
Qed.

Lemma fetchBookmarkData_resolution url body :
  triple (fetchBookmarkData W url body) (fun _ => True) (fun _ => True)
    (resolution_failure W this url).
Proof.
  eapply triple_weaken; [apply fetchBookmarkData_triple|done|done|].
  intros e [-> | ->]; [by left|by right; left].
Qed.

(** What the awaited part of the [try] block can throw, and what the
    promise it returns can. *)
Lemma later_stages_triple url type :
  triple (later_stages W this url type) (fun _ => True)
    (fun p => triple p (fun _ => True) (fun _ => True) (resolution_failure W this url))
    (fun e => resolution_failure W this url e \/ foreign e).
Proof.
  unfold later_stages.
  eapply (triple_bind _ _ _ (fun _ => True)).
  { destruct (negb (is_bookmark type)); [|by apply triple_ret].
    eapply triple_weaken; [apply findUrlWithProvider_triple|done..]. }
  intros known _. destruct (pm_provider known).
  { apply triple_ret. apply knownProvider_resolution. }
  eapply (triple_bind _ _ _
            (fun page => exists t2 t3,
               fetchPageHtml W this url t2 = (Return page, t3))).
  { eapply triple_weaken;
      [apply (triple_and_returned _ _ _
                (fun page => exists t2 t3,
                   fetchPageHtml W this url t2 = (Return page, t3))
                _ (fetchPageHtml_triple W this url))|done| |].
    - intros t2 page t3 Hpage. by exists t2, t3.
    - by intros page [_ Hpage].
    - intros e [->|Hf]; [left; by left|by right]. }
  intros page (t2 & t3 & Hpage). cbv zeta. destruct (is_bookmark type).
  { apply triple_ret. apply fetchBookmarkData_resolution. }
  eapply (triple_bind _ _ _ (fun _ => True)).
  { destruct (negb (html_url page =? url)%string); [|by apply triple_ret].
    eapply triple_weaken; [apply findUrlWithProvider_triple|done..]. }
  intros redirected _. destruct (pm_provider redirected).
  { apply triple_ret. apply knownProvider_resolution. }
  eapply (triple_bind _ _ _ (fun _ => True)).
  { eapply triple_weaken; [apply fetchOembedData_triple|done|done|].
    intros e [->|[He|He]]; [left; by left| |by right].
    left. right; right; left. by exists page, t2, t3. }
  intros data _.
  eapply (triple_bind _ _ _ (fun _ => True)).
  { destruct (negb (truthy data) && negb (truthy (of_opt type)));
      [|by apply triple_ret].
    eapply triple_weaken; [apply fetchBookmarkData_resolution|done|done|].
    intros e He. by left. }
  intros data' _. destruct (negb (truthy data')).
  - apply triple_ret. apply triple_throw. by left.
  - apply triple_ret. by apply triple_ret.
Qed.

Lemma resolve_later_triple url type :
  triple (resolve_later W this url type) (fun _ => True) (fun _ => True)
    (resolution_failure W this url).
Proof.
  unfold resolve_later. apply triple_settle.
  eapply triple_try_catch; [apply later_stages_triple|].
  intros e He. apply on_error_triple.
  intros Hval. destruct He as [He|[je ->]]; [done|discriminate].
Qed.
End Orchestrator.

(** ** Custom providers *)
Section Providers.
Variables (W : World) (this : OEmbed).

Lemma registerProvider_last (provider : CustomProvider) :
  customProviders (registerProvider this provider)
  = customProviders this ++ [provider].
Proof. reflexivity. Qed.

Lemma for_customProviders_refuse provider rest u t t1 :
  canSupportRequest provider u t = (Return false, t1) ->
  for_customProviders W this (provider :: rest) u t
  = for_customProviders W this rest u t1.
Proof. intros H. cbn [for_customProviders]. unfold bind. by rewrite H. Qed.

Lemma for_customProviders_null provider rest u t t1 t2 :
  canSupportRequest provider u t = (Return true, t1) ->
  getOEmbedData provider u (externalRequest W this) t1 = (Return VNull, t2) ->
  for_customProviders W this (provider :: rest) u t
  = for_customProviders W this rest u t2.
Proof.
  intros H1 H2. cbn [for_customProviders]. unfold bind. by rewrite H1, H2.
Qed.

Lemma for_customProviders_result provider rest u t t1 t2 result :
  canSupportRequest provider u t = (Return true, t1) ->
  getOEmbedData provider u (externalRequest W this) t1 = (Return result, t2) ->
  result <> VNull ->
  for_customProviders W this (provider :: rest) u t
  = (Return (Some result), t2).
Proof.
  intros H1 H2 Hnn. cbn [for_customProviders]. unfold bind.
  rewrite H1, H2. by destruct result.
Qed.

Lemma for_customProviders_app before after u t t1 :
  for_customProviders W this before u t = (Return None, t1) ->
  for_customProviders W this (before ++ after) u t
  = for_customProviders W this after u t1.
Proof.
  revert t. induction before as [|p before IH]; intros t.
  - by intros [= ->].
  - cbn [for_customProviders app]. unfold bind.
    destruct (canSupportRequest p u t) as [[[|]|e] t2]; [| |done].
    + destruct (getOEmbedData p u (externalRequest W this) t2)
        as [[result|e] t3]; [|done].
      destruct (negb (is_null result)); [done|]. apply IH.
    + apply IH.
Qed.

Lemma registered_in_order (this0 : OEmbed) (providers : list CustomProvider) :
  customProviders (foldl registerProvider this0 providers)
  = customProviders this0 ++ providers.
Proof.
  revert this0. induction providers as [|p ps IH]; intros this0; cbn [foldl].
  - by rewrite app_nil_r.
  - rewrite IH. cbn [registerProvider customProviders].
    by rewrite <- app_assoc.
Qed.

(** Providers that decline by their own answers are passed by the
    loop. *)
Lemma for_customProviders_decline providers u t t1 :
  decline_in_turn W this providers u t t1 ->
  for_customProviders W this providers u t = (Return None, t1).
Proof.
  revert t. induction providers as [|p ps IH]; intros t; cbn [decline_in_turn].
  - by intros ->.
  - intros (t' & [Hrefuse|(t0 & Hcan & Hnull)] & Hrest).
    + rewrite (for_customProviders_refuse _ _ _ _ _ Hrefuse). by apply IH.
    + rewrite (for_customProviders_null _ _ _ _ _ _ Hcan Hnull). by apply IH.
Qed.

(** C3: the providers are asked in the order they were registered.
    For a URL that parses, when each provider registered before
    [provider] refuses the URL or accepts it and answers [null],
    [provider] accepts the URL and its [getOEmbedData] returns a
    result other than [null], the resolution returns exactly that
    result and stops there: the trace is the one the provider left,
    so no provider registered later is asked and no lookup, fetch,
    discovery or scraping follows.  When every registered provider
    refuses or answers [null], the resolution goes on with the stages
    after the providers, from the trace the providers left. *)
Theorem custom_provider_result_wins
    (this0 : OEmbed) (registered : list CustomProvider)
    url type t urlObject :
  customProviders this0 = [] ->
  this = foldl registerProvider this0 registered ->
  URL_parse W url = Some urlObject ->
  (forall before provider after t1 t2 t3 result,
      registered = before ++ provider :: after ->
      decline_in_turn W this before urlObject t t1 ->
      canSupportRequest provider urlObject t1 = (Return true, t2) ->
      getOEmbedData provider urlObject (externalRequest W this) t2
      = (Return result, t3) ->
      result <> VNull ->
      fetchOembedDataFromUrl W this url type t = (Return result, t3))
  /\ (forall t1,
        decline_in_turn W this registered urlObject t t1 ->
        fetchOembedDataFromUrl W this url type t
        = resolve_later W this (String_trim W url) type t1).
Proof.
  intros Hnone Hthis Hu.
  assert (Hlist : customProviders this = registered)
    by (by rewrite Hthis, registered_in_order, Hnone).
  split.
  - intros before provider after t1 t2 t3 result Hreg Hbefore Hcan Hget Hnn.
    unfold fetchOembedDataFromUrl, resolve_steps. rewrite Hu, Hlist, Hreg.
    unfold settle, try_catch, bind.
    rewrite (for_customProviders_app _ _ _ _ _
               (for_customProviders_decline _ _ _ _ Hbefore)).
    by rewrite (for_customProviders_result _ _ _ _ _ _ _ Hcan Hget Hnn).
  - intros t1 Hall. apply resolve_after_providers.
    exists urlObject. split; [done|]. rewrite Hlist.
    by apply for_customProviders_decline.
Qed.
End Providers.

(** ** Bookmark requests *)
Section BookmarkRequest.
Variables (W : World) (this : OEmbed).

Lemma later_stages_bookmark url :
  later_stages W this url (Some "bookmark")
  = (page <- fetchPageHtml W this url ;;
     ret (fetchBookmarkData W url (html_body page))).
Proof. reflexivity. Qed.

Lemma resolve_later_bookmark_triple url :
  triple (resolve_later W this url (Some "bookmark"))
    (bookmark_event url) (fun _ => True) (fun _ => True).
Proof.
  assert (Hreq : forall ev, is_request ev = true \/ is_log ev = true ->
                            bookmark_event url ev).
  { intros [] [H|H]; try discriminate H; by repeat split. }
  assert (Hscrape : forall body,
    triple (fetchBookmarkData W url body) (bookmark_event url)
      (fun _ => True) (fun _ => True)).
  { intros body. eapply triple_weaken; [apply fetchBookmarkData_triple| |done|done].
    intros ev [->|H]; [|by apply Hreq; right].
    repeat split; try done. by intros html u [= _ ->]. }
  unfold resolve_later. apply triple_settle.
  rewrite later_stages_bookmark.
  eapply (triple_try_catch _ _ _ _ (fun _ => True)).
  - eapply (triple_bind _ _ _ (fun _ => True)).
    { eapply triple_weaken; [apply fetchPageHtml_triple|apply Hreq|done|done]. }
    intros page _. apply triple_ret. apply Hscrape.
  - intros e _. unfold on_error. destruct (isValidationError e).
    + by apply triple_throw.
    + eapply (triple_bind _ _ _ (fun _ => True)).
      { apply triple_emit; [|done]. apply Hreq. by right. }
      intros _ _. apply triple_ret. by apply triple_throw.
Qed.

Lemma resolve_later_bookmark_page url t1 page t2 :
  fetchPageHtml W this url t1 = (Return page, t2) ->
  resolve_later W this url (Some "bookmark") t1
  = fetchBookmarkData W url (html_body page) t2.
Proof.
  intros Hpage. unfold resolve_later. rewrite later_stages_bookmark.
  unfold settle, try_catch, bind. by rewrite Hpage.
Qed.

(** C4: in a bookmark request for which the custom providers yield
    nothing, what follows the provider loop contains no directory
    lookup, no extraction by a known provider and no link discovery;
    and once the guarded page fetch has returned, the resolution is
    the bookmark extraction on the fetched HTML, called with the
    requested URL (trimmed) and not with the URL of the response. *)
Theorem bookmark_request_skips_oembed url t t1 :
  providers_decline W this url t t1 ->
  (exists evs,
      (fetchOembedDataFromUrl W this url (Some "bookmark") t).2 = t1 ++ evs
      /\ Forall (bookmark_event (String_trim W url)) evs)
  /\ (forall page t2,
        fetchPageHtml W this (String_trim W url) t1 = (Return page, t2) ->
        fetchOembedDataFromUrl W this url (Some "bookmark") t
        = fetchBookmarkData W (String_trim W url) (html_body page) t2).
Proof.
  intros Hdecline. rewrite (resolve_after_providers _ _ _ _ _ _ Hdecline).
  split.
  - destruct (resolve_later_bookmark_triple (String_trim W url) t1)
      as (evs & Ht & Hevs & _).
    by exists evs.
  - intros page t2. apply resolve_later_bookmark_page.
Qed.
End BookmarkRequest.

(** ** Incomplete oEmbed responses *)
Section Discovery.
Variables (W : World) (this : OEmbed).

Lemma pick_field (o : gmap string value) (keys : list string) (k : string) :
  k ∈ keys -> field (pick (VObj o) keys) k = field o k.
Proof.
  intros Hk. unfold field, pick. destruct (o !! k) as [v|] eqn:Hv.
  - by rewrite (map_lookup_filter_Some_2 _ _ _ _ Hv Hk).
  - rewrite map_lookup_filter_None_2; [done|by left].
Qed.

Lemma truthy_nonempty (s : string) : s <> "" -> truthy (VStr s) = true.
Proof. intros Hs. simpl. by destruct (String.eqb_spec s ""). Qed.

(** The discoverer on a page that links to an endpoint whose answer
    is incomplete: no payload, and no error. *)
Lemma fetchOembedData_incomplete url html cardType t oembedUrl response t' o :
  cheerio_href W html = inr (Some oembedUrl) ->
  oembedUrl <> "" ->
  negb (truthy (of_opt cardType)) && test false WP_REGEX oembedUrl = false ->
  fetchPageJson W this oembedUrl (t ++ [ECheerio html]) = (Return response, t') ->
  json_body response = VObj o ->
  incomplete o ->
  fetchOembedData W this url html cardType t = (Return VUndefined, t').
Proof.
  intros Hlink Hne Hwp Hfetch Hbody Hinc.
  unfold fetchOembedData.
  unfold bind at 1. unfold try_catch, bind, emit, call. rewrite Hlink.
  cbn [ret]. rewrite (truthy_nonempty _ Hne), Hwp. cbn [negb].
  rewrite Hfetch, Hbody. cbn [get_prop ret].
  assert (Hreq : forall a b (c : bool) (t0 : trace),
             (if c then ret a else ret b) t0
             = (Return (if c then a else b : value), t0)) by (by intros ? ? []).
  rewrite Hreq.
  match goal with |- (if ?c then _ else _) _ = _ => destruct c end; [|done].
  rewrite !pick_field by (unfold knownFields; set_solver).
  destruct Hinc as [[Hty Hurl]|[Hty Hmiss]].
  - by rewrite Hty, Hurl.
  - assert (Hphoto : is_str (field o "type") "photo" = false)
      by (by destruct Hty as [-> | ->]).
    assert (Hvr : is_str (field o "type") "video"
                  || is_str (field o "type") "rich" = true)
      by (by destruct Hty as [-> | ->]).
    rewrite Hphoto, Hvr. cbn [andb].
    by destruct Hmiss as [-> | [-> | ->]]; rewrite ?orb_true_r.
Qed.

(** When discovery yields nothing and no card type was requested, the
    resolution is the bookmark extraction. *)
Lemma discover_or_bookmark_fallback url body type t4 t5 data :
  fetchOembedData W this url body None t4 = (Return data, t5) ->
  truthy data = false ->
  truthy (of_opt type) = false ->
  settle (try_catch (discover_or_bookmark W this url body type) (on_error url)) t4
  = fetchBookmarkData W url body t5.
Proof.
  intros Hdata Hfalsy Hty.
  unfold settle, try_catch, discover_or_bookmark, bind.
  rewrite Hdata, Hfalsy, Hty. cbn [negb andb].
  rewrite fetchBookmarkData_run.
  destruct (metascraper W body url) as [je|scraped]; [done|].
  by destruct (truthy (field scraped "title")).
Qed.

(** C5: when the endpoint a page links to answers with a body of
    type [photo] without [url], or of type [video] or [rich] without
    one of [html], [width], [height], the discoverer returns no
    payload and throws nothing; and in a resolution that got to
    discovery without a requested card type, the result is then the
    bookmark extraction on the fetched HTML. *)
Theorem incomplete_oembed_falls_back
    url type t page t4 oembedUrl response t5 o :
  reaches_discovery W this url type t page t4 ->
  truthy (of_opt type) = false ->
  cheerio_href W (html_body page) = inr (Some oembedUrl) ->
  oembedUrl <> "" ->
  test false WP_REGEX oembedUrl = false ->
  fetchPageJson W this oembedUrl (t4 ++ [ECheerio (html_body page)])
  = (Return response, t5) ->
  json_body response = VObj o ->
  incomplete o ->
  fetchOembedData W this (String_trim W url) (html_body page) None t4
  = (Return VUndefined, t5)
  /\ fetchOembedDataFromUrl W this url type t
     = fetchBookmarkData W (String_trim W url) (html_body page) t5.
Proof.
  intros Hreach Hty Hlink Hne Hwp Hfetch Hbody Hinc.
  assert (Hdata : fetchOembedData W this (String_trim W url) (html_body page) None t4
                  = (Return VUndefined, t5)).
  { eapply fetchOembedData_incomplete; eauto. }
  split; [done|].
  rewrite (resolve_at_discovery _ _ _ _ _ _ _ Hreach).
  by apply (discover_or_bookmark_fallback _ _ _ _ _ _ Hdata).
Qed.
End Discovery.

(** ** Failures of a resolution *)
Section Failures.
Variables (W : World) (this : OEmbed).

Lemma take_through_all {A} (p : A -> bool) (l : list A) :
  List.find p l = None -> take_through p l = l.
Proof.
  induction l as [|x l IH]; [done|]. simpl.
  destruct (p x); [done|]. intros H. by rewrite IH.
Qed.

(** The first lookup of a request the directory does not know. *)
Lemma first_lookup_run url type t :
  not_known W url type ->
  (if negb (is_bookmark type) then findUrlWithProvider W url
   else ret (ProviderMatch url false)) t
  = (Return (ProviderMatch url false), t ++ first_lookups url type).
Proof.
  intros Hnk. unfold first_lookups.
  destruct (is_bookmark type) eqn:Hty; cbn [negb].
  - unfold ret. by rewrite app_nil_r.
  - destruct Hnk as [?|Hnone]; [congruence|].
    unfold findUrlWithProvider. rewrite for_testUrls_run, testUrls_variants.
    by rewrite Hnone, (take_through_all _ _ Hnone).
Qed.

(** A request whose page fetch the guard rejects. *)
Lemma resolve_later_rejected url type t :
  not_known W url type ->
  isIpOrLocalhost W this url = true ->
  resolve_later W this url type t
  = (Throw (unknown_provider_outcome url), t ++ first_lookups url type).
Proof.
  intros Hnk Hguard.
  assert (Hsteps : later_stages W this url type t
                   = (Throw (unknown_provider_outcome url),
                      t ++ first_lookups url type)).
  { unfold later_stages.
    rewrite (bind_return _ _ _ _ _ (first_lookup_run _ _ _ Hnk)).
    cbn [pm_provider]. apply bind_throw.
    unfold fetchPageHtml. apply bind_throw.
    unfold fetchPage. by apply externalRequest_unsafe_url. }
  unfold resolve_later, settle. apply bind_throw.
  by rewrite (try_catch_throw _ _ _ _ _ Hsteps).
Qed.

Lemma resolve_steps_caught url type u t e t2 :
  URL_parse W url = Some u ->
  resolve_steps W this u (String_trim W url) type t = (Throw e, t2) ->
  fetchOembedDataFromUrl W this url type t
  = if isValidationError e then (Throw e, t2)
    else (Throw (unknown_provider_outcome (String_trim W url)),
          t2 ++ [ELog (InternalServerError catch_all_message (Some e))]).
Proof.
  intros Hu Hsteps. unfold fetchOembedDataFromUrl. rewrite Hu.
  unfold settle, try_catch, bind. rewrite Hsteps.
  unfold on_error. by destruct (isValidationError e).
Qed.

Lemma fetchOembedDataFromUrl_unparseable url type t :
  URL_parse W url = None ->
  fetchOembedDataFromUrl W this url type t
  = (Throw (unknown_provider_outcome url),
     t ++ [ELog (InternalServerError catch_all_message (Some invalid_url))]).
Proof. intros Hu. unfold fetchOembedDataFromUrl. by rewrite Hu. Qed.

Lemma resolution_failures url type t t1 e t' :
  providers_decline W this url t t1 ->
  fetchOembedDataFromUrl W this url type t = (Throw e, t') ->
  resolution_failure W this (String_trim W url) e.
Proof.
  intros Hdecline. rewrite (resolve_after_providers _ _ _ _ _ _ Hdecline).
  intros Hrun.
  by destruct (triple_run _ _ _ _ _ _ _
                 (resolve_later_triple W this (String_trim W url) type) Hrun)
    as (_ & _ & _ & He).
Qed.

(** A request for a URL the directory knows, when [extract] fails. *)
Lemma known_provider_failure url type t t1 providerUrl je :
  providers_decline W this url t t1 ->
  is_bookmark type = false ->
  List.find (hasProvider W) (variants (strip_scheme_www (String_trim W url)))
  = Some providerUrl ->
  extract W providerUrl = inl je ->
  fetchOembedDataFromUrl W this url type t
  = (Throw (InternalServerError (err_message je) None),
     t1 ++ map EHasProvider
             (take_through (hasProvider W)
                (variants (strip_scheme_www (String_trim W url))))
        ++ [EExtract providerUrl]).
Proof.
  intros Hdecline Hty Hfind Hextract.
  rewrite (resolve_after_providers _ _ _ _ _ _ Hdecline).
  set (url' := String_trim W url) in *.
  set (lookups := map EHasProvider _).
  assert (Hsteps : later_stages W this url' type t1
                   = (Return (knownProvider W providerUrl), t1 ++ lookups)).
  { unfold later_stages. rewrite Hty. cbn [negb].
    erewrite bind_return; cycle 1.
    { unfold findUrlWithProvider.
      rewrite for_testUrls_run, testUrls_variants, Hfind. reflexivity. }
    reflexivity. }
  unfold resolve_later, settle.
  rewrite (bind_return _ _ _ _ _ (try_catch_return _ _ _ _ _ Hsteps)).
  unfold knownProvider, try_catch, bind, emit, call. rewrite Hextract.
  cbn [throw error_message]. by rewrite <- app_assoc.
Qed.
End Failures.

Section FailureSurface.
Variables (W : World) (this : OEmbed).

Lemma fetchBookmarkData_untitled url html t scraped :
  metascraper W html url = inr scraped ->
  truthy (field scraped "title") = false ->
  fetchBookmarkData W url html t
  = (Throw (ValidationError messages.insufficientMetadata url),
     t ++ [EMetascraper html url]).
Proof. intros Hs Ht. by rewrite fetchBookmarkData_run, Hs, Ht. Qed.

Lemma first_lookups_no_request url type :
  Forall (fun ev => is_request ev = false) (first_lookups url type).
Proof.
  unfold first_lookups. destruct (is_bookmark type); [apply Forall_nil_2|].
  apply List.Forall_forall. intros ev Hin. apply in_map_iff in Hin.
  by destruct Hin as (u & <- & _).
Qed.

(** C1: the guarded fetcher issues no request for a URL the guard
    rejects and throws the unknown-provider error for it; when the
    final URL of the response is rejected, the response is dropped
    and the same error is thrown; a response is handed to the caller
    only after the guard has accepted both the requested URL and the
    final URL.  So a resolution that gets to its page fetch with a
    URL the guard rejects ends with the unknown-provider error, and
    what it appended to the trace contains no request. *)
Theorem externalRequest_guarded :
  (forall url cfg t,
      isIpOrLocalhost W this url = true ->
      externalRequest W this url cfg t
      = (Throw (unknown_provider_outcome url), t))
  /\ (forall url cfg t r,
        isIpOrLocalhost W this url = false ->
        injectedRequest this url cfg = inr r ->
        isIpOrLocalhost W this (resp_url r) = true ->
        externalRequest W this url cfg t
        = (Throw (unknown_provider_outcome url), t ++ [ERequest url cfg]))
  /\ (forall url cfg t r t',
        externalRequest W this url cfg t = (Return r, t') ->
        isIpOrLocalhost W this url = false
        /\ injectedRequest this url cfg = inr r
        /\ isIpOrLocalhost W this (resp_url r) = false)
  /\ (forall url type t t1,
        providers_decline W this url t t1 ->
        not_known W (String_trim W url) type ->
        isIpOrLocalhost W this (String_trim W url) = true ->
        fetchOembedDataFromUrl W this url type t
        = (Throw (unknown_provider_outcome (String_trim W url)),
           t1 ++ first_lookups (String_trim W url) type)
        /\ Forall (fun ev => is_request ev = false)
             (first_lookups (String_trim W url) type)).
Proof.
  split; [intros; by apply externalRequest_unsafe_url|].
  split; [intros; by eapply externalRequest_unsafe_final|].
  split.
  { intros url cfg t r t' Hrun. apply externalRequest_returns in Hrun. tauto. }
  intros url type t t1 Hdecline Hnk Hguard.
  split; [|apply first_lookups_no_request].
  rewrite (resolve_after_providers _ _ _ _ _ _ Hdecline).
  by apply resolve_later_rejected.
Qed.

(** C6, amended: a bookmark extraction whose scraped metadata has no
    title throws the insufficient-metadata [ValidationError] with the
    URL it was called for, and the orchestrator hands that error to
    the caller unchanged and unlogged, in a bookmark request as in
    the fallback after discovery.  Of the exceptions thrown at an
    awaited step inside the [try] block, every [ValidationError]
    passes to the caller unchanged and unlogged, and every other
    exception is logged and replaced by the unknown-provider error for
    the requested URL. *)
Theorem insufficient_metadata_propagates :
  (forall url html t scraped,
      metascraper W html url = inr scraped ->
      truthy (field scraped "title") = false ->
      fetchBookmarkData W url html t
      = (Throw (ValidationError messages.insufficientMetadata url),
         t ++ [EMetascraper html url]))
  /\ (forall url t t1 page t2 scraped,
        providers_decline W this url t t1 ->
        fetchPageHtml W this (String_trim W url) t1 = (Return page, t2) ->
        metascraper W (html_body page) (String_trim W url) = inr scraped ->
        truthy (field scraped "title") = false ->
        fetchOembedDataFromUrl W this url (Some "bookmark") t
        = (Throw (ValidationError messages.insufficientMetadata (String_trim W url)),
           t2 ++ [EMetascraper (html_body page) (String_trim W url)]))
  /\ (forall url type t page t4 data t5 scraped,
        reaches_discovery W this url type t page t4 ->
        fetchOembedData W this (String_trim W url) (html_body page) None t4
        = (Return data, t5) ->
        truthy data = false ->
        truthy (of_opt type) = false ->
        metascraper W (html_body page) (String_trim W url) = inr scraped ->
        truthy (field scraped "title") = false ->
        fetchOembedDataFromUrl W this url type t
        = (Throw (ValidationError messages.insufficientMetadata (String_trim W url)),
           t5 ++ [EMetascraper (html_body page) (String_trim W url)]))
  /\ (forall url type urlObject t e t2,
        URL_parse W url = Some urlObject ->
        resolve_steps W this urlObject (String_trim W url) type t = (Throw e, t2) ->
        fetchOembedDataFromUrl W this url type t
        = if isValidationError e then (Throw e, t2)
          else (Throw (unknown_provider_outcome (String_trim W url)),
                t2 ++ [ELog (InternalServerError catch_all_message (Some e))])).
Proof.
  split; [intros; by eapply fetchBookmarkData_untitled|].
  split.
  { intros url t t1 page t2 scraped Hdecline Hpage Hs Ht.
    rewrite (resolve_after_providers _ _ _ _ _ _ Hdecline).
    rewrite (resolve_later_bookmark_page _ _ _ _ _ _ Hpage).
    by apply (fetchBookmarkData_untitled _ _ _ scraped). }
  split.
  { intros url type t page t4 data t5 scraped Hreach Hdata Hfalsy Hty Hs Ht.
    rewrite (resolve_at_discovery _ _ _ _ _ _ _ Hreach).
    rewrite (discover_or_bookmark_fallback _ _ _ _ _ _ _ _ Hdata Hfalsy Hty).
    by apply (fetchBookmarkData_untitled _ _ _ scraped). }
  intros; by eapply resolve_steps_caught.
Qed.

Lemma resolve_later_caught url type t1 e t2 :
  later_stages W this url type t1 = (Throw e, t2) ->
  resolve_later W this url type t1
  = if isValidationError e then (Throw e, t2)
    else (Throw (unknown_provider_outcome url),
          t2 ++ [ELog (InternalServerError catch_all_message (Some e))]).
Proof.
  intros Hsteps. unfold resolve_later, settle, try_catch, bind.
  rewrite Hsteps. unfold on_error. by destruct (isValidationError e).
Qed.

Lemma resolve_later_settled url type t1 p t2 :
  later_stages W this url type t1 = (Return p, t2) ->
  resolve_later W this url type t1 = p t2.
Proof.
  intros Hsteps. unfold resolve_later, settle, try_catch, bind.
  by rewrite Hsteps.
Qed.

(** A failed page fetch ends the resolution with an error for the
    requested URL. *)
Lemma resolve_later_fetch_failed url type t1 e t2 r t' :
  later_stages W this url type t1 = (Throw e, t2) ->
  fetch_failure url e ->
  resolve_later W this url type t1 = (r, t') ->
  r = Throw (unknown_provider_outcome url).
Proof.
  intros Hsteps He. rewrite (resolve_later_caught _ _ _ _ _ Hsteps).
  destruct He as [->|[je ->]]; by intros [= <- _].
Qed.

(** What the resolution can throw from the call of [fetchOembedData]
    on, for the page body [body]. *)
Lemma discovery_stage_triple url body type :
  triple (settle (try_catch (discover_or_bookmark W this url body type)
                    (on_error url)))
    (fun _ => True) (fun _ => True)
    (fun e => e = unknown_provider_outcome url
              \/ e = ValidationError messages.insufficientMetadata url
              \/ endpoint_rejected W this body e).
Proof.
  apply triple_settle.
  eapply (triple_try_catch _ _ _ _
            (fun e => (e = unknown_provider_outcome url
                       \/ e = ValidationError messages.insufficientMetadata url
                       \/ endpoint_rejected W this body e)
                      \/ foreign e)).
  - unfold discover_or_bookmark.
    eapply (triple_bind _ _ _ (fun _ => True)).
    { eapply triple_weaken; [apply fetchOembedData_triple|done|done|].
      intros e [->|[He|He]]; [left; by left|left; by right; right|by right]. }
    intros data _. eapply (triple_bind _ _ _ (fun _ => True)).
    { destruct (negb (truthy data) && negb (truthy (of_opt type)));
        [|by apply triple_ret].
      eapply triple_weaken; [apply fetchBookmarkData_triple|done|done|].
      intros e [-> | ->]; left; [by left|by right; left]. }
    intros data' _. destruct (negb (truthy data')).
    + apply triple_ret. apply triple_throw. by left.
    + apply triple_ret. by apply triple_ret.
  - intros e He. apply on_error_passes; [|by left].
    intros Hval. destruct He as [He|[je ->]]; [done|discriminate].
Qed.

(** A fetch the guard rejects throws the unknown-provider error for
    the address of the fetch. *)
Lemma externalRequest_rejected url cfg t :
  guard_rejects W this url cfg ->
  exists t',
    externalRequest W this url cfg t
    = (Throw (unknown_provider_outcome url), t').
Proof.
  intros Hguard. unfold externalRequest.
  destruct (isIpOrLocalhost W this url) eqn:Hurl; [by eexists|].
  destruct Hguard as [Hguard|(r & Hreq & Hfinal)]; [congruence|].
  unfold bind, emit, call. rewrite Hreq. cbn [ret]. rewrite Hfinal.
  by eexists.
Qed.

Lemma rejected_endpoint_surfaces url type t page t4 oembedUrl :
  reaches_discovery W this url type t page t4 ->
  cheerio_href W (html_body page) = inr (Some oembedUrl) ->
  oembedUrl <> "" ->
  test false WP_REGEX oembedUrl = false ->
  guard_rejects W this oembedUrl (fetchPage_config {[ "json" := VBool true ]}) ->
  (fetchOembedDataFromUrl W this url type t).1
  = Throw (unknown_provider_outcome oembedUrl).
Proof.
  intros Hreach Hlink Hne Hwp Hguard.
  rewrite (resolve_at_discovery _ _ _ _ _ _ _ Hreach).
  destruct (externalRequest_rejected oembedUrl _ (t4 ++ [ECheerio (html_body page)])
              Hguard) as (t5 & Hreq).
  assert (Hdata : fetchOembedData W this (String_trim W url) (html_body page)
                    None t4
                  = (Throw (unknown_provider_outcome oembedUrl), t5)).
  { unfold fetchOembedData.
    unfold bind at 1. unfold try_catch at 1. unfold bind at 1.
    unfold emit, call. rewrite Hlink. cbn [ret].
    rewrite (truthy_nonempty _ Hne), Hwp. cbn [negb of_opt truthy andb].
    apply bind_throw. unfold fetchPageJson. apply bind_throw. exact Hreq. }
  unfold settle, try_catch, discover_or_bookmark.
  unfold bind at 1. unfold bind at 1. by rewrite Hdata.
Qed.

(** The context of a [ValidationError] of a resolution, stage by
    stage. *)
Lemma validation_error_contexts url type t t1 m c t' :
  providers_decline W this url t t1 ->
  fetchOembedDataFromUrl W this url type t
  = (Throw (ValidationError m c), t') ->
  (m = messages.unknownProvider /\ c = String_trim W url)
  \/ (m = messages.insufficientMetadata /\ c = String_trim W url)
  \/ (m = messages.unknownProvider
      /\ exists page t4,
           reaches_discovery W this url type t page t4
           /\ cheerio_href W (html_body page) = inr (Some c)
           /\ guard_rejects W this c
                (fetchPage_config {[ "json" := VBool true ]})).
Proof.
  intros Hdecline Hrun. pose proof Hrun as Hlater.
  rewrite (resolve_after_providers _ _ _ _ _ _ Hdecline) in Hlater.
  set (url' := String_trim W url) in *.
  assert (Hknown_provider : forall providerUrl t2,
    later_stages W this url' type t1
    = (Return (knownProvider W providerUrl), t2) -> False).
  { intros providerUrl t2 Hsteps.
    rewrite (resolve_later_settled _ _ _ _ _ Hsteps) in Hlater.
    destruct (triple_run _ _ _ _ _ _ _ (knownProvider_triple W providerUrl) Hlater)
      as (_ & _ & _ & (p & je & _ & [=])). }
  assert (Hbookmark : forall body t2,
    later_stages W this url' type t1
    = (Return (fetchBookmarkData W url' body), t2) ->
    (m = messages.unknownProvider /\ c = url')
    \/ (m = messages.insufficientMetadata /\ c = url')).
  { intros body t2 Hsteps.
    rewrite (resolve_later_settled _ _ _ _ _ Hsteps) in Hlater.
    destruct (triple_run _ _ _ _ _ _ _ (fetchBookmarkData_triple W url' body) Hlater)
      as (_ & _ & _ & [[= -> ->]|[= -> ->]]); [by left|by right]. }
  assert (Hfetch : forall e t2,
    later_stages W this url' type t1 = (Throw e, t2) ->
    fetch_failure url' e ->
    m = messages.unknownProvider /\ c = url').
  { intros e t2 Hsteps He.
    by pose proof (resolve_later_fetch_failed _ _ _ _ _ _ _ Hsteps He Hlater)
      as [= -> ->]. }
  assert (Hlookup : forall u t0,
    exists known t2, findUrlWithProvider W u t0 = (Return known, t2)).
  { intros u t0.
    destruct (findUrlWithProvider W u t0) as [[known|e] t2] eqn:Hk; [by eauto|].
    by destruct (triple_run _ _ _ _ _ _ _ (findUrlWithProvider_triple W u) Hk)
      as (_ & _ & _ & []). }
  assert (Hpage : forall t2,
    match fetchPageHtml W this url' t2 with
    | (Return _, _) => True
    | (Throw e, _) => fetch_failure url' e
    end).
  { intros t2. destruct (fetchPageHtml W this url' t2) as [[page|e] t3] eqn:Hp;
      [done|].
    by destruct (triple_run _ _ _ _ _ _ _ (fetchPageHtml_triple W this url') Hp)
      as (_ & _ & _ & He). }
  destruct (is_bookmark type) eqn:Hty.
  - (* a bookmark request *)
    specialize (Hpage t1).
    destruct (fetchPageHtml W this url' t1) as [[page|e] t2] eqn:Hp.
    + destruct (Hbookmark (html_body page) t2) as [H|H]; [|by left|by right; left].
      unfold later_stages. rewrite Hty. cbn [negb].
      unfold bind at 1. cbn [ret pm_provider].
      unfold bind at 1. by rewrite Hp.
    + left. apply (Hfetch e t2); [|done].
      unfold later_stages. rewrite Hty. cbn [negb].
      unfold bind at 1. cbn [ret pm_provider].
      unfold bind at 1. by rewrite Hp.
  - destruct (Hlookup url' t1) as (known & t2 & Hknown).
    destruct (pm_provider known) eqn:Hpm.
    { exfalso. apply (Hknown_provider (pm_url known) t2).
      unfold later_stages. rewrite Hty. cbn [negb].
      unfold bind at 1. by rewrite Hknown, Hpm. }
    specialize (Hpage t2).
    destruct (fetchPageHtml W this url' t2) as [[page|e] t3] eqn:Hp; cycle 1.
    { left. apply (Hfetch e t3); [|done].
      unfold later_stages. rewrite Hty. cbn [negb].
      unfold bind at 1. rewrite Hknown, Hpm.
      unfold bind at 1. by rewrite Hp. }
    assert (Hreach : (exists t4, reaches_discovery W this url type t page t4)
                     \/ exists providerUrl t4,
                          later_stages W this url' type t1
                          = (Return (knownProvider W providerUrl), t4)).
    { destruct (String.eqb (html_url page) url') eqn:Hsame.
      - left. exists t3, t1, t2, t3, known.
        split; [done|]. split; [done|]. split; [done|]. split; [done|].
        split; [done|]. fold url'. by rewrite Hsame.
      - destruct (Hlookup (html_url page) t3) as (redirected & t4 & Hred).
        destruct (pm_provider redirected) eqn:Hpm'.
        + right. exists (pm_url redirected), t4.
          unfold later_stages. rewrite Hty. cbn [negb].
          unfold bind at 1. rewrite Hknown, Hpm.
          unfold bind at 1. rewrite Hp. cbv zeta. cbn [html_url html_body].
          rewrite Hsame. cbn [negb].
          unfold bind at 1. by rewrite Hred, Hpm'.
        + left. exists t4, t1, t2, t3, known.
          split; [done|]. split; [done|]. split; [done|]. split; [done|].
          split; [done|]. fold url'. rewrite Hsame. by exists redirected. }
    destruct Hreach as [[t4 Hreach]|(providerUrl & t4 & Hsteps)];
      [|by destruct (Hknown_provider providerUrl t4)].
    rewrite (resolve_at_discovery _ _ _ _ _ _ _ Hreach) in Hrun.
    destruct (triple_run _ _ _ _ _ _ _
                (discovery_stage_triple url' (html_body page) type) Hrun)
      as (_ & _ & _ & [[= -> ->]|[[= -> ->]|(oembedUrl & Hlink & Hguard & [= -> ->])]]).
    + by left.
    + by right; left.
    + right; right. split; [done|]. by exists page, t4.
Qed.

(** C7, amended: once the providers have declined, a
    [ValidationError] of a resolution is the unknown-provider error
    or the insufficient-metadata error with the requested URL
    (trimmed) as context, or the unknown-provider error whose context
    is the address of the oEmbed endpoint that the page fetched in
    this resolution links to, and then the guard has rejected the
    JSON fetch of that endpoint (the address itself, or the final URL
    of the response); a URL that does not parse gives the
    unknown-provider error with the URL as given; and a rejection by
    the guard is the unknown-provider error itself, so a request whose
    page fetch the guard rejects ends exactly like one for which
    nothing was found.  The other way round, when the guard rejects
    the fetch of the endpoint the fetched page links to (not a
    WordPress endpoint), the caller gets the unknown-provider error
    with the address of that endpoint as context. *)
Theorem validation_error_context :
  (forall url type t t1 m c t',
      providers_decline W this url t t1 ->
      fetchOembedDataFromUrl W this url type t
      = (Throw (ValidationError m c), t') ->
      (m = messages.unknownProvider /\ c = String_trim W url)
      \/ (m = messages.insufficientMetadata /\ c = String_trim W url)
      \/ (m = messages.unknownProvider
          /\ exists page t4,
               reaches_discovery W this url type t page t4
               /\ cheerio_href W (html_body page) = inr (Some c)
               /\ guard_rejects W this c
                    (fetchPage_config {[ "json" := VBool true ]})))
  /\ (forall url type t page t4 oembedUrl,
        reaches_discovery W this url type t page t4 ->
        cheerio_href W (html_body page) = inr (Some oembedUrl) ->
        oembedUrl <> "" ->
        test false WP_REGEX oembedUrl = false ->
        guard_rejects W this oembedUrl
          (fetchPage_config {[ "json" := VBool true ]}) ->
        (fetchOembedDataFromUrl W this url type t).1
        = Throw (unknown_provider_outcome oembedUrl))
  /\ (forall url type t,
        URL_parse W url = None ->
        (fetchOembedDataFromUrl W this url type t).1
        = Throw (unknown_provider_outcome url))
  /\ (forall url cfg t,
        isIpOrLocalhost W this url = true ->
        externalRequest W this url cfg t = unknownProvider url t)
  /\ (forall url type t t1,
        providers_decline W this url t t1 ->
        not_known W (String_trim W url) type ->
        isIpOrLocalhost W this (String_trim W url) = true ->
        (fetchOembedDataFromUrl W this url type t).1
        = Throw (unknown_provider_outcome (String_trim W url))).
Proof.
  split.
  { intros url type t t1 m c t' Hdecline Hrun.
    by apply (validation_error_contexts _ _ _ _ _ _ _ Hdecline Hrun). }
  split.
  { intros url type t page t4 oembedUrl Hreach Hlink Hne Hwp Hguard.
    by apply (rejected_endpoint_surfaces _ _ _ _ _ _ Hreach Hlink Hne Hwp Hguard). }
  split.
  { intros url type t Hu. by rewrite fetchOembedDataFromUrl_unparseable. }
  split.
  { intros url cfg t Hguard. by rewrite externalRequest_unsafe_url. }
  intros url type t t1 Hdecline Hnk Hguard.
  rewrite (resolve_after_providers _ _ _ _ _ _ Hdecline).
  by rewrite resolve_later_rejected.
Qed.

(** C10: when the configured site URL does not parse, the guard
    answers [true] for every URL, every call of the guarded fetcher
    throws the unknown-provider error without a request, and every
    resolution that gets to its page fetch ends with the
    unknown-provider error for the requested URL. *)
Theorem unparseable_site_url_rejects_all :
  URL_parse W (config_get this "url") = None ->
  (forall url, isIpOrLocalhost W this url = true)
  /\ (forall url cfg t,
        externalRequest W this url cfg t
        = (Throw (unknown_provider_outcome url), t))
  /\ (forall url type t t1,
        providers_decline W this url t t1 ->
        not_known W (String_trim W url) type ->
        fetchOembedDataFromUrl W this url type t
        = (Throw (unknown_provider_outcome (String_trim W url)),
           t1 ++ first_lookups (String_trim W url) type)).
Proof.
  intros Hsite.
  assert (Hguard : forall url, isIpOrLocalhost W this url = true)
    by (intros url; by apply isIpOrLocalhost_bad_config).
  split; [done|]. split.
  - intros url cfg t. by apply externalRequest_unsafe_url.
  - intros url type t t1 Hdecline Hnk.
    rewrite (resolve_after_providers _ _ _ _ _ _ Hdecline).
    by apply resolve_later_rejected.
Qed.
End FailureSurface.

(** * The properties on the concrete world *)

Example dotted_quads_matched :
  map (test false IPV4_REGEX)
    ["127.0.0.1"; "10.0.0.8"; "255.255.255.255"; "256.0.0.1"; "1.2.3";
     "1.2.3.4.5"; "example.com"; "1.2.3.4x"]
  = [true; true; true; false; false; false; false; false].
Proof. reflexivity. Qed.

Example schemes_matched :
  map (test true HTTP_REGEX) ["http:"; "https:"; "HTTPS:"; "ftp:"; "file:"; "xhttp:"]
  = [true; true; true; false; false; false].
Proof. reflexivity. Qed.

Example base_urls :
  map baseUrl
    ["https://www.youtube.com/watch?v=1"; "http://vimeo.com/1";
     "//cdn.example.com/a"; "ftp://example.com/"; "HTTP://EXAMPLE.COM/"]
  = ["youtube.com/watch?v=1"; "vimeo.com/1";
     "cdn.example.com/a"; "ftp://example.com/"; "HTTP://EXAMPLE.COM/"].
Proof. reflexivity. Qed.

Example guard_on_the_blog :
  map (isIpOrLocalhost Demo.world Demo.blog)
    ["https://example.com/"; "http://localhost:2368/"; "http://127.0.0.1/oembed";
     "ftp://example.com/"; "not a url"; "https://blog.example.org/post";
     "ftp://blog.example.org/file"]
  = [false; true; true; true; true; false; false].
Proof. reflexivity. Qed.

(** A page with OpenGraph title and image resolves to a bookmark whose
    metadata has the title and, as [thumbnail], the image. *)
Example plain_page_bookmark :
  (fetchOembedDataFromUrl Demo.world Demo.blog "https://example.com/" None []).1
  = Return (bookmark_payload "https://example.com/"
              {[ "url" := VStr "https://example.com/";
                 "title" := VStr "Example";
                 "thumbnail" := VStr "http://x/img.png";
                 "icon" := VStr "http://x/favicon.ico" ]}).
Proof. vm_compute. reflexivity. Qed.


Lemma externalRequest_guarded_witness :
  (isIpOrLocalhost Demo.world Demo.blog "http://127.0.0.1/oembed" = true
   /\ externalRequest Demo.world Demo.blog "http://127.0.0.1/oembed" ∅ []
      = (Throw (unknown_provider_outcome "http://127.0.0.1/oembed"), []))
  /\ (isIpOrLocalhost Demo.world Demo.blog "http://10.0.0.8/admin" = true
      /\ externalRequest Demo.world Demo.blog "https://example.com/moved" ∅ []
         = (Throw (unknown_provider_outcome "https://example.com/moved"),
            [ERequest "https://example.com/moved" ∅]))
  /\ isIpOrLocalhost Demo.world Demo.blog "https://example.com/" = false
  /\ fetchOembedDataFromUrl Demo.world Demo.blog
       "http://localhost:2368/ghost/" (Some "bookmark") []
     = (Throw (unknown_provider_outcome "http://localhost:2368/ghost/"), []).
Proof.
  pose proof (externalRequest_guarded Demo.world Demo.blog)
    as (Hurl & Hfinal & Hreturn & Hresolve).
  split; [split; [reflexivity|]|split; [split; [reflexivity|]|split]].
  - apply Hurl. reflexivity.
  - apply (Hfinal "https://example.com/moved" ∅ []
             (Response "http://10.0.0.8/admin" (VObj ∅) (VBuf Demo.page_plain)));
      reflexivity.
  - apply (Hreturn "https://example.com/" ∅ []
             (Response "https://example.com/" (VObj ∅) (VBuf Demo.page_plain))
             [ERequest "https://example.com/" ∅]).
    reflexivity.
  - refine (proj1 (Hresolve "http://localhost:2368/ghost/" (Some "bookmark")
                     [] [] _ _ _)).
    + exists (MkURL "http:" "localhost" "localhost:2368"). split; reflexivity.
    + left. reflexivity.
    + reflexivity.
Defined.

Lemma isIpOrLocalhost_rules_witness :
  URL_parse Demo.world (config_get Demo.blog "url")
  = Some (MkURL "https:" "blog.example.org" "blog.example.org")
  /\ guard_follows_rules Demo.world Demo.blog.
Proof.
  split; [reflexivity|].
  apply (isIpOrLocalhost_rules Demo.world Demo.blog
           (MkURL "https:" "blog.example.org" "blog.example.org")).
  reflexivity.
Defined.

(** With a site address that is not a URL the guard rejects
    [https://example.com/], which parses, is not the site's own host
    and falls under none of the rules. *)
Lemma guard_rules_fail_when_misconfigured :
  ~ guard_follows_rules Demo.world Demo.misconfigured.
Proof.
  intros Hrules.
  destruct (Hrules "https://example.com/") as [Hunsafe _].
  destruct (Hunsafe eq_refl) as [_ [Hnone|(u & Hu & Hparts)]].
  - discriminate Hnone.
  - injection Hu as <-.
    destruct Hparts as [H|[H|[H|H]]].
    + apply H. right. by exists [].
    + discriminate H.
    + apply IPV4_REGEX_dotted_quad in H. discriminate H.
    + unfold has_colon in H. simpl in H.
      repeat (destruct H as [H|H]; [discriminate H|]). exact H.
Qed.

(** The directory knows [https://www.youtube.com/watch?v=1].  Given
    with the scheme in upper case, the address is not recognised: the
    expression of the matcher has no [i] flag, nothing is stripped,
    and the four addresses tested are the input behind [http://],
    [https://], [http://www.] and [https://www.]. *)
Lemma upper_case_scheme_is_kept :
  ~ strips_any_scheme_and_www Demo.world.
Proof.
  intros Hspec.
  assert (Hcode :
    findUrlWithProvider Demo.world "HTTPS://www.youtube.com/watch?v=1" []
    = (Return (ProviderMatch "HTTPS://www.youtube.com/watch?v=1" false),
       [EHasProvider "http://HTTPS://www.youtube.com/watch?v=1";
        EHasProvider "https://HTTPS://www.youtube.com/watch?v=1";
        EHasProvider "http://www.HTTPS://www.youtube.com/watch?v=1";
        EHasProvider "https://www.HTTPS://www.youtube.com/watch?v=1"]))
    by (vm_compute; reflexivity).
  assert (Hbase :
    strip_any_scheme_www "HTTPS://www.youtube.com/watch?v=1"
    = "youtube.com/watch?v=1") by reflexivity.
  specialize (Hspec "HTTPS://www.youtube.com/watch?v=1" []).
  cbv zeta in Hspec. rewrite Hcode, Hbase in Hspec.
  vm_compute in Hspec. discriminate Hspec.
Qed.

(** The other prefixes the expression leaves in place. *)
Example prefixes_left_in_place :
  map baseUrl
    ["ftp://example.com/a"; "www.example.com/a"; "//www.example.com/a";
     "Http://example.com/a"]
  = ["ftp://example.com/a"; "www.example.com/a"; "www.example.com/a";
     "Http://example.com/a"]
  /\ map strip_any_scheme_www
       ["ftp://example.com/a"; "www.example.com/a"; "//www.example.com/a";
        "Http://example.com/a"]
     = ["example.com/a"; "example.com/a"; "example.com/a"; "example.com/a"].
Proof. split; reflexivity. Qed.

Lemma custom_provider_result_wins_witness :
  fetchOembedDataFromUrl Demo.world
    (foldl registerProvider Demo.blog Cases.registered)
    "https://example.com/" None []
  = (Return Demo.card, []).
Proof.
  apply (proj1 (custom_provider_result_wins Demo.world
                  (foldl registerProvider Demo.blog Cases.registered)
                  Demo.blog Cases.registered
                  "https://example.com/" None []
                  (MkURL "https:" "example.com" "example.com")
                  eq_refl eq_refl eq_refl)
           [Demo.refusing_provider; Cases.silent_provider]
           Demo.fixed_provider [Cases.broken_provider] [] [] [] Demo.card).
  - reflexivity.
  - exists []. split; [by left|].
    exists []. split; [|reflexivity].
    right. exists []. split; reflexivity.
  - reflexivity.
  - reflexivity.
  - discriminate.
Defined.

Lemma bookmark_request_skips_oembed_witness :
  (exists evs,
      (fetchOembedDataFromUrl Demo.world Demo.blog
         "https://example.com/" (Some "bookmark") []).2 = [] ++ evs
      /\ Forall (bookmark_event "https://example.com/") evs)
  /\ (forall page t2,
        fetchPageHtml Demo.world Demo.blog "https://example.com/" []
        = (Return page, t2) ->
        fetchOembedDataFromUrl Demo.world Demo.blog
          "https://example.com/" (Some "bookmark") []
        = fetchBookmarkData Demo.world "https://example.com/" (html_body page) t2).
Proof.
  apply (bookmark_request_skips_oembed Demo.world Demo.blog
           "https://example.com/" [] []).
  exists (MkURL "https:" "example.com" "example.com").
  split; reflexivity.
Defined.

Lemma incomplete_oembed_falls_back_witness :
  exists t5,
    fetchOembedData Demo.world Demo.blog
      "https://example.com/photo" Demo.page_photo None
      (map EHasProvider (variants "example.com/photo")
         ++ [ERequest "https://example.com/photo"
               (<["encoding" := VStr "binary"]>
                  (<["responseType" := VStr "buffer"]>
                     (<["cookieJar" := VObj ∅]>
                        (<["method" := VStr "GET"]>
                           (<["timeout" := VNum 2000]>
                              (<["followRedirect" := VBool true]> ∅))))))])
    = (Return VUndefined, t5)
    /\ fetchOembedDataFromUrl Demo.world Demo.blog
         "https://example.com/photo" None []
       = fetchBookmarkData Demo.world
           "https://example.com/photo" Demo.page_photo t5.
Proof.
  eexists.
  eapply (incomplete_oembed_falls_back Demo.world Demo.blog
            "https://example.com/photo" None []
            (HtmlPage Demo.page_photo "https://example.com/photo") _
            "https://media.example.net/oembed?id=7"
            (JsonPage (VObj {[ "type" := VStr "photo"; "version" := VStr "1.0" ]})
               "https://media.example.net/oembed?id=7")
            _ {[ "type" := VStr "photo"; "version" := VStr "1.0" ]}).
  - exists [], (map EHasProvider (variants "example.com/photo")).
    eexists. exists (ProviderMatch "https://example.com/photo" false).
    split; [exists (MkURL "https:" "example.com" "example.com"); split; reflexivity|].
    split; [reflexivity|]. split; [reflexivity|]. split; [reflexivity|].
    split; [vm_compute; reflexivity|]. reflexivity.
  - reflexivity.
  - reflexivity.
  - discriminate.
  - reflexivity.
  - vm_compute. reflexivity.
  - reflexivity.
  - left. split; reflexivity.
Defined.

Lemma insufficient_metadata_propagates_witness :
  fetchOembedDataFromUrl Demo.world Demo.blog
    "https://example.com/untitled" (Some "bookmark") []
  = (Throw (ValidationError messages.insufficientMetadata
              "https://example.com/untitled"),
     (fetchPageHtml Demo.world Demo.blog "https://example.com/untitled" []).2
       ++ [EMetascraper Demo.page_untitled "https://example.com/untitled"]).
Proof.
  apply (proj1 (proj2 (insufficient_metadata_propagates Demo.world Demo.blog))
           "https://example.com/untitled" [] []
           (HtmlPage Demo.page_untitled "https://example.com/untitled")
           (fetchPageHtml Demo.world Demo.blog "https://example.com/untitled" []).2
           {[ "url" := VStr "https://example.com/untitled" ]}).
  - exists (MkURL "https:" "example.com" "example.com"). split; reflexivity.
  - vm_compute. reflexivity.
  - reflexivity.
  - reflexivity.
Defined.

(** A registered provider answers with a [ValidationError] of its own:
    the catch clause lets it through, and the caller gets it as it is. *)
Lemma provider_validation_error_passes :
  ~ failures_normalized Demo.world Demo.blog_with_members.
Proof.
  intros Hnorm.
  assert (Hrun : fetchOembedDataFromUrl Demo.world Demo.blog_with_members
                   "https://example.com/" None []
                 = (Throw (ValidationError "URL contains a private resource."
                             "members"), []))
    by (vm_compute; reflexivity).
  apply Hnorm in Hrun. destruct Hrun as (c & [H|H]); discriminate H.
Qed.

(** The directory knows [https://vimeo.com/1] and the extraction fails:
    [knownProvider] is not awaited, and the caller gets its
    [InternalServerError]. *)
Lemma known_provider_failure_escapes :
  fetchOembedDataFromUrl Demo.world Demo.blog "https://vimeo.com/1" None []
  = (Throw (InternalServerError "Request failed with error code 404" None),
     [EHasProvider "http://vimeo.com/1";
      EHasProvider "https://vimeo.com/1";
      EExtract "https://vimeo.com/1"]).
Proof. vm_compute. reflexivity. Qed.

Lemma validation_error_context_witness :
  exists page t4,
    reaches_discovery Demo.world Demo.blog
      "https://example.com/inward" None [] page t4
    /\ cheerio_href Demo.world (html_body page)
       = inr (Some "http://127.0.0.1/oembed")
    /\ guard_rejects Demo.world Demo.blog "http://127.0.0.1/oembed"
         (fetchPage_config {[ "json" := VBool true ]}).
Proof.
  destruct (proj1 (validation_error_context Demo.world Demo.blog)
              "https://example.com/inward" None [] []
              "No provider found for supplied URL." "http://127.0.0.1/oembed"
              (fetchOembedDataFromUrl Demo.world Demo.blog
                 "https://example.com/inward" None []).2)
    as [[_ Hctx]|[[Hmsg _]|[_ Hendpoint]]].
  - exists (MkURL "https:" "example.com" "example.com"). split; reflexivity.
  - vm_compute. reflexivity.
  - discriminate Hctx.
  - discriminate Hmsg.
  - exact Hendpoint.
Defined.

(** The page [https://example.com/inward] links to an oEmbed endpoint
    on a loopback address: the guard rejects the endpoint, and the
    error the caller gets has the endpoint as context. *)
Lemma rejected_endpoint_is_the_context :
  ~ context_is_requested_url Demo.world Demo.blog.
Proof.
  intros Hctx.
  assert (Hrun : fetchOembedDataFromUrl Demo.world Demo.blog
                   "https://example.com/inward" None []
                 = (Throw (ValidationError messages.unknownProvider
                             "http://127.0.0.1/oembed"),
                    (fetchOembedDataFromUrl Demo.world Demo.blog
                       "https://example.com/inward" None []).2))
    by (vm_compute; reflexivity).
  apply Hctx in Hrun. destruct Hrun as [H|H]; discriminate H.
Qed.

Lemma fetchBookmarkData_payload_witness :
  exists scraped metadata,
    metascraper Demo.world Demo.page_plain "https://example.com/" = inr scraped
    /\ bookmark_payload "https://example.com/"
         {[ "url" := VStr "https://example.com/";
            "title" := VStr "Example";
            "thumbnail" := VStr "http://x/img.png";
            "icon" := VStr "http://x/favicon.ico" ]}
       = VObj {[ "version" := VStr "1.0";
                 "type" := VStr "bookmark";
                 "url" := VStr "https://example.com/";
                 "metadata" := VObj metadata ]}
    /\ field metadata "thumbnail" = field scraped "image"
    /\ field metadata "icon" = field scraped "logo"
    /\ metadata !! "image" = None
    /\ metadata !! "logo" = None
    /\ (forall k, k <> "image" -> k <> "logo" ->
                  k <> "thumbnail" -> k <> "icon" ->
                  metadata !! k = scraped !! k).
Proof.
  apply (fetchBookmarkData_payload Demo.world
           "https://example.com/" Demo.page_plain []
           [EMetascraper Demo.page_plain "https://example.com/"]).
  vm_compute. reflexivity.
Defined.

Lemma unparseable_site_url_rejects_all_witness :
  (forall url, isIpOrLocalhost Demo.world Demo.misconfigured url = true)
  /\ (forall url cfg t,
        externalRequest Demo.world Demo.misconfigured url cfg t
        = (Throw (unknown_provider_outcome url), t))
  /\ (forall url type t t1,
        providers_decline Demo.world Demo.misconfigured url t t1 ->
        not_known Demo.world (String_trim Demo.world url) type ->
        fetchOembedDataFromUrl Demo.world Demo.misconfigured url type t
        = (Throw (unknown_provider_outcome (String_trim Demo.world url)),
           t1 ++ first_lookups (String_trim Demo.world url) type)).
Proof.
  apply (unparseable_site_url_rejects_all Demo.world Demo.misconfigured).
  reflexivity.
Defined.

(** * Further properties of the resolver *)

Section Requests.
Variables (W : World) (this : OEmbed).

Lemma externalRequest_requests (url : string) (cfg : request_config) :
  triple (externalRequest W this url cfg)
    (fun ev => ev = ERequest url cfg /\ isIpOrLocalhost W this url = false)
    (fun _ => True) (fetch_failure url).
Proof.
  unfold externalRequest.
  destruct (isIpOrLocalhost W this url) eqn:Hurl.
  { apply triple_throw. by left. }
  eapply (triple_bind _ _ _ (fun _ => True)).
  { apply (triple_emit _ _ (fun _ => True)); done. }
  intros _ _. eapply (triple_bind _ _ _ (fun _ => True)).
  { apply (triple_call _ _ (fun _ => True)); [done|].
    intros je _. right. by exists je. }
  intros r _. destruct (isIpOrLocalhost W this (resp_url r)).
  - apply triple_throw. by left.
  - by apply triple_ret.
Qed.

Lemma fetchPage_options (options : request_config) :
  (forall k, k ∈ ["method"; "timeout"; "followRedirect"; "cookieJar"] ->
             options !! k = None) ->
  fetch_options
    (options ∪ {[ "cookieJar" := VObj ∅;
                  "method" := VStr "GET";
                  "timeout" := VNum (2 * 1000);
                  "followRedirect" := VBool true ]}).
Proof.
  intros Hfree. unfold fetch_options.
  split_and!; (rewrite lookup_union_r; [reflexivity|apply Hfree; set_solver]).
Qed.

Lemma fetchPageHtml_requests (url : string) :
  triple (fetchPageHtml W this url)
    (fun ev => (page_request url ev /\ isIpOrLocalhost W this url = false)
               \/ is_log ev = true)
    (fun _ => True) (fetch_failure url).
Proof.
  unfold fetchPageHtml. eapply (triple_bind _ _ _ (fun _ => True)).
  { unfold fetchPage.
    eapply triple_weaken; [apply externalRequest_requests| |done|done].
    intros ev [-> Hguard]. left. split; [|done].
    eexists. split; [reflexivity|]. by split_and!. }
  intros r _. cbv zeta.
  eapply (triple_try_catch _ _ _ _ foreign).
  - eapply (triple_bind _ _ _ (fun _ => True)).
    { apply (triple_call _ _ (fun _ => True)); [done|].
      intros je _. by exists je. }
    intros [encoding|] _.
    + eapply (triple_bind _ _ _ (fun _ => True)).
      { apply (triple_call _ _ (fun _ => True)); [done|].
        intros je _. by exists je. }
      intros decodedBody _. by apply triple_ret.
    + eapply (triple_bind _ _ _ (fun _ => True)).
      { apply (triple_call _ _ (fun _ => True)); [done|].
        intros je _. by exists je. }
      intros raw _. by apply triple_ret.
  - intros e _. eapply (triple_bind _ _ _ (fun _ => True)).
    { apply (triple_emit _ _ (fun _ => True)); [by right|done]. }
    intros _ _. eapply (triple_bind _ _ _ (fun _ => True)).
    { apply (triple_call _ _ (fun _ => True)); [done|].
      intros je _. right. by exists je. }
    intros raw _. by apply triple_ret.
Qed.

Lemma fetchPageJson_requests (url : string) :
  triple (fetchPageJson W this url)
    (fun ev => json_request url ev /\ isIpOrLocalhost W this url = false)
    (fun _ => True) (fetch_failure url).
Proof.
  unfold fetchPageJson. eapply (triple_bind _ _ _ (fun _ => True)).
  { unfold fetchPage.
    eapply triple_weaken; [apply externalRequest_requests| |done|done].
    intros ev [-> Hguard]. split; [|done].
    eexists. split; [reflexivity|]. by split_and!. }
  intros r _. by apply triple_ret.
Qed.
End Requests.

Section Payloads.
Variables (W : World) (this : OEmbed).

Lemma get_prop_value (v : value) (k : string) (Q : event -> Prop) :
  triple (get_prop v k) Q (fun x => x = prop_of v k) foreign.
Proof.
  destruct v; simpl;
    first [ by apply triple_ret | apply triple_throw; by eexists ].
Qed.

Lemma is_str_eq (v : value) (s : string) : is_str v s = true <-> v = VStr s.
Proof.
  destruct v; simpl; try (split; [discriminate|by intros [=]]).
  rewrite String.eqb_eq. split; [by intros ->|by intros [= ->]].
Qed.

Lemma pick_dom (body : value) (keys : list string) (k : string) :
  is_Some (pick body keys !! k) -> k ∈ keys.
Proof.
  intros [x Hx]. destruct body; simpl in Hx; try by rewrite lookup_empty in Hx.
  by apply map_lookup_filter_Some in Hx as [_ Hk].
Qed.

Lemma pick_field_of (body : value) (k : string) :
  k ∈ knownFields -> field (pick body knownFields) k = prop_of body k.
Proof.
  intros Hk. destruct body; try reflexivity. by apply pick_field.
Qed.

(** The checks of the discoverer, read as facts about the payload. *)
Lemma pick_well_formed (body : value) :
  let oembed := pick body knownFields in
  truthy (if truthy (prop_of body "type") then prop_of body "version"
          else prop_of body "type")
  && existsb (is_str (prop_of body "type")) oembed_types = true ->
  is_str (field oembed "type") "photo" && negb (truthy (field oembed "url")) = false ->
  (is_str (field oembed "type") "video" || is_str (field oembed "type") "rich")
  && (negb (truthy (field oembed "html"))
      || negb (truthy (field oembed "width"))
      || negb (truthy (field oembed "height"))) = false ->
  well_formed_oembed oembed.
Proof.
  intros oembed Hvalid Hphoto Hvideo. subst oembed.
  unfold well_formed_oembed.
  rewrite !pick_field_of in * by (unfold knownFields; set_solver).
  apply andb_true_iff in Hvalid as [Hreq Hty].
  apply existsb_exists in Hty as (ty & Hin & Hty). apply is_str_eq in Hty.
  rewrite Hty in *. split; [apply pick_dom|].
  split. { exists ty. split; [by apply list_elem_of_In|done]. }
  split.
  { destruct (truthy (VStr ty)) eqn:Htruthy; [done|]. by rewrite Htruthy in Hreq. }
  split.
  - intros [= ->]. simpl in Hphoto.
    by destruct (truthy (prop_of body "url")).
  - intros Hvr.
    assert (Hb : is_str (VStr ty) "video" || is_str (VStr ty) "rich" = true)
      by (by destruct Hvr as [[= ->]|[= ->]]).
    rewrite Hb in Hvideo. simpl in Hvideo.
    destruct (truthy (prop_of body "html")), (truthy (prop_of body "width")),
      (truthy (prop_of body "height")); done.
Qed.

Lemma fetchOembedData_requests (url html : string) (cardType : option string) :
  triple (fetchOembedData W this url html cardType)
    (fun ev => ev = ECheerio html
               \/ exists u, json_request u ev
                            /\ isIpOrLocalhost W this u = false
                            /\ cheerio_href W html = inr (Some u))
    (fun v => v = VUndefined \/ exists o, v = VObj o /\ well_formed_oembed o)
    (fun e => e = unknown_provider_outcome url
              \/ endpoint_rejected W this html e \/ foreign e).
Proof.
  unfold fetchOembedData.
  eapply (triple_bind _ _ _ (fun o => cheerio_href W html = inr o)).
  { eapply (triple_try_catch _ _ _
              (fun o => cheerio_href W html = inr o) (fun _ => True)).
    - eapply (triple_bind _ _ _ (fun _ => True)).
      { apply (triple_emit _ _ (fun _ => True)); [by left|done]. }
      intros _ _. by apply triple_call.
    - intros e _. apply triple_throw. by left. }
  intros [oembedUrl|] Hlink; [|apply triple_ret; by left].
  destruct (negb (truthy (VStr oembedUrl))); [apply triple_ret; by left|].
  destruct (negb (truthy (of_opt cardType)) && test false WP_REGEX oembedUrl);
    [apply triple_ret; by left|].
  eapply (triple_bind _ _ _ (fun _ => True)).
  { eapply triple_weaken;
      [apply (triple_and_throw _ _ _ _ _ (fetchPageJson_requests W this oembedUrl)
                (fetchPageJson_throws W this oembedUrl))| |done|].
    - intros ev [Hreq Hguard]. right. by exists oembedUrl.
    - intros e [_ [[-> Hguard]|Hf]]; [|by right; right].
      right; left. by exists oembedUrl. }
  intros oembedResponse _. cbv zeta.
  set (body := json_body oembedResponse).
  eapply (triple_bind _ _ _
            (fun h => h = if truthy (prop_of body "type")
                          then prop_of body "version" else prop_of body "type")).
  { eapply (triple_bind _ _ _ (fun ty => ty = prop_of body "type")).
    { eapply triple_weaken;
        [apply (get_prop_value _ _ (fun _ => False))|done|done|by right; right]. }
    intros ty ->. destruct (truthy (prop_of body "type")) eqn:Hty.
    - eapply triple_weaken;
        [apply (get_prop_value _ _ (fun _ => False))|done|done|by right; right].
    - by apply triple_ret. }
  intros hasRequiredFields ->.
  eapply (triple_bind _ _ _
            (fun b => b = existsb (is_str (prop_of body "type")) oembed_types)).
  { eapply (triple_bind _ _ _ (fun ty => ty = prop_of body "type")).
    { eapply triple_weaken;
        [apply (get_prop_value _ _ (fun _ => False))|done|done|by right; right]. }
    intros ty ->. by apply triple_ret. }
  intros hasValidType ->.
  match goal with
  | |- triple (if ?c then _ else _) _ _ _ => destruct c eqn:Hvalid
  end; [|apply triple_ret; by left].
  match goal with
  | |- triple (if ?c then _ else _) _ _ _ => destruct c eqn:Hphoto
  end; [apply triple_ret; by left|].
  match goal with
  | |- triple (if ?c then _ else _) _ _ _ => destruct c eqn:Hvideo
  end; [apply triple_ret; by left|].
  apply triple_ret. right. eexists. split; [reflexivity|].
  by apply pick_well_formed.
Qed.
End Payloads.

Section Resolution.
Variables (W : World) (this : OEmbed).

Lemma not_request_resolution_event url ev :
  is_request ev = false -> resolution_event W this url ev.
Proof. intros H u cfg ->. discriminate H. Qed.

Lemma page_request_resolution_event url ev :
  page_request url ev -> isIpOrLocalhost W this url = false ->
  resolution_event W this url ev.
Proof.
  intros Hreq Hguard u cfg Hev. split; [|by left].
  destruct Hreq as (cfg' & -> & _). by injection Hev as <- _.
Qed.

Lemma knownProvider_value (url providerUrl : string) :
  triple (knownProvider W providerUrl) (resolution_event W this url)
    (resolution_result W url) (resolution_failure W this url).
Proof.
  unfold knownProvider.
  eapply (triple_try_catch _ _ _ _
            (fun e => exists je, extract W providerUrl = inl je /\ e = Foreign je)).
  - eapply (triple_bind _ _ _ (fun _ => True)).
    { apply (triple_emit _ _ (fun _ => True)); [|done].
      by apply not_request_resolution_event. }
    intros _ _. apply triple_call.
    + intros v Hv. right; right. by exists providerUrl.
    + intros je Hje. by exists je.
  - intros e (je & Hje & ->). apply triple_throw.
    right; right; right. by exists providerUrl, je.
Qed.

Lemma fetchBookmarkData_value (url body : string) :
  triple (fetchBookmarkData W url body) (resolution_event W this url)
    (resolution_result W url) (resolution_failure W this url).
Proof.
  intros t. rewrite fetchBookmarkData_run.
  destruct (metascraper W body url) as [je|scraped].
  - eexists. split; [reflexivity|]. split; [|by left].
    repeat (apply Forall_cons_2; [by apply not_request_resolution_event|]).
    apply Forall_nil_2.
  - eexists. split; [reflexivity|]. split.
    { apply Forall_cons_2; [by apply not_request_resolution_event|apply Forall_nil_2]. }
    cbn [fst]. destruct (truthy (field scraped "title")) eqn:Htitle; [|by right; left].
    left. exists (bookmark_metadata scraped). split; [done|].
    unfold field. rewrite bookmark_metadata_other by done. exact Htitle.
Qed.

Lemma findUrlWithProvider_event url u :
  triple (findUrlWithProvider W u) (resolution_event W this url)
    (fun _ => True) (fun _ => False).
Proof.
  eapply triple_weaken; [apply findUrlWithProvider_triple| |done|done].
  intros [] H; try discriminate H. by apply not_request_resolution_event.
Qed.

Lemma later_stages_full url type :
  triple (later_stages W this url type) (resolution_event W this url)
    (fun p => triple p (resolution_event W this url)
                (resolution_result W url) (resolution_failure W this url))
    (fun e => resolution_failure W this url e \/ foreign e).
Proof.
  unfold later_stages.
  eapply (triple_bind _ _ _ (fun _ => True)).
  { destruct (negb (is_bookmark type)); [|by apply triple_ret].
    eapply triple_weaken; [apply findUrlWithProvider_event|done..]. }
  intros known _. destruct (pm_provider known).
  { apply triple_ret. apply knownProvider_value. }
  eapply (triple_bind _ _ _
            (fun page => exists t2 t3,
               fetchPageHtml W this url t2 = (Return page, t3))).
  { eapply triple_weaken;
      [apply (triple_and_returned _ _ _
                (fun page => exists t2 t3,
                   fetchPageHtml W this url t2 = (Return page, t3))
                _ (fetchPageHtml_requests W this url))| | |].
    - intros t2 page t3 Hpage. by exists t2, t3.
    - intros ev [[Hreq Hguard]|Hlog].
      + by apply page_request_resolution_event.
      + apply not_request_resolution_event. by destruct ev.
    - by intros page [_ Hpage].
    - intros e [->|Hf]; [left; by left|by right]. }
  intros page (t2 & t3 & Hpage). cbv zeta. destruct (is_bookmark type).
  { apply triple_ret. apply fetchBookmarkData_value. }
  eapply (triple_bind _ _ _ (fun _ => True)).
  { destruct (negb (html_url page =? url)%string); [|by apply triple_ret].
    eapply triple_weaken; [apply findUrlWithProvider_event|done..]. }
  intros redirected _. destruct (pm_provider redirected).
  { apply triple_ret. apply knownProvider_value. }
  eapply (triple_bind _ _ _
            (fun v => v = VUndefined \/ exists o, v = VObj o /\ well_formed_oembed o)).
  { eapply triple_weaken; [apply fetchOembedData_requests| |done|].
    - intros ev [->|(u & Hreq & Hguard & Hlink)].
      + by apply not_request_resolution_event.
      + intros u' cfg Hev. destruct Hreq as (cfg' & Hev' & Hopts).
        assert (u' = u) as -> by congruence.
        split; [done|]. right. split; [by exists cfg'|by eexists].
    - intros e [->|[He|He]]; [left; by left| |by right].
      left. right; right; left. by exists page, t2, t3. }
  intros data Hdata.
  eapply (triple_bind _ _ _
            (fun v => truthy v = false \/ resolution_result W url v)).
  { destruct (negb (truthy data) && negb (truthy (of_opt type))).
    - eapply triple_weaken; [apply fetchBookmarkData_value|done| |].
      + intros v Hv. by right.
      + intros e He. by left.
    - apply triple_ret. destruct Hdata as [->|(o & -> & Ho)]; [by left|].
      right. right; left. by exists o. }
  intros data' Hdata'. destruct (negb (truthy data')) eqn:Hfalsy.
  - apply triple_ret. apply triple_throw. by left.
  - apply triple_ret. apply triple_ret.
    destruct Hdata' as [Hf|Hres]; [|done]. by rewrite Hf in Hfalsy.
Qed.

Lemma resolve_later_full url type :
  triple (resolve_later W this url type) (resolution_event W this url)
    (resolution_result W url) (resolution_failure W this url).
Proof.
  unfold resolve_later. apply triple_settle.
  eapply triple_try_catch; [apply later_stages_full|].
  intros e He. unfold on_error. destruct (isValidationError e) eqn:Hval.
  - apply triple_throw. destruct He as [He|[je ->]]; [done|discriminate].
  - eapply (triple_bind _ _ _ (fun _ => True)).
    { apply triple_emit; [by apply not_request_resolution_event|done]. }
    intros _ _. apply triple_ret. apply triple_throw. by left.
Qed.
End Resolution.

Section ResolutionPaths.
Variables (W : World) (this : OEmbed).

Lemma knownProvider_run providerUrl t :
  knownProvider W providerUrl t
  = (known_provider_outcome W providerUrl, t ++ [EExtract providerUrl]).
Proof.
  unfold knownProvider, known_provider_outcome, try_catch, bind, emit, call.
  by destruct (extract W providerUrl).
Qed.

Lemma findUrlWithProvider_run url t :
  findUrlWithProvider W url t
  = (Return match List.find (hasProvider W) (variants (strip_scheme_www url)) with
            | Some testUrl => ProviderMatch testUrl true
            | None => ProviderMatch url false
            end,
     t ++ lookups W url).
Proof.
  unfold findUrlWithProvider, lookups.
  by rewrite for_testUrls_run, testUrls_variants.
Qed.

(** X1: once the providers have declined, every request the
    resolution issues goes to an address the guard accepts, and is
    either the fetch of the page at the requested URL (binary buffer)
    or the JSON fetch of an endpoint a page links to, each a GET with
    a timeout of 2000 ms that follows redirects and has a cookie jar
    of its own. *)
Theorem resolution_requests_guarded url type t t1 :
  providers_decline W this url t t1 ->
  exists evs,
    (fetchOembedDataFromUrl W this url type t).2 = t1 ++ evs
    /\ Forall (resolution_event W this (String_trim W url)) evs.
Proof.
  intros Hdecline. rewrite (resolve_after_providers _ _ _ _ _ _ Hdecline).
  destruct (resolve_later_full W this (String_trim W url) type t1)
    as (evs & Ht & Hevs & _).
  by exists evs.
Qed.

(** X2: once the providers have declined, a value the resolution
    returns is a bookmark payload for the requested URL whose metadata
    has a title, an oEmbed payload that passed the discoverer's
    checks, or the answer of [extract] for a URL of the directory. *)
Theorem resolution_results_shaped url type t t1 v t' :
  providers_decline W this url t t1 ->
  fetchOembedDataFromUrl W this url type t = (Return v, t') ->
  resolution_result W (String_trim W url) v.
Proof.
  intros Hdecline. rewrite (resolve_after_providers _ _ _ _ _ _ Hdecline).
  intros Hrun.
  by destruct (triple_run _ _ _ _ _ _ _
                 (resolve_later_full W this (String_trim W url) type) Hrun)
    as (_ & _ & _ & Hv).
Qed.

(** X3: a payload the discoverer returns holds only the known oEmbed
    fields, has one of the types photo, video, link and rich, a
    version, a [url] when it is a photo, and [html], [width] and
    [height] when it is a video or rich. *)
Theorem fetchOembedData_payload_whitelisted url html cardType t v t' :
  fetchOembedData W this url html cardType t = (Return v, t') ->
  v = VUndefined \/ exists o, v = VObj o /\ well_formed_oembed o.
Proof.
  intros Hrun.
  by destruct (triple_run _ _ _ _ _ _ _
                 (fetchOembedData_requests W this url html cardType) Hrun)
    as (_ & _ & _ & Hv).
Qed.

Lemma fetchOembedData_link url html cardType t :
  fetchOembedData W this url html cardType t
  = match cheerio_href W html with
    | inl _ => (Throw (unknown_provider_outcome url), t ++ [ECheerio html])
    | inr None => (Return VUndefined, t ++ [ECheerio html])
    | inr (Some oembedUrl) =>
        if negb (truthy (VStr oembedUrl))
           || negb (truthy (of_opt cardType)) && test false WP_REGEX oembedUrl
        then (Return VUndefined, t ++ [ECheerio html])
        else fetchOembedData W this url html cardType t
    end.
Proof.
  destruct (cheerio_href W html) as [je|[oembedUrl|]] eqn:Hlink.
  - unfold fetchOembedData, bind, try_catch, emit, call. by rewrite Hlink.
  - destruct (negb (truthy (VStr oembedUrl))
              || negb (truthy (of_opt cardType)) && test false WP_REGEX oembedUrl)
      eqn:Hskip; [|done].
    unfold fetchOembedData, bind, try_catch, emit, call. rewrite Hlink.
    cbn [ret]. apply orb_true_iff in Hskip as [-> | Hwp]; [done|].
    rewrite Hwp. by destruct (negb (truthy (VStr oembedUrl))).
  - unfold fetchOembedData, bind, try_catch, emit, call. by rewrite Hlink.
Qed.

(** X4: the discoverer fetches nothing when the page has no oEmbed
    link, when the link is empty, or when the link is a WordPress
    endpoint and no card type was given; it then returns no payload.
    When the search for the link throws, it throws the
    unknown-provider error for the requested URL. *)
Theorem fetchOembedData_without_request url html cardType t :
  (cheerio_href W html = inr None
   \/ cheerio_href W html = inr (Some "")
   \/ (exists oembedUrl,
         cheerio_href W html = inr (Some oembedUrl)
         /\ truthy (of_opt cardType) = false
         /\ test false WP_REGEX oembedUrl = true) ->
   fetchOembedData W this url html cardType t
   = (Return VUndefined, t ++ [ECheerio html]))
  /\ (forall je,
        cheerio_href W html = inl je ->
        fetchOembedData W this url html cardType t
        = (Throw (unknown_provider_outcome url), t ++ [ECheerio html])).
Proof.
  split.
  - intros [Hlink|[Hlink|(oembedUrl & Hlink & Hty & Hwp)]];
      rewrite fetchOembedData_link, Hlink; [done|done|].
    rewrite Hty, Hwp. cbn [negb andb]. by rewrite orb_true_r.
  - intros je Hlink. by rewrite fetchOembedData_link, Hlink.
Qed.

(** X5: a page that links to a WordPress oEmbed endpoint is never
    resolved through that endpoint, whatever card type was requested:
    the endpoint is not fetched, and the resolution is the bookmark
    extraction when no type was requested and the unknown-provider
    error otherwise. *)
Theorem wordpress_endpoint_not_fetched url type t page t4 oembedUrl :
  reaches_discovery W this url type t page t4 ->
  cheerio_href W (html_body page) = inr (Some oembedUrl) ->
  test false WP_REGEX oembedUrl = true ->
  fetchOembedDataFromUrl W this url type t
  = if truthy (of_opt type)
    then (Throw (unknown_provider_outcome (String_trim W url)),
          t4 ++ [ECheerio (html_body page)])
    else fetchBookmarkData W (String_trim W url) (html_body page)
           (t4 ++ [ECheerio (html_body page)]).
Proof.
  intros Hreach Hlink Hwp.
  assert (Hdata : fetchOembedData W this (String_trim W url) (html_body page) None t4
                  = (Return VUndefined, t4 ++ [ECheerio (html_body page)])).
  { rewrite fetchOembedData_link, Hlink, Hwp. cbn [of_opt truthy negb andb].
    by rewrite orb_true_r. }
  rewrite (resolve_at_discovery _ _ _ _ _ _ _ Hreach).
  destruct (truthy (of_opt type)) eqn:Hty.
  - unfold settle, try_catch, discover_or_bookmark, bind.
    by rewrite Hdata, Hty.
  - by apply (discover_or_bookmark_fallback _ _ _ _ _ _ _ _ Hdata).
Qed.

(** X6: when a card type other than bookmark was requested and
    discovery yields no payload, the resolution ends with the
    unknown-provider error for the requested URL, without a bookmark
    extraction. *)
Theorem requested_type_has_no_fallback url type t page t4 data t5 :
  reaches_discovery W this url type t page t4 ->
  truthy (of_opt type) = true ->
  fetchOembedData W this (String_trim W url) (html_body page) None t4
  = (Return data, t5) ->
  truthy data = false ->
  fetchOembedDataFromUrl W this url type t
  = (Throw (unknown_provider_outcome (String_trim W url)), t5).
Proof.
  intros Hreach Hty Hdata Hfalsy.
  rewrite (resolve_at_discovery _ _ _ _ _ _ _ Hreach).
  unfold settle, try_catch, discover_or_bookmark, bind.
  rewrite Hdata, Hfalsy, Hty. cbn [negb andb ret]. by rewrite Hfalsy.
Qed.

(** X7: when discovery yields a payload, the resolution returns
    exactly that payload and nothing follows the discovery. *)
Theorem discovered_payload_returned url type t page t4 data t5 :
  reaches_discovery W this url type t page t4 ->
  fetchOembedData W this (String_trim W url) (html_body page) None t4
  = (Return data, t5) ->
  truthy data = true ->
  fetchOembedDataFromUrl W this url type t = (Return data, t5).
Proof.
  intros Hreach Hdata Htruthy.
  rewrite (resolve_at_discovery _ _ _ _ _ _ _ Hreach).
  unfold settle, try_catch, discover_or_bookmark, bind.
  rewrite Hdata, Htruthy. cbn [negb andb ret]. by rewrite Htruthy.
Qed.

(** X8: once the custom providers have declined (the URL parses and
    no provider returns a result), for a request that is not for a
    bookmark and a trimmed URL one of whose four variants the
    directory knows, the resolution is the outcome of [knownProvider]
    for the first such variant: the answer of [extract], or the
    [InternalServerError] with the extractor's message when it fails.
    What the resolution appends to the trace is exactly the lookups up
    to that variant and the extraction: the page is not fetched and
    the resolver's HTTP client is not called (what [extract] does
    inside its library is not part of the model). *)
Theorem known_provider_resolution url type t t1 providerUrl :
  providers_decline W this url t t1 ->
  is_bookmark type = false ->
  List.find (hasProvider W) (variants (strip_scheme_www (String_trim W url)))
  = Some providerUrl ->
  fetchOembedDataFromUrl W this url type t
  = (known_provider_outcome W providerUrl,
     t1 ++ lookups W (String_trim W url) ++ [EExtract providerUrl]).
Proof.
  intros Hdecline Hty Hfind.
  rewrite (resolve_after_providers _ _ _ _ _ _ Hdecline).
  assert (Hsteps : later_stages W this (String_trim W url) type t1
                   = (Return (knownProvider W providerUrl),
                      t1 ++ lookups W (String_trim W url))).
  { unfold later_stages. rewrite Hty. cbn [negb].
    erewrite bind_return by apply findUrlWithProvider_run.
    by rewrite Hfind. }
  unfold resolve_later, settle.
  rewrite (bind_return _ _ _ _ _ (try_catch_return _ _ _ _ _ Hsteps)).
  by rewrite knownProvider_run, <- app_assoc.
Qed.

(** X9: once the custom providers have declined, for a request that
    is not for a bookmark, when the directory knows no variant of the
    requested URL, the page fetch returns a page whose final URL
    differs from the requested (trimmed) URL, and the directory knows
    a variant of that final URL, the resolution is the outcome of
    [knownProvider] for the first such variant (the answer of
    [extract] or its [InternalServerError]); the trace ends with the
    lookups for the final URL and the extraction, so the fetched HTML
    is neither searched for an oEmbed link nor scraped. *)
Theorem redirect_to_known_provider url type t t1 page t3 providerUrl :
  providers_decline W this url t t1 ->
  is_bookmark type = false ->
  List.find (hasProvider W) (variants (strip_scheme_www (String_trim W url)))
  = None ->
  fetchPageHtml W this (String_trim W url)
    (t1 ++ lookups W (String_trim W url)) = (Return page, t3) ->
  html_url page <> String_trim W url ->
  List.find (hasProvider W) (variants (strip_scheme_www (html_url page)))
  = Some providerUrl ->
  fetchOembedDataFromUrl W this url type t
  = (known_provider_outcome W providerUrl,
     t3 ++ lookups W (html_url page) ++ [EExtract providerUrl]).
Proof.
  intros Hdecline Hty Hnone Hpage Hmoved Hfind.
  rewrite (resolve_after_providers _ _ _ _ _ _ Hdecline).
  assert (Hsteps : later_stages W this (String_trim W url) type t1
                   = (Return (knownProvider W providerUrl),
                      t3 ++ lookups W (html_url page))).
  { unfold later_stages. rewrite Hty. cbn [negb].
    erewrite bind_return by apply findUrlWithProvider_run.
    rewrite Hnone. cbn [pm_provider].
    erewrite bind_return by apply Hpage. cbv zeta.
    destruct (String.eqb_spec (html_url page) (String_trim W url)) as [|_]; [done|].
    cbn [negb]. erewrite bind_return by apply findUrlWithProvider_run.
    by rewrite Hfind. }
  unfold resolve_later, settle.
  rewrite (bind_return _ _ _ _ _ (try_catch_return _ _ _ _ _ Hsteps)).
  by rewrite knownProvider_run, <- app_assoc.
Qed.
End ResolutionPaths.

Section Edges.
Variables (W : World) (this : OEmbed).

Lemma for_customProviders_throws provider rest u t e t2 :
  canSupportRequest provider u t = (Throw e, t2)
  \/ (exists t1,
        canSupportRequest provider u t = (Return true, t1)
        /\ getOEmbedData provider u (externalRequest W this) t1 = (Throw e, t2)) ->
  for_customProviders W this (provider :: rest) u t = (Throw e, t2).
Proof.
  intros [Hcan|(t1 & Hcan & Hget)]; cbn [for_customProviders]; unfold bind.
  - by rewrite Hcan.
  - by rewrite Hcan, Hget.
Qed.

(** X10: when a custom provider throws, in [canSupportRequest] or in
    [getOEmbedData], the resolution stops there: the providers
    registered after it and every later stage are skipped, a
    [ValidationError] reaches the caller unchanged, and any other
    exception is logged and replaced by the unknown-provider error. *)
Theorem provider_exception_aborts url type t urlObject
    before provider after t1 e t2 :
  URL_parse W url = Some urlObject ->
  customProviders this = before ++ provider :: after ->
  for_customProviders W this before urlObject t = (Return None, t1) ->
  canSupportRequest provider urlObject t1 = (Throw e, t2)
  \/ (exists t',
        canSupportRequest provider urlObject t1 = (Return true, t')
        /\ getOEmbedData provider urlObject (externalRequest W this) t'
           = (Throw e, t2)) ->
  fetchOembedDataFromUrl W this url type t
  = if isValidationError e then (Throw e, t2)
    else (Throw (unknown_provider_outcome (String_trim W url)),
          t2 ++ [ELog (InternalServerError catch_all_message (Some e))]).
Proof.
  intros Hu Hlist Hbefore Hthrows.
  apply (resolve_steps_caught _ _ _ _ urlObject); [done|].
  unfold resolve_steps. rewrite Hlist. apply bind_throw.
  rewrite (for_customProviders_app _ _ _ _ _ _ _ Hbefore).
  by apply for_customProviders_throws.
Qed.

(** X11: for a URL that does not parse, the resolution throws the
    unknown-provider error with the URL as it was given (not
    trimmed), after logging the parse error; no provider is asked and
    nothing is looked up or fetched. *)
Theorem unparseable_url_rejected url type t :
  URL_parse W url = None ->
  fetchOembedDataFromUrl W this url type t
  = (Throw (unknown_provider_outcome url),
     t ++ [ELog (InternalServerError catch_all_message (Some invalid_url))]).
Proof. apply fetchOembedDataFromUrl_unparseable. Qed.

(** X12: once the guarded fetch has returned and the body can be
    turned into a string, [fetchPageHtml] returns a page with the
    final URL of the response, whatever the charset detection and the
    decoding do: the decoded body when both succeed, the undecoded
    body when no charset is found, and the undecoded body with the
    error logged once when either of them throws. *)
Theorem fetchPageHtml_decoding_degrades url t r t1 raw :
  fetchPage W this url
    {[ "encoding" := VStr "binary"; "responseType" := VStr "buffer" ]} t
  = (Return r, t1) ->
  toString W (resp_body r) = inr raw ->
  exists body log,
    fetchPageHtml W this url t
    = (Return (HtmlPage body (resp_url r)), t1 ++ log)
    /\ ((log = []
         /\ ((charset W (resp_headers r) (resp_body r) = inr None /\ body = raw)
             \/ exists encoding,
                  charset W (resp_headers r) (resp_body r) = inr (Some encoding)
                  /\ iconv_decode W (resp_body r) encoding = inr body))
        \/ (exists je,
              log = [ELog (Foreign je)] /\ body = raw
              /\ (charset W (resp_headers r) (resp_body r) = inl je
                  \/ exists encoding,
                       charset W (resp_headers r) (resp_body r) = inr (Some encoding)
                       /\ iconv_decode W (resp_body r) encoding = inl je))).
Proof.
  intros Hfetch Hraw. unfold fetchPageHtml.
  rewrite (bind_return _ _ _ _ _ Hfetch). cbv zeta.
  unfold try_catch, bind, emit, call.
  destruct (charset W (resp_headers r) (resp_body r)) as [je|[encoding|]] eqn:Hcs;
    cbn [throw ret].
  - rewrite Hraw. exists raw, [ELog (Foreign je)]. split; [done|].
    right. exists je. split_and!; auto.
  - destruct (iconv_decode W (resp_body r) encoding) as [je|decoded] eqn:Hdec;
      cbn [throw ret].
    + rewrite Hraw. exists raw, [ELog (Foreign je)]. split; [done|].
      right. exists je. split_and!; eauto.
    + exists decoded, []. rewrite app_nil_r. split; [done|].
      left. split; [done|]. right. eauto.
  - rewrite Hraw. exists raw, []. rewrite app_nil_r. split; [done|].
    left. split; [done|]. by left.
Qed.

(** X13: when the scraper throws, the bookmark extraction logs the
    error and throws the unknown-provider error for its URL; it never
    throws anything but that error and the insufficient-metadata
    error; and the metadata of a payload it returns has a title. *)
Theorem fetchBookmarkData_failures url html t :
  (forall je,
      metascraper W html url = inl je ->
      fetchBookmarkData W url html t
      = (Throw (unknown_provider_outcome url),
         t ++ [EMetascraper html url; ELog (Foreign je)]))
  /\ (forall e t',
        fetchBookmarkData W url html t = (Throw e, t') ->
        bookmark_failure url e)
  /\ (forall v t',
        fetchBookmarkData W url html t = (Return v, t') ->
        exists metadata,
          v = bookmark_payload url metadata
          /\ truthy (field metadata "title") = true).
Proof.
  split; [|split].
  - intros je Hs. by rewrite fetchBookmarkData_run, Hs.
  - intros e t' Hrun.
    by destruct (triple_run _ _ _ _ _ _ _
                   (fetchBookmarkData_triple W url html) Hrun)
      as (_ & _ & _ & He).
  - intros v t'. rewrite fetchBookmarkData_run.
    destruct (metascraper W html url) as [je|scraped]; [discriminate|].
    destruct (truthy (field scraped "title")) eqn:Htitle; [|discriminate].
    intros [= <- _]. exists (bookmark_metadata scraped). split; [done|].
    unfold field. rewrite bookmark_metadata_other by done. exact Htitle.
Qed.
End Edges.

Section Spellings.
Variable W : World.

Lemma list_ascii_of_string_app (a b : string) :
  list_ascii_of_string (a +:+ b)
  = list_ascii_of_string a ++ list_ascii_of_string b.
Proof. induction a as [|c a IH]; [done|]. simpl. by rewrite IH. Qed.

Lemma strip_scheme_www_spelled (h : string) :
  strip_scheme_www ("http://www." +:+ h) = h
  /\ strip_scheme_www ("https://www." +:+ h) = h
  /\ (strip_prefix "www." (list_ascii_of_string h) = None ->
      strip_scheme_www ("http://" +:+ h) = h
      /\ strip_scheme_www ("https://" +:+ h) = h).
Proof.
  unfold strip_scheme_www. rewrite !list_ascii_of_string_app.
  pose proof (string_of_list_ascii_of_string h) as Hh.
  revert Hh. generalize (list_ascii_of_string h). intros l Hl.
  split; [exact Hl|]. split; [exact Hl|].
  intros Hwww. split.
  - change (string_of_list_ascii (default l (strip_prefix "www." l)) = h).
    by rewrite Hwww.
  - change (string_of_list_ascii (default l (strip_prefix "www." l)) = h).
    by rewrite Hwww.
Qed.

(** X14: the four spellings of an address, with [http://] or
    [https://] and with or without [www.], are matched alike: for
    each of them the matcher tests the same four variants of the bare
    address, in the same order, and finds the same one.  (For the
    spellings without [www.] the bare address must not itself begin
    with [www.].) *)
Theorem findUrlWithProvider_spellings (h prefix : string) (t : trace) :
  prefix ∈ ["http://www."; "https://www."]
  \/ (prefix ∈ ["http://"; "https://"]
      /\ strip_prefix "www." (list_ascii_of_string h) = None) ->
  findUrlWithProvider W (prefix +:+ h) t
  = (Return match List.find (hasProvider W) (variants h) with
            | Some testUrl => ProviderMatch testUrl true
            | None => ProviderMatch (prefix +:+ h) false
            end,
     t ++ map EHasProvider (take_through (hasProvider W) (variants h))).
Proof.
  intros Hprefix.
  destruct (strip_scheme_www_spelled h) as (H1 & H2 & H3).
  assert (Hbase : strip_scheme_www (prefix +:+ h) = h).
  { destruct Hprefix as [Hin|[Hin Hwww]].
    - apply list_elem_of_In in Hin as [<-|[<-|[]]]; done.
    - destruct (H3 Hwww) as [H4 H5].
      apply list_elem_of_In in Hin as [<-|[<-|[]]]; done. }
  unfold findUrlWithProvider.
  by rewrite for_testUrls_run, testUrls_variants, Hbase.
Qed.
End Spellings.

Section Endpoints.
Variables (W : World) (this : OEmbed).

Lemma get_prop_run (body : value) (k : string) (t : trace) :
  body <> VNull -> body <> VUndefined ->
  get_prop body k t = (Return (prop_of body k), t).
Proof. by destruct body. Qed.

(** The discoverer up to the answer of the endpoint. *)
Lemma fetchOembedData_fetched url html t oembedUrl response t' :
  cheerio_href W html = inr (Some oembedUrl) ->
  oembedUrl <> "" ->
  test false WP_REGEX oembedUrl = false ->
  fetchPageJson W this oembedUrl (t ++ [ECheerio html]) = (Return response, t') ->
  fetchOembedData W this url html None t
  = (let body := json_body response in
     hasRequiredFields <-
       (ty <- get_prop body "type" ;;
        if truthy ty then get_prop body "version" else ret ty) ;;
     hasValidType <-
       (ty <- get_prop body "type" ;;
        ret (existsb (is_str ty) ["photo"; "video"; "link"; "rich"])) ;;
     if truthy hasRequiredFields && hasValidType then
       let oembed := pick body knownFields in
       if is_str (field oembed "type") "photo"
          && negb (truthy (field oembed "url"))
       then ret VUndefined
       else if (is_str (field oembed "type") "video"
                || is_str (field oembed "type") "rich")
               && (negb (truthy (field oembed "html"))
                   || negb (truthy (field oembed "width"))
                   || negb (truthy (field oembed "height")))
       then ret VUndefined
       else ret (VObj oembed)
     else ret VUndefined)%eff t'.
Proof.
  intros Hlink Hne Hwp Hfetch.
  unfold fetchOembedData.
  unfold bind at 1. unfold try_catch at 1. unfold bind at 1.
  unfold emit, call. rewrite Hlink. cbn [ret].
  rewrite (truthy_nonempty _ Hne), Hwp. cbn [negb of_opt truthy andb].
  unfold bind at 1. by rewrite Hfetch.
Qed.

(** X15: an answer of the endpoint that does not look like an oEmbed
    payload, because [type] or [version] is missing or empty or [type] is
    none of photo, video, link and rich, gives no payload and no error,
    whatever else the answer holds; a string, a number or an array is
    such an answer. *)
Theorem fetchOembedData_rejects_non_oembed
    url html t oembedUrl response t' :
  cheerio_href W html = inr (Some oembedUrl) ->
  oembedUrl <> "" ->
  test false WP_REGEX oembedUrl = false ->
  fetchPageJson W this oembedUrl (t ++ [ECheerio html]) = (Return response, t') ->
  json_body response <> VNull ->
  json_body response <> VUndefined ->
  truthy (prop_of (json_body response) "type") = false
  \/ truthy (prop_of (json_body response) "version") = false
  \/ (forall ty, ty ∈ oembed_types ->
                 prop_of (json_body response) "type" <> VStr ty) ->
  fetchOembedData W this url html None t = (Return VUndefined, t').
Proof.
  intros Hlink Hne Hwp Hfetch Hnull Hundef Hnot.
  rewrite (fetchOembedData_fetched _ _ _ _ _ _ Hlink Hne Hwp Hfetch).
  cbv zeta. set (body := json_body response) in *.
  unfold bind. rewrite !get_prop_run by done.
  assert (Hcheck :
    truthy (if truthy (prop_of body "type") then prop_of body "version"
            else prop_of body "type")
    && existsb (is_str (prop_of body "type")) oembed_types = false).
  { destruct Hnot as [Hty|[Hver|Hnone]].
    - by rewrite Hty, Hty.
    - destruct (truthy (prop_of body "type")) eqn:Hty.
      + by rewrite Hver.
      + by rewrite Hty.
    - apply andb_false_iff. right. apply not_true_is_false.
      intros (ty & Hin & Hty)%existsb_exists. apply is_str_eq in Hty.
      by apply (Hnone ty); [apply list_elem_of_In|]. }
  unfold oembed_types in Hcheck.
  destruct (truthy (prop_of body "type")) eqn:Hty;
    repeat first [rewrite get_prop_run by done | progress cbn [ret]];
    rewrite ?Hty in Hcheck |- *; by rewrite ?Hcheck.
Qed.

(** X16: when the endpoint answers with [null] or without a body, the
    discoverer's read of [body.type] throws a [TypeError]; the resolution
    logs it inside the catch-all error and ends with the unknown-provider
    error for the requested URL, without a bookmark extraction. *)
Theorem endpoint_without_body url type t page t4 oembedUrl response t5 :
  reaches_discovery W this url type t page t4 ->
  cheerio_href W (html_body page) = inr (Some oembedUrl) ->
  oembedUrl <> "" ->
  test false WP_REGEX oembedUrl = false ->
  fetchPageJson W this oembedUrl (t4 ++ [ECheerio (html_body page)])
  = (Return response, t5) ->
  json_body response = VNull \/ json_body response = VUndefined ->
  exists message,
    fetchOembedDataFromUrl W this url type t
    = (Throw (unknown_provider_outcome (String_trim W url)),
       t5 ++ [ELog (InternalServerError catch_all_message
                      (Some (Foreign (JsError "TypeError" message))))]).
Proof.
  intros Hreach Hlink Hne Hwp Hfetch Hbody.
  rewrite (resolve_at_discovery _ _ _ _ _ _ _ Hreach).
  unfold settle, try_catch, discover_or_bookmark.
  unfold bind at 1. unfold bind at 1.
  rewrite (fetchOembedData_fetched _ _ _ _ _ _ Hlink Hne Hwp Hfetch).
  cbv zeta. destruct Hbody as [-> | ->]; eexists; reflexivity.
Qed.
End Endpoints.

(** ** The further properties on concrete requests *)

Lemma resolution_requests_guarded_witness :
  exists evs,
    (fetchOembedDataFromUrl Demo.world Demo.blog
       "https://example.com/photo" None []).2 = [] ++ evs
    /\ Forall (resolution_event Demo.world Demo.blog "https://example.com/photo") evs.
Proof.
  apply (resolution_requests_guarded Demo.world Demo.blog
           "https://example.com/photo" None [] []).
  exists (MkURL "https:" "example.com" "example.com"). split; reflexivity.
Defined.

Lemma resolution_results_shaped_witness :
  resolution_result Demo.world "https://example.com/"
    (bookmark_payload "https://example.com/"
       {[ "url" := VStr "https://example.com/";
          "title" := VStr "Example";
          "thumbnail" := VStr "http://x/img.png";
          "icon" := VStr "http://x/favicon.ico" ]}).
Proof.
  apply (resolution_results_shaped Demo.world Demo.blog
           "https://example.com/" None [] []
           (bookmark_payload "https://example.com/"
              {[ "url" := VStr "https://example.com/";
                 "title" := VStr "Example";
                 "thumbnail" := VStr "http://x/img.png";
                 "icon" := VStr "http://x/favicon.ico" ]})
           (fetchOembedDataFromUrl Demo.world Demo.blog
              "https://example.com/" None []).2).
  - exists (MkURL "https:" "example.com" "example.com"). split; reflexivity.
  - vm_compute. reflexivity.
Defined.

Lemma fetchOembedData_payload_whitelisted_witness :
  VObj {[ "type" := VStr "video"; "version" := VStr "1.0";
          "html" := VStr "<iframe src='https://clips.example.net/embed/1'></iframe>";
          "width" := VNum 480; "height" := VNum 270 ]} = VUndefined
  \/ exists o,
       VObj {[ "type" := VStr "video"; "version" := VStr "1.0";
               "html" := VStr "<iframe src='https://clips.example.net/embed/1'></iframe>";
               "width" := VNum 480; "height" := VNum 270 ]} = VObj o
       /\ well_formed_oembed o.
Proof.
  apply (fetchOembedData_payload_whitelisted Cases.world Cases.site
           "https://clips.example.net/1" Cases.page_clip None []
           _
           (fetchOembedData Cases.world Cases.site
              "https://clips.example.net/1" Cases.page_clip None []).2).
  vm_compute. reflexivity.
Defined.

Lemma fetchOembedData_without_request_witness :
  fetchOembedData Demo.world Demo.blog
    "https://example.com/" Demo.page_plain None []
  = (Return VUndefined, [ECheerio Demo.page_plain])
  /\ fetchOembedData Cases.world Cases.site
       "https://wp.example.net/post" Cases.page_wordpress None []
     = (Return VUndefined, [ECheerio Cases.page_wordpress]).
Proof.
  split.
  - apply (proj1 (fetchOembedData_without_request Demo.world Demo.blog
                    "https://example.com/" Demo.page_plain None [])).
    left. reflexivity.
  - apply (proj1 (fetchOembedData_without_request Cases.world Cases.site
                    "https://wp.example.net/post" Cases.page_wordpress None [])).
    right; right.
    exists "https://wp.example.net/wp-json/oembed/1.0/embed?url=post".
    split; [reflexivity|]. split; [reflexivity|]. vm_compute. reflexivity.
Defined.

Lemma wordpress_endpoint_not_fetched_witness :
  fetchOembedDataFromUrl Cases.world Cases.site
    "https://wp.example.net/post" (Some "embed") []
  = (Throw (unknown_provider_outcome "https://wp.example.net/post"),
     (map EHasProvider (variants "wp.example.net/post")
        ++ [ERequest "https://wp.example.net/post" Cases.page_options])
     ++ [ECheerio Cases.page_wordpress]).
Proof.
  apply (wordpress_endpoint_not_fetched Cases.world Cases.site
           "https://wp.example.net/post" (Some "embed") []
           (HtmlPage Cases.page_wordpress "https://wp.example.net/post")
           (map EHasProvider (variants "wp.example.net/post")
              ++ [ERequest "https://wp.example.net/post" Cases.page_options])
           "https://wp.example.net/wp-json/oembed/1.0/embed?url=post").
  - exists [], (map EHasProvider (variants "wp.example.net/post")).
    eexists. exists (ProviderMatch "https://wp.example.net/post" false).
    split; [exists (MkURL "https:" "wp.example.net" "wp.example.net");
            split; reflexivity|].
    split; [reflexivity|]. split; [reflexivity|]. split; [reflexivity|].
    split; [vm_compute; reflexivity|]. reflexivity.
  - reflexivity.
  - vm_compute. reflexivity.
Defined.

Lemma requested_type_has_no_fallback_witness :
  fetchOembedDataFromUrl Demo.world Demo.blog
    "https://example.com/photo" (Some "embed") []
  = (Throw (unknown_provider_outcome "https://example.com/photo"),
     (fetchOembedDataFromUrl Demo.world Demo.blog
        "https://example.com/photo" (Some "embed") []).2).
Proof.
  apply (requested_type_has_no_fallback Demo.world Demo.blog
           "https://example.com/photo" (Some "embed") []
           (HtmlPage Demo.page_photo "https://example.com/photo")
           (map EHasProvider (variants "example.com/photo")
              ++ [ERequest "https://example.com/photo" Cases.page_options])
           VUndefined).
  - exists [], (map EHasProvider (variants "example.com/photo")).
    eexists. exists (ProviderMatch "https://example.com/photo" false).
    split; [exists (MkURL "https:" "example.com" "example.com");
            split; reflexivity|].
    split; [reflexivity|]. split; [reflexivity|]. split; [reflexivity|].
    split; [vm_compute; reflexivity|]. reflexivity.
  - reflexivity.
  - vm_compute. reflexivity.
  - reflexivity.
Defined.

Lemma discovered_payload_returned_witness :
  fetchOembedDataFromUrl Cases.world Cases.site
    "https://clips.example.net/1" None []
  = (Return
       (VObj {[ "type" := VStr "video"; "version" := VStr "1.0";
                "html" := VStr "<iframe src='https://clips.example.net/embed/1'></iframe>";
                "width" := VNum 480; "height" := VNum 270 ]}),
     (fetchOembedDataFromUrl Cases.world Cases.site
        "https://clips.example.net/1" None []).2).
Proof.
  apply (discovered_payload_returned Cases.world Cases.site
           "https://clips.example.net/1" None []
           (HtmlPage Cases.page_clip "https://clips.example.net/1")
           (map EHasProvider (variants "clips.example.net/1")
              ++ [ERequest "https://clips.example.net/1" Cases.page_options])).
  - exists [], (map EHasProvider (variants "clips.example.net/1")).
    eexists. exists (ProviderMatch "https://clips.example.net/1" false).
    split; [exists (MkURL "https:" "clips.example.net" "clips.example.net");
            split; reflexivity|].
    split; [reflexivity|]. split; [reflexivity|]. split; [reflexivity|].
    split; [vm_compute; reflexivity|]. reflexivity.
  - vm_compute. reflexivity.
  - reflexivity.
Defined.

Lemma known_provider_resolution_witness :
  fetchOembedDataFromUrl Demo.world Demo.blog
    "https://www.youtube.com/watch?v=1" None []
  = (Return (VObj {[ "type" := VStr "video"; "version" := VStr "1.0" ]}),
     [EHasProvider "http://youtube.com/watch?v=1";
      EHasProvider "https://youtube.com/watch?v=1";
      EHasProvider "http://www.youtube.com/watch?v=1";
      EHasProvider "https://www.youtube.com/watch?v=1";
      EExtract "https://www.youtube.com/watch?v=1"]).
Proof.
  apply (known_provider_resolution Demo.world Demo.blog
           "https://www.youtube.com/watch?v=1" None [] []
           "https://www.youtube.com/watch?v=1").
  - exists (MkURL "https:" "www.youtube.com" "www.youtube.com").
    split; reflexivity.
  - reflexivity.
  - reflexivity.
Defined.

Lemma redirect_to_known_provider_witness :
  fetchOembedDataFromUrl Cases.world Cases.site
    "https://short.example.net/y1" None []
  = (Return (VObj {[ "type" := VStr "video"; "version" := VStr "1.0" ]}),
     (map EHasProvider (variants "short.example.net/y1")
        ++ [ERequest "https://short.example.net/y1" Cases.page_options])
     ++ map EHasProvider (variants "youtube.com/watch?v=1")
     ++ [EExtract "https://www.youtube.com/watch?v=1"]).
Proof.
  apply (redirect_to_known_provider Cases.world Cases.site
           "https://short.example.net/y1" None [] []
           (HtmlPage Demo.page_plain "https://www.youtube.com/watch?v=1")
           (map EHasProvider (variants "short.example.net/y1")
              ++ [ERequest "https://short.example.net/y1" Cases.page_options])
           "https://www.youtube.com/watch?v=1").
  - exists (MkURL "https:" "short.example.net" "short.example.net").
    split; reflexivity.
  - reflexivity.
  - reflexivity.
  - vm_compute. reflexivity.
  - discriminate.
  - reflexivity.
Defined.

Lemma provider_exception_aborts_witness :
  fetchOembedDataFromUrl Cases.world Cases.site_with_broken
    "https://example.com/" None []
  = (Throw (unknown_provider_outcome "https://example.com/"),
     [ELog (InternalServerError catch_all_message
              (Some (Foreign (JsError "TypeError"
                 "Cannot read properties of undefined (reading 'html')"))))]).
Proof.
  apply (provider_exception_aborts Cases.world Cases.site_with_broken
           "https://example.com/" None []
           (MkURL "https:" "example.com" "example.com")
           [Demo.refusing_provider] Cases.broken_provider [Demo.fixed_provider]
           []
           (Foreign (JsError "TypeError"
              "Cannot read properties of undefined (reading 'html')"))
           []).
  - reflexivity.
  - reflexivity.
  - reflexivity.
  - right. exists []. split; reflexivity.
Defined.

Lemma unparseable_url_rejected_witness :
  fetchOembedDataFromUrl Demo.world Demo.blog_with_providers
    " example.com/post " None []
  = (Throw (unknown_provider_outcome " example.com/post "),
     [ELog (InternalServerError catch_all_message (Some invalid_url))]).
Proof.
  apply (unparseable_url_rejected Demo.world Demo.blog_with_providers
           " example.com/post " None []).
  reflexivity.
Defined.

Lemma fetchPageHtml_decoding_degrades_witness :
  exists body log,
    fetchPageHtml Cases.world Cases.site "https://legacy.example.net/" []
    = (Return (HtmlPage body "https://legacy.example.net/"),
       [ERequest "https://legacy.example.net/" Cases.page_options] ++ log)
    /\ ((log = []
         /\ ((Cases.detect (VObj ∅) (VBuf Cases.page_legacy) = inr None
              /\ body = Cases.page_legacy)
             \/ exists encoding,
                  Cases.detect (VObj ∅) (VBuf Cases.page_legacy)
                  = inr (Some encoding)
                  /\ Cases.decode (VBuf Cases.page_legacy) encoding = inr body))
        \/ (exists je,
              log = [ELog (Foreign je)] /\ body = Cases.page_legacy
              /\ (Cases.detect (VObj ∅) (VBuf Cases.page_legacy) = inl je
                  \/ exists encoding,
                       Cases.detect (VObj ∅) (VBuf Cases.page_legacy)
                       = inr (Some encoding)
                       /\ Cases.decode (VBuf Cases.page_legacy) encoding
                          = inl je))).
Proof.
  apply (fetchPageHtml_decoding_degrades Cases.world Cases.site
           "https://legacy.example.net/" []
           (Response "https://legacy.example.net/" (VObj ∅)
              (VBuf Cases.page_legacy))
           [ERequest "https://legacy.example.net/" Cases.page_options]
           Cases.page_legacy).
  - vm_compute. reflexivity.
  - reflexivity.
Defined.

Lemma fetchBookmarkData_failures_witness :
  fetchBookmarkData Cases.world
    "https://example.com/draft" Cases.page_unscrapable []
  = (Throw (unknown_provider_outcome "https://example.com/draft"),
     [EMetascraper Cases.page_unscrapable "https://example.com/draft";
      ELog (Foreign (JsError "Error" "Parse error"))]).
Proof.
  apply (proj1 (fetchBookmarkData_failures Cases.world
                  "https://example.com/draft" Cases.page_unscrapable [])
           (JsError "Error" "Parse error")).
  reflexivity.
Defined.

Lemma findUrlWithProvider_spellings_witness :
  findUrlWithProvider Demo.world ("https://" +:+ "vimeo.com/1") []
  = (Return (ProviderMatch "https://vimeo.com/1" true),
     [EHasProvider "http://vimeo.com/1"; EHasProvider "https://vimeo.com/1"]).
Proof.
  apply (findUrlWithProvider_spellings Demo.world "vimeo.com/1" "https://" []).
  right. split; [|reflexivity].
  apply list_elem_of_In. right. left. reflexivity.
Defined.

Lemma fetchOembedData_rejects_non_oembed_witness :
  fetchOembedData Cases.world Cases.site
    "https://example.com/feed" Cases.page_feed None []
  = (Return VUndefined,
     [ECheerio Cases.page_feed;
      ERequest "https://example.com/feed.json" Cases.json_options]).
Proof.
  apply (fetchOembedData_rejects_non_oembed Cases.world Cases.site
           "https://example.com/feed" Cases.page_feed []
           "https://example.com/feed.json"
           (JsonPage Cases.feed "https://example.com/feed.json")).
  - reflexivity.
  - discriminate.
  - vm_compute. reflexivity.
  - vm_compute. reflexivity.
  - discriminate.
  - discriminate.
  - right; left. reflexivity.
Defined.

Lemma endpoint_without_body_witness :
  exists message,
    fetchOembedDataFromUrl Cases.world Cases.site
      "https://example.com/empty" None []
    = (Throw (unknown_provider_outcome "https://example.com/empty"),
       ((map EHasProvider (variants "example.com/empty")
           ++ [ERequest "https://example.com/empty" Cases.page_options])
          ++ [ECheerio Cases.page_empty;
              ERequest "https://example.com/empty.json" Cases.json_options])
       ++ [ELog (InternalServerError catch_all_message
                   (Some (Foreign (JsError "TypeError" message))))]).
Proof.
  apply (endpoint_without_body Cases.world Cases.site
           "https://example.com/empty" None []
           (HtmlPage Cases.page_empty "https://example.com/empty")
           (map EHasProvider (variants "example.com/empty")
              ++ [ERequest "https://example.com/empty" Cases.page_options])
           "https://example.com/empty.json"
           (JsonPage VNull "https://example.com/empty.json")).
  - exists [], (map EHasProvider (variants "example.com/empty")).
    eexists. exists (ProviderMatch "https://example.com/empty" false).
    split; [exists (MkURL "https:" "example.com" "example.com");
            split; reflexivity|].
    split; [reflexivity|]. split; [reflexivity|]. split; [reflexivity|].
    split; [vm_compute; reflexivity|]. reflexivity.
  - reflexivity.
  - discriminate.
  - vm_compute. reflexivity.
  - vm_compute. reflexivity.
  - left. reflexivity.
Defined.

(** * The in-memory milestone repository *)
Module MilestoneProperties.
Import InMemoryMilestoneRepository.

Lemma findIndex_from_first {A} (p : A -> bool) (pre post : list A) (x : A) (i : Z) :
  (forall y, y ∈ pre -> p y = false) ->
  p x = true ->
  findIndex_from p (pre ++ x :: post) i = (i + Z.of_nat (length pre))%Z.
Proof.
  revert i. induction pre as [|y pre IH]; intros i Hpre Hx; simpl.
  - rewrite Hx. lia.
  - rewrite (Hpre y) by set_solver. rewrite IH; [lia| |done].
    intros z Hz. apply Hpre. set_solver.
Qed.

Lemma splice_replace {A} (pre post : list A) (old item : A) :
  splice (Z.of_nat (length pre)) 1 item (pre ++ old :: post)
  = pre ++ item :: post.
Proof.
  unfold splice. rewrite length_app. cbn [length].
  destruct (Z.ltb_spec (Z.of_nat (length pre)) 0) as [?|_]; [lia|].
  rewrite Z.min_l by lia.
  replace (Z.min (Z.max 1 0) _) with 1%Z by lia.
  rewrite Nat2Z.id.
  replace (Z.to_nat (Z.of_nat (length pre) + 1)) with (S (length pre)) by lia.
  rewrite take_app_length.
  change (pre ++ old :: post) with (pre ++ [old] ++ post).
  rewrite app_assoc.
  replace (S (length pre)) with (length (pre ++ [old]))
    by (rewrite length_app; simpl; lia).
  by rewrite drop_app_length.
Qed.

(** The first stored item with a given id. *)
Lemma first_with_id (l : list Milestone) (i : string) :
  i ∈ id <$> l ->
  exists pre old post,
    l = pre ++ old :: post /\ id old = i /\ (forall y, y ∈ pre -> id y <> i).
Proof.
  induction l as [|x l IH]; [by intros ?%elem_of_nil|].
  rewrite fmap_cons. intros Hin. destruct (decide (id x = i)) as [Hx|Hx].
  - exists [], x, l. split; [done|]. split; [done|]. by intros y ?%elem_of_nil.
  - apply elem_of_cons in Hin as [Hin|Hin]; [congruence|].
    destruct (IH Hin) as (pre & old & post & -> & Hold & Hpre).
    exists (x :: pre), old, post. split; [done|]. split; [done|].
    intros y [->|Hy]%elem_of_cons; auto.
Qed.

Lemma save_existing (this : repository) (m : Milestone) pre old post :
  id m ∈ ids this ->
  store this = pre ++ old :: post ->
  id old = id m ->
  (forall y, y ∈ pre -> id y <> id m) ->
  save this m = {| store := pre ++ m :: post; ids := ids this |}.
Proof.
  intros Hin Hstore Hold Hpre. unfold save.
  destruct (decide (id m ∈ ids this)) as [_|]; [|done].
  f_equal. rewrite Hstore. unfold findIndex.
  rewrite findIndex_from_first.
  - apply splice_replace.
  - intros y Hy. apply String.eqb_neq. by apply Hpre.
  - by apply String.eqb_eq.
Qed.

Lemma save_store (this : repository) (m : Milestone) :
  consistent this ->
  ((id m ∉ id <$> store this)
   /\ save this m = {| store := store this ++ [m];
                       ids := {[ id m ]} ∪ ids this |})
  \/ (exists pre old post,
        store this = pre ++ old :: post
        /\ id old = id m
        /\ save this m = {| store := pre ++ m :: post; ids := ids this |}).
Proof.
  intros [Hids Hnodup].
  destruct (decide (id m ∈ ids this)) as [Hin|Hnew].
  - right.
    assert (Hin' : id m ∈ id <$> store this)
      by (by rewrite Hids, elem_of_list_to_set in Hin).
    destruct (first_with_id _ _ Hin') as (pre & old & post & Hstore & Hold & Hpre).
    exists pre, old, post. split; [done|]. split; [done|].
    by apply (save_existing _ _ pre old post).
  - left. split; [by rewrite Hids, elem_of_list_to_set in Hnew|].
    unfold save. by destruct (decide (id m ∈ ids this)).
Qed.

Lemma save_consistent (this : repository) (m : Milestone) :
  consistent this -> consistent (save this m).
Proof.
  intros Hc. pose proof Hc as [Hids Hnodup].
  destruct (save_store this m Hc)
    as [[Hnew ->]|(pre & old & post & Hstore & Hold & ->)];
    unfold consistent; cbn [store ids].
  - rewrite fmap_app, list_to_set_app_L, Hids. cbn. split.
    + by rewrite union_empty_r_L, (comm_L (∪)).
    + apply NoDup_app. split; [done|]. split; [|apply NoDup_singleton].
      intros x Hx Hx'%list_elem_of_singleton. by subst x.
  - assert (Hmap : id <$> pre ++ m :: post = id <$> store this).
    { rewrite Hstore, !fmap_app, !fmap_cons. by rewrite Hold. }
    by rewrite Hmap.
Qed.

Lemma foldl_save_consistent (this : repository) (milestones : list Milestone) :
  consistent this -> consistent (foldl save this milestones).
Proof.
  revert this. induction milestones as [|m ms IH]; intros this Hc; [done|].
  simpl. apply IH. by apply save_consistent.
Qed.

Lemma empty_consistent : consistent empty.
Proof. split; [done|]. apply NoDup_nil_2. Qed.

(** X17: whatever milestones are saved into a new repository, in
    whatever order, the keys of [#ids] are exactly the ids of the stored
    milestones and no two stored milestones have the same id. *)
Theorem saves_keep_ids_unique (milestones : list Milestone) :
  consistent (foldl save empty milestones).
Proof. apply foldl_save_consistent, empty_consistent. Qed.

(** X18: in a repository whose two fields agree, saving a milestone
    with a new id appends it, and saving one with a stored id puts it
    in the place of the stored one: the length of the store and the
    position of every other milestone stay as they were. *)
Theorem save_appends_or_replaces (this : repository) (m : Milestone) :
  consistent this ->
  ((id m ∉ (id <$> store this)) /\ store (save this m) = store this ++ [m])
  \/ (exists pre old post,
        store this = pre ++ old :: post
        /\ id old = id m
        /\ store (save this m) = pre ++ m :: post).
Proof.
  intros Hc.
  destruct (save_store this m Hc)
    as [[Hnew ->]|(pre & old & post & Hstore & Hold & ->)].
  - by left.
  - right. by exists pre, old, post.
Qed.

Lemma NoDup_fmap_id_eq (l : list Milestone) (x y : Milestone) :
  NoDup (id <$> l) -> x ∈ l -> y ∈ l -> id x = id y -> x = y.
Proof.
  induction l as [|z l IH]; [by intros _ ?%elem_of_nil|].
  rewrite fmap_cons.
  intros [Hz Hnd]%NoDup_cons [->|Hx]%elem_of_cons [->|Hy]%elem_of_cons Heq.
  - done.
  - exfalso. apply Hz. rewrite Heq. by apply list_elem_of_fmap_2.
  - exfalso. apply Hz. rewrite <- Heq. by apply list_elem_of_fmap_2.
  - by apply IH.
Qed.

(** X19: in a repository whose two fields agree, after [save] the
    milestone is stored, it is the only stored milestone with its id,
    and the milestones with other ids are the ones stored before. *)
Theorem save_then_lookup (this : repository) (m : Milestone) :
  consistent this ->
  m ∈ store (save this m)
  /\ (forall x, x ∈ store (save this m) -> id x = id m -> x = m)
  /\ (forall x, id x <> id m ->
                x ∈ store (save this m) <-> x ∈ store this).
Proof.
  intros Hc. pose proof (save_consistent _ m Hc) as [_ Hnodup'].
  assert (Hm : m ∈ store (save this m)).
  { destruct (save_store this m Hc)
      as [[_ ->]|(pre & old & post & _ & _ & ->)]; cbn [store].
    - apply elem_of_app. right. by apply list_elem_of_singleton.
    - apply elem_of_app. right. by left. }
  split; [done|]. split.
  - intros x Hx Hid. by apply (NoDup_fmap_id_eq _ _ _ Hnodup').
  - intros x Hid.
    destruct (save_store this m Hc)
      as [[_ ->]|(pre & old & post & -> & Hold & ->)]; cbn [store].
    + rewrite elem_of_app, list_elem_of_singleton. split; [|by left].
      by intros [?| ->].
    + rewrite !elem_of_app, !elem_of_cons. split.
      * intros [?|[->|?]]; auto. done.
      * intros [?|[->|?]]; auto. congruence.
Qed.

(** X20: saving the same milestone twice is the same as saving it
    once. *)
Theorem save_twice (this : repository) (m : Milestone) :
  consistent this ->
  save (save this m) m = save this m.
Proof.
  intros Hc. pose proof Hc as [Hids Hnodup].
  destruct (save_store this m Hc)
    as [[Hnew Hsave]|(pre & old & post & Hstore & Hold & Hsave)]; rewrite Hsave.
  - pose proof (save_existing
             {| store := store this ++ [m]; ids := {[id m]} ∪ ids this |}
             m (store this) m []) as Hagain.
    cbn [store ids] in Hagain. apply Hagain.
    + apply elem_of_union. left. by apply elem_of_singleton.
    + done.
    + done.
    + intros y Hy Heq. apply Hnew. rewrite <- Heq.
      by apply list_elem_of_fmap_2.
  - assert (Hin : id m ∈ ids this).
    { rewrite Hids, elem_of_list_to_set, Hstore, fmap_app, fmap_cons, Hold.
      apply elem_of_app. right. by left. }
    assert (Hpre : forall y, y ∈ pre -> id y <> id m).
    { intros y Hy Heq. rewrite Hstore, fmap_app, fmap_cons in Hnodup.
      apply NoDup_app in Hnodup as (_ & Hdisj & _).
      apply (Hdisj (id y)); [by apply list_elem_of_fmap_2|].
      rewrite Heq, Hold. by left. }
    pose proof (save_existing {| store := pre ++ m :: post; ids := ids this |}
                  m pre m post) as Hagain.
    cbn [store ids] in Hagain. by apply Hagain.
Qed.
(** ** The queries *)
Lemma elem_of_filter_bool {A} (p : A -> bool) (l : list A) (x : A) :
  x ∈ List.filter p l <-> x ∈ l /\ p x = true.
Proof. by rewrite !list_elem_of_In, filter_In. Qed.

Lemma head_insert_desc key x s :
  head (insert_desc key x s) =
  match head s with
  | Some y => if (key x <? key y)%Z then Some y else Some x
  | None => Some x
  end.
Proof. destruct s as [|y s]; [done|]. cbn. by destruct (key x <? key y)%Z. Qed.

Lemma elem_of_insert_desc key x s y :
  y ∈ insert_desc key x s <-> y = x \/ y ∈ s.
Proof.
  induction s as [|z s IH]; cbn.
  - rewrite list_elem_of_singleton, elem_of_nil. tauto.
  - destruct (key x <? key z)%Z.
    + rewrite !elem_of_cons, IH. tauto.
    + rewrite !elem_of_cons. tauto.
Qed.

Lemma elem_of_sort_desc key l y : y ∈ sort_desc key l <-> y ∈ l.
Proof.
  induction l as [|x l IH]; [done|].
  change (sort_desc key (x :: l)) with (insert_desc key x (sort_desc key l)).
  by rewrite elem_of_insert_desc, elem_of_cons, IH.
Qed.

Lemma insert_desc_sorted key x s :
  StronglySorted (fun a b => (key b <= key a)%Z) s ->
  StronglySorted (fun a b => (key b <= key a)%Z) (insert_desc key x s).
Proof.
  induction 1 as [|z s Hs IH Hz]; cbn.
  - repeat constructor.
  - destruct (key x <? key z)%Z eqn:Hlt.
    + apply Z.ltb_lt in Hlt. constructor; [done|].
      apply Forall_forall. intros y [-> | Hy]%elem_of_insert_desc; [lia|].
      by apply (proj1 (Forall_forall _ _) Hz).
    + apply Z.ltb_ge in Hlt. constructor; [by constructor|].
      constructor; [done|]. eapply Forall_impl; [done|]. cbn. intros; lia.
Qed.

Lemma sort_desc_sorted key l :
  StronglySorted (fun a b => (key b <= key a)%Z) (sort_desc key l).
Proof.
  induction l as [|x l IH]; [constructor|]. by apply insert_desc_sorted.
Qed.

(** The first item of the sorted array is the first item of the array
    whose key is the largest. *)
Lemma head_sort_desc key l :
  match head (sort_desc key l) with
  | Some m =>
      exists pre post,
        l = pre ++ m :: post
        /\ (forall x, x ∈ pre -> (key x < key m)%Z)
        /\ (forall x, x ∈ post -> (key x <= key m)%Z)
  | None => l = []
  end.
Proof.
  induction l as [|x l IH]; [done|].
  change (sort_desc key (x :: l)) with (insert_desc key x (sort_desc key l)).
  rewrite head_insert_desc.
  destruct (head (sort_desc key l)) as [y|].
  - destruct IH as (pre & post & -> & Hpre & Hpost).
    destruct (key x <? key y)%Z eqn:Hlt.
    + apply Z.ltb_lt in Hlt. exists (x :: pre), post. split; [done|].
      split; [|done]. intros z [-> | Hz]%elem_of_cons; auto.
    + apply Z.ltb_ge in Hlt. exists [], (pre ++ y :: post). split; [done|].
      split; [by intros z ?%elem_of_nil|].
      intros z [Hz|[-> | Hz]%elem_of_cons]%elem_of_app.
      * specialize (Hpre _ Hz). lia.
      * done.
      * specialize (Hpost _ Hz). lia.
  - subst l. exists [], []. split; [done|].
    split; by intros z ?%elem_of_nil.
Qed.

(** Sorted by [k1] and then by [k2]: the largest [k2], and among the
    items that have it the largest [k1]. *)
Lemma head_sort_twice (k1 k2 : Milestone -> Z) (l : list Milestone) :
  match head (sort_desc k2 (sort_desc k1 l)) with
  | Some m =>
      m ∈ l
      /\ forall x, x ∈ l ->
           (k2 x < k2 m)%Z \/ (k2 x = k2 m /\ (k1 x <= k1 m)%Z)
  | None => l = []
  end.
Proof.
  pose proof (head_sort_desc k2 (sort_desc k1 l)) as Hhead.
  destruct (head (sort_desc k2 (sort_desc k1 l))) as [m|].
  - destruct Hhead as (pre & post & Hl & Hpre & Hpost). split.
    + apply (elem_of_sort_desc k1). rewrite Hl.
      apply elem_of_app. right. by left.
    + intros x Hx. apply (elem_of_sort_desc k1) in Hx. rewrite Hl in Hx.
      apply elem_of_app in Hx as [Hx|Hx]; [left; auto|].
      apply elem_of_cons in Hx as [-> | Hx]; [right; lia|].
      pose proof (Hpost _ Hx).
      destruct (decide (k2 x = k2 m)) as [Heq|]; [right|left; lia].
      split; [done|].
      pose proof (sort_desc_sorted k1 l) as Hs. rewrite Hl in Hs.
      apply StronglySorted_app_1_r, StronglySorted_inv in Hs as [_ Hall].
      by apply (proj1 (Forall_forall _ _) Hall).
  - pose proof (head_sort_desc k1 l) as Hk1. by rewrite Hhead in Hk1.
Qed.

(** X21: [getLatestByType] answers with a stored milestone of the
    type (for [arr]: and of the currency, [usd] when none is given) whose
    [value] is the highest; of those with the highest value it is one
    created last.  It answers [undefined] only when no stored milestone
    has the type. *)
Theorem getLatestByType_highest_value (this : repository) (type_ : string)
    (currency_ : option (option string)) :
  match getLatestByType this type_ currency_ with
  | Some m =>
      m ∈ store this
      /\ of_type type_ (default (Some "usd") currency_) m = true
      /\ forall x, x ∈ store this ->
           of_type type_ (default (Some "usd") currency_) x = true ->
           (value x < value m)%Z
           \/ (value x = value m /\ (createdAt x <= createdAt m)%Z)
  | None =>
      forall x, x ∈ store this ->
        of_type type_ (default (Some "usd") currency_) x = false
  end.
Proof.
  unfold getLatestByType, of_type.
  destruct (String.eqb type_ "arr");
    match goal with
    | |- context [List.filter ?p ?l] =>
        pose proof (head_sort_twice createdAt value (List.filter p l)) as Hh;
        destruct (head (sort_desc value (sort_desc createdAt (List.filter p l))))
          as [m|]
    end.
  1, 3: destruct Hh as [[Hm Hpm]%elem_of_filter_bool Hmax];
        split; [done|]; split; [done|];
        intros x Hx Hpx; apply Hmax; by apply elem_of_filter_bool.
  all: intros x Hx; apply not_true_is_false; intros Hpx;
       assert (Hin : x ∈ @nil Milestone)
         by (rewrite <- Hh; by apply elem_of_filter_bool);
       by apply elem_of_nil in Hin.
Qed.

(** X22: [getLastEmailSent] answers with a stored milestone that has an
    [emailSentAt] date and whose [value] is the highest of those that have
    one; of those with the highest value it is one whose email was sent
    last.  It answers [undefined] only when no stored milestone has the
    date. *)
Theorem getLastEmailSent_highest_value (this : repository) :
  match getLastEmailSent this with
  | Some m =>
      m ∈ store this
      /\ exists sent,
           emailSentAt m = Some sent
           /\ forall x sent', x ∈ store this -> emailSentAt x = Some sent' ->
                (value x < value m)%Z
                \/ (value x = value m /\ (sent' <= sent)%Z)
  | None => forall x, x ∈ store this -> emailSentAt x = None
  end.
Proof.
  unfold getLastEmailSent.
  match goal with
  | |- context [List.filter ?p ?l] =>
      pose proof (head_sort_twice sentAt value (List.filter p l)) as Hh;
      destruct (head (sort_desc value (sort_desc sentAt (List.filter p l))))
        as [m|]
  end.
  - destruct Hh as [[Hm Hpm]%elem_of_filter_bool Hmax]. split; [done|].
    apply bool_decide_eq_true in Hpm as [sent Hsent]. exists sent.
    split; [done|]. intros x sent' Hx Hsent'.
    destruct (Hmax x) as [Hlt|[Heq Hle]].
    + apply elem_of_filter_bool. split; [done|].
      apply bool_decide_eq_true. by exists sent'.
    + by left.
    + right. split; [done|]. unfold sentAt in Hle.
      by rewrite Hsent, Hsent' in Hle.
  - intros x Hx. destruct (emailSentAt x) as [sent'|] eqn:Hsent'; [|done].
    assert (Hin : x ∈ @nil Milestone); [|by apply elem_of_nil in Hin].
    rewrite <- Hh. apply elem_of_filter_bool. split; [done|].
    apply bool_decide_eq_true. by exists sent'.
Qed.

(** The first item that satisfies the test. *)
Lemma find_first {A} (p : A -> bool) (pre post : list A) (m : A) :
  (forall x, x ∈ pre -> p x = false) -> p m = true ->
  List.find p (pre ++ m :: post) = Some m.
Proof.
  intros Hpre Hm. induction pre as [|x pre IH]; cbn.
  - by rewrite Hm.
  - rewrite (Hpre x) by by left. apply IH. intros y Hy. apply Hpre. by right.
Qed.

(** After [save], the milestone is in the store, behind milestones of
    other ids that were stored before. *)
Lemma save_position (this : repository) (m : Milestone) :
  consistent this ->
  exists pre post,
    store (save this m) = pre ++ m :: post
    /\ forall x, x ∈ pre -> x ∈ store this /\ id x <> id m.
Proof.
  intros Hc. pose proof Hc as [Hids Hnodup].
  destruct (save_store this m Hc)
    as [[Hnew ->]|(pre & old & post & Hstore & Hold & ->)]; cbn [store].
  - exists (store this), []. split; [done|]. intros x Hx. split; [done|].
    intros Heq. apply Hnew. rewrite <- Heq. by apply list_elem_of_fmap_2.
  - exists pre, post. split; [done|]. intros x Hx. split.
    + rewrite Hstore. apply elem_of_app. by left.
    + intros Heq. rewrite Hstore, fmap_app, fmap_cons in Hnodup.
      apply NoDup_app in Hnodup as (_ & Hdisj & _).
      apply (Hdisj (id x)); [by apply list_elem_of_fmap_2|].
      rewrite Heq, Hold. by left.
Qed.

(** X23: a saved [members] milestone is the one [getByCount] finds for
    its value, when no other stored [members] milestone has that
    value. *)
Theorem save_then_getByCount (this : repository) (m : Milestone) :
  consistent this ->
  type m = "members" ->
  (forall x, x ∈ store this -> id x <> id m -> type x = "members" ->
             value x <> value m) ->
  getByCount (save this m) (value m) = Some m.
Proof.
  intros Hc Hty Hother.
  destruct (save_position this m Hc) as (pre & post & Hsave & Hpre).
  unfold getByCount. rewrite Hsave. apply find_first.
  - intros x [Hx Hid]%Hpre. apply not_true_is_false.
    intros [Hv Ht%String.eqb_eq]%andb_true_iff. apply Z.eqb_eq in Hv.
    by apply (Hother x).
  - by rewrite Hty, Z.eqb_refl.
Qed.

(** X24: a saved [arr] milestone is the one [getByARR] finds for its
    value and its currency, when no other stored [arr] milestone has that
    value and that currency; the currency asked for is [usd] when none is
    given. *)
Theorem save_then_getByARR (this : repository) (m : Milestone)
    (currency_ : option (option string)) :
  consistent this ->
  type m = "arr" ->
  currency m = default (Some "usd") currency_ ->
  (forall x, x ∈ store this -> id x <> id m -> type x = "arr" ->
             currency x = currency m -> value x <> value m) ->
  getByARR (save this m) (value m) currency_ = Some m.
Proof.
  intros Hc Hty Hcur Hother.
  destruct (save_position this m Hc) as (pre & post & Hsave & Hpre).
  unfold getByARR. rewrite Hsave. apply find_first.
  - intros x [Hx Hid]%Hpre. apply not_true_is_false.
    intros [[Hv Ht%String.eqb_eq]%andb_true_iff Hc'%bool_decide_eq_true]%andb_true_iff.
    apply Z.eqb_eq in Hv. apply (Hother x); try done. by rewrite Hcur.
  - rewrite Hty, Z.eqb_refl. cbn. by apply bool_decide_eq_true.
Qed.

End MilestoneProperties.

(** ** The repository on concrete milestones *)

Lemma save_appends_or_replaces_witness :
  (("64b7f1a2c3d4e5f60718293a" ∉
      InMemoryMilestoneRepository.id
        <$> InMemoryMilestoneRepository.store MilestoneCases.saved)
   /\ InMemoryMilestoneRepository.store
        (InMemoryMilestoneRepository.save MilestoneCases.saved
           MilestoneCases.hundred_members_sent)
      = InMemoryMilestoneRepository.store MilestoneCases.saved
          ++ [MilestoneCases.hundred_members_sent])
  \/ (exists pre old post,
        InMemoryMilestoneRepository.store MilestoneCases.saved
        = pre ++ old :: post
        /\ InMemoryMilestoneRepository.id old = "64b7f1a2c3d4e5f60718293a"
        /\ InMemoryMilestoneRepository.store
             (InMemoryMilestoneRepository.save MilestoneCases.saved
                MilestoneCases.hundred_members_sent)
           = pre ++ MilestoneCases.hundred_members_sent :: post).
Proof.
  apply (MilestoneProperties.save_appends_or_replaces MilestoneCases.saved
           MilestoneCases.hundred_members_sent).
  apply MilestoneProperties.foldl_save_consistent,
    MilestoneProperties.empty_consistent.
Defined.

Lemma save_then_lookup_witness :
  MilestoneCases.hundred_members_sent
    ∈ InMemoryMilestoneRepository.store
        (InMemoryMilestoneRepository.save MilestoneCases.saved
           MilestoneCases.hundred_members_sent)
  /\ (forall x,
        x ∈ InMemoryMilestoneRepository.store
              (InMemoryMilestoneRepository.save MilestoneCases.saved
                 MilestoneCases.hundred_members_sent) ->
        InMemoryMilestoneRepository.id x = "64b7f1a2c3d4e5f60718293a" ->
        x = MilestoneCases.hundred_members_sent)
  /\ (forall x,
        InMemoryMilestoneRepository.id x <> "64b7f1a2c3d4e5f60718293a" ->
        x ∈ InMemoryMilestoneRepository.store
              (InMemoryMilestoneRepository.save MilestoneCases.saved
                 MilestoneCases.hundred_members_sent)
        <-> x ∈ InMemoryMilestoneRepository.store MilestoneCases.saved).
Proof.
  apply (MilestoneProperties.save_then_lookup MilestoneCases.saved
           MilestoneCases.hundred_members_sent).
  apply MilestoneProperties.foldl_save_consistent,
    MilestoneProperties.empty_consistent.
Defined.

Lemma save_twice_witness :
  InMemoryMilestoneRepository.save
    (InMemoryMilestoneRepository.save MilestoneCases.saved
       MilestoneCases.thousand_eur)
    MilestoneCases.thousand_eur
  = InMemoryMilestoneRepository.save MilestoneCases.saved
      MilestoneCases.thousand_eur.
Proof.
  apply (MilestoneProperties.save_twice MilestoneCases.saved
           MilestoneCases.thousand_eur).
  apply MilestoneProperties.foldl_save_consistent,
    MilestoneProperties.empty_consistent.
Defined.

Lemma save_then_getByCount_witness :
  InMemoryMilestoneRepository.getByCount
    (InMemoryMilestoneRepository.save MilestoneCases.saved
       MilestoneCases.hundred_members_sent) 100
  = Some MilestoneCases.hundred_members_sent.
Proof.
  apply (MilestoneProperties.save_then_getByCount MilestoneCases.saved
           MilestoneCases.hundred_members_sent).
  - apply MilestoneProperties.foldl_save_consistent,
      MilestoneProperties.empty_consistent.
  - reflexivity.
  - intros x Hx Hid Hty.
    apply list_elem_of_In in Hx as [<-|[<-|[]]]; [by destruct Hid|discriminate Hty].
Defined.

Lemma save_then_getByARR_witness :
  InMemoryMilestoneRepository.getByARR
    (InMemoryMilestoneRepository.save MilestoneCases.saved
       MilestoneCases.thousand_eur) 1000 (Some (Some "eur"))
  = Some MilestoneCases.thousand_eur.
Proof.
  apply (MilestoneProperties.save_then_getByARR MilestoneCases.saved
           MilestoneCases.thousand_eur (Some (Some "eur"))).
  - apply MilestoneProperties.foldl_save_consistent,
      MilestoneProperties.empty_consistent.
  - reflexivity.
  - reflexivity.
  - intros x Hx Hid Hty Hcur.
    apply list_elem_of_In in Hx as [<-|[<-|[]]];
      [discriminate Hty|discriminate Hcur].
Defined.

Lemma getLatestByType_highest_value_witness :
  MilestoneCases.thousand_usd
    ∈ InMemoryMilestoneRepository.store
        (InMemoryMilestoneRepository.save MilestoneCases.saved
           MilestoneCases.thousand_eur)
  /\ InMemoryMilestoneRepository.of_type "arr" (Some "usd")
       MilestoneCases.thousand_usd = true
  /\ forall x,
       x ∈ InMemoryMilestoneRepository.store
             (InMemoryMilestoneRepository.save MilestoneCases.saved
                MilestoneCases.thousand_eur) ->
       InMemoryMilestoneRepository.of_type "arr" (Some "usd") x = true ->
       (InMemoryMilestoneRepository.value x < 1000)%Z
       \/ (InMemoryMilestoneRepository.value x = 1000%Z
           /\ (InMemoryMilestoneRepository.createdAt x <= 1689854400000)%Z).
Proof.
  exact (MilestoneProperties.getLatestByType_highest_value
           (InMemoryMilestoneRepository.save MilestoneCases.saved
              MilestoneCases.thousand_eur) "arr" None).
Defined.

Lemma getLastEmailSent_highest_value_witness :
  MilestoneCases.hundred_members_sent
    ∈ InMemoryMilestoneRepository.store
        (InMemoryMilestoneRepository.save MilestoneCases.saved
           MilestoneCases.hundred_members_sent)
  /\ exists sent,
       Some 1689768060000%Z = Some sent
       /\ forall x sent',
            x ∈ InMemoryMilestoneRepository.store
                  (InMemoryMilestoneRepository.save MilestoneCases.saved
                     MilestoneCases.hundred_members_sent) ->
            InMemoryMilestoneRepository.emailSentAt x = Some sent' ->
            (InMemoryMilestoneRepository.value x < 100)%Z
            \/ (InMemoryMilestoneRepository.value x = 100%Z
                /\ (sent' <= sent)%Z).
Proof.
  exact (MilestoneProperties.getLastEmailSent_highest_value
           (InMemoryMilestoneRepository.save MilestoneCases.saved
              MilestoneCases.hundred_members_sent)).
Defined.
